(** * csp-stars: catalog ingestion, star cache, colour lookup and shader
      variant selection of the CosmoScout VR star plugin.

    The development embeds the C++ sources of the plugin
    ([Stars.cpp] in its two revisions: the one with the Gaia catalog and the
    loaded-magnitude range, and the later one with draw modes and HDR) as
    Rocq functions and proves properties of them.

    - C++ [float] is IEEE 754 binary32, modelled by [spec_float] with
      precision 24 and maximal exponent 128 and the round-to-nearest-even
      operations of the standard library.
    - [std::vector] is a list; an access out of range is an explicit
      outcome of the model.
    - [std::map<CatalogType, std::string>] is a function from the key
      enumeration to an optional file name.
    - files are values: a file is the list of its bytes, whether it is
      read as a catalog, line by line, or as the cache. *)

From Stdlib Require Import ZArith List Bool String Ascii Lia SpecFloat Reals Lra.
Import ListNotations.

Local Open Scope Z_scope.

(* ================================================================== *)
(** * IEEE 754 binary32 *)
(* ================================================================== *)

Module Binary32.

Definition prec : Z := 24.
Definition emax : Z := 128.

Definition float := spec_float.

(** A well-formed binary32 value: canonical mantissa, exponent in range. *)
Definition valid (x : float) : bool := valid_binary prec emax x.

Definition add : float -> float -> float := SFadd prec emax.
Definition sub : float -> float -> float := SFsub prec emax.
Definition mul : float -> float -> float := SFmul prec emax.
Definition div : float -> float -> float := SFdiv prec emax.
Definition ltb : float -> float -> bool := SFltb.

(** The value of an integer literal written with a float suffix. *)
Definition of_Z (n : Z) : float := binary_normalize prec emax n 0 false.

(** The float nearest to the decimal [m / 10^k]. *)
Definition of_decimal (neg : bool) (m : positive) (k : nat) : float :=
  SFdiv prec emax (S754_finite neg m 0)
                  (S754_finite false (Z.to_pos (10 ^ Z.of_nat k)) 0).

(** [std::min(a, b)] is [(b < a) ? b : a]; [std::max(a, b)] is
    [(a < b) ? b : a]. *)
Definition std_min (a b : float) : float := if ltb b a then b else a.
Definition std_max (a b : float) : float := if ltb a b then b else a.

(** [static_cast<int>(x)]: truncation towards zero.  The conversion is
    undefined for NaN, the infinities and values outside the range of
    [int]; the model answers [None] there. *)
Definition trunc (x : float) : option Z :=
  match x with
  | S754_zero _ => Some 0
  | S754_finite s m e =>
      let a := if 0 <=? e then Zpos m * 2 ^ e else Zpos m / 2 ^ (- e) in
      Some (if s then - a else a)
  | _ => None
  end.

Definition to_int (x : float) : option Z :=
  match trunc x with
  | Some v => if (- 2 ^ 31 <=? v) && (v <? 2 ^ 31) then Some v else None
  | None => None
  end.

(** The 32-bit pattern of a float (sign, 8 exponent bits, 23 fraction
    bits).  [spec_float] has one NaN; it is given the quiet pattern. *)
Definition sign_bit (s : bool) : Z := if s then 2 ^ 31 else 0.

Definition to_bits (x : float) : Z :=
  match x with
  | S754_zero s => sign_bit s
  | S754_infinity s => sign_bit s + 255 * 2 ^ 23
  | S754_nan => 255 * 2 ^ 23 + 2 ^ 22
  | S754_finite s m e =>
      if Zpos m <? 2 ^ 23 then sign_bit s + Zpos m
      else sign_bit s + (e + 150) * 2 ^ 23 + (Zpos m - 2 ^ 23)
  end.

Definition of_bits (b : Z) : float :=
  let s := 2 ^ 31 <=? b in
  let ex := (b / 2 ^ 23) mod 256 in
  let fr := b mod 2 ^ 23 in
  if ex =? 0 then
    match fr with
    | Zpos m => S754_finite s m (-149)
    | _ => S754_zero s
    end
  else if ex =? 255 then
    (if fr =? 0 then S754_infinity s else S754_nan)
  else
    match fr + 2 ^ 23 with
    | Zpos m => S754_finite s m (ex - 150)
    | _ => S754_nan
    end.

(** Literals of the sources. *)
Definition zero : float := S754_zero false.
Definition f0_4 : float := S754_finite false 13421773 (-25).   (* 0.4F  *)
Definition f2_0 : float := S754_finite false 8388608 (-22).    (* 2.0F  *)
Definition f0_05 : float := S754_finite false 13421773 (-28).  (* 0.05F *)
Definition f0_5 : float := S754_finite false 8388608 (-24).    (* 0.5F  *)
Definition f1000 : float := S754_finite false 16384000 (-14).  (* 1000.F *)
Definition f100000 : float := S754_finite false 12800000 (-7). (* 100000.F *)
Definition f360 : float := S754_finite false 11796480 (-15).   (* 360.F *)
Definition f90 : float := S754_finite false 11796480 (-17).    (* 90.F *)
Definition f180 : float := S754_finite false 11796480 (-16).   (* 180.F *)
Definition f5 : float := S754_finite false 10485760 (-21).     (* 5.F *)
Definition f10 : float := S754_finite false 10485760 (-20).    (* 10.F *)

(** [std::numeric_limits<float>::max()] and [::min()]: the largest finite
    float and the smallest positive normal float. *)
Definition numeric_limits_max : float := S754_finite false 16777215 104.
Definition numeric_limits_min : float := S754_finite false 8388608 (-149).

End Binary32.

Definition float : Type := Binary32.float.

(* ================================================================== *)
(** * Stream extraction, tokens and bytes *)
(* ================================================================== *)

(** [template <typename T> bool fromString(std::string const& v, T& out)]
    runs [iss >> out] on a fresh string stream and answers whether the
    fail bit stayed clear.  The extraction operator belongs to the C++
    library; the development is parametric in it.  [Some x] stands for
    [true] with [out = x], [None] for [false]. *)
Class FromString (T : Type) := fromString : string -> option T.

(** The extraction operators the parser uses: [fromString<float>] and
    [fromString<int>]. *)
Class StreamExtraction := {
  extract_float :: FromString float;
  extract_int :: FromString Z
}.

(** [while (getline(stream, item, delim)) items.emplace_back(item);]
    Every delimiter ends an item; characters after the last delimiter form
    a last item; nothing is appended for the empty rest after a final
    delimiter, nor for an empty line. *)
Fixpoint getline_items (delim : ascii) (s : string) (item : string) : list string :=
  match s with
  | EmptyString => [item]
  | String c rest =>
      if Ascii.eqb c delim then
        item :: match rest with
                | EmptyString => []
                | String _ _ => getline_items delim rest EmptyString
                end
      else getline_items delim rest (item ++ String c EmptyString)
  end.

Definition tokenize (delim : ascii) (line : string) : list string :=
  match line with
  | EmptyString => []
  | String _ _ => getline_items delim line EmptyString
  end.

(** Evaluating [v[i]] on a [std::vector] is defined only for
    [0 <= i < v.size()].  [OutOfRange i n] records an access at index [i]
    into a vector of [n] elements. *)
Inductive Access (A : Type) : Type :=
| Ok (a : A)
| OutOfRange (i : Z) (n : nat).
Arguments Ok {A} a.
Arguments OutOfRange {A} i n.

Definition bind {A B : Type} (c : Access A) (k : A -> Access B) : Access B :=
  match c with
  | Ok a => k a
  | OutOfRange i n => OutOfRange i n
  end.

Notation "x <- c ;; k" := (bind c (fun x => k))
  (at level 61, c at next level, right associativity).

Definition subscript {A : Type} (v : list A) (i : Z) : Access A :=
  if i <? 0 then OutOfRange i (List.length v)
  else match nth_error v (Z.to_nat i) with
       | Some a => Ok a
       | None => OutOfRange i (List.length v)
       end.

Definition in_range {A : Type} (v : list A) (i : Z) : Prop :=
  0 <= i < Z.of_nat (List.length v).

(** Unsigned 32-bit and signed 32-bit conversions. *)
Definition to_uint32 (z : Z) : Z := z mod 2 ^ 32.
Definition to_int32 (z : Z) : Z := (z + 2 ^ 31) mod 2 ^ 32 - 2 ^ 31.

Definition byte_of_Z (z : Z) : Byte.byte :=
  match Byte.of_N (Z.to_N (z mod 256)) with
  | Some b => b
  | None => Byte.x00
  end.

Definition Z_of_byte (b : Byte.byte) : Z := Z.of_N (Byte.to_N b).

(* ================================================================== *)
(** * Catalog record model *)
(* ================================================================== *)

(** [enum class CatalogColumn]: the required columns of each catalog. *)
Inductive CatalogColumn : Type := eVmag | eBmag | ePara | eRect | eDecl | eHipp.

Definition columnCast (c : CatalogColumn) : nat :=
  match c with
  | eVmag => 0 | eBmag => 1 | ePara => 2 | eRect => 3 | eDecl => 4 | eHipp => 5
  end%nat.

(** [struct Star]: one record of a star catalog. *)
Record Star : Type := {
  mVMagnitude : float;
  mBMagnitude : float;
  mAscension : float;
  mDeclination : float;
  mParallax : float
}.

Definition valid_star (s : Star) : Prop :=
  Binary32.valid (mVMagnitude s) = true /\
  Binary32.valid (mBMagnitude s) = true /\
  Binary32.valid (mAscension s) = true /\
  Binary32.valid (mDeclination s) = true /\
  Binary32.valid (mParallax s) = true.

(** [Vista::Pi] of the ViSTA toolkit, the binary32 value nearest to pi. *)
Definition Vista_Pi : float := S754_finite false 13176795 (-22).

(** [(360.F + 90.F - star.mAscension) / 180.F * Vista::Pi] *)
Definition normalizeAscension (a : float) : float :=
  Binary32.mul
    (Binary32.div (Binary32.sub (Binary32.add Binary32.f360 Binary32.f90) a)
                  Binary32.f180)
    Vista_Pi.

(** [star.mDeclination / 180.F * Vista::Pi] *)
Definition normalizeDeclination (d : float) : float :=
  Binary32.mul (Binary32.div d Binary32.f180) Vista_Pi.

(** What one line of a catalog contributes. *)
Inductive LineResult : Type :=
| TooFewTokens            (* [items.size() > 12] is false *)
| InHipparcos             (* skipped by [continue]: part of the Hipparcos catalogue *)
| Unparsable              (* [successStoreData] is false *)
| Parsed (s : Star).      (* [mStars.emplace_back(star)] *)

Definition appended (r : LineResult) : list Star :=
  match r with
  | Parsed s => [s]
  | _ => []
  end.

(** Operations whose behaviour the language leaves undefined. *)
Inductive UB : Type :=
| IndexOutOfRange (i : Z) (n : nat)   (* [v[i]] evaluated outside [0, n) *)
| FloatToInt (x : float)              (* [static_cast<int>(x)] not representable *)
| SignedOverflow (v : Z)              (* an [int] result [v] outside the range of [int] *)
| IndeterminateValue.                 (* an object read before it was given a value *)

(** Ways a call can end. *)
Inductive Outcome (A : Type) : Type :=
| Returns (a : A)
| Undefined (u : UB)
| Throws (what : string).       (* an exception leaves the call *)
Arguments Returns {A} a.
Arguments Undefined {A} u.
Arguments Throws {A} what.

Definition lift {A : Type} (c : Access A) : Outcome A :=
  match c with
  | Ok a => Returns a
  | OutOfRange i n => Undefined (IndexOutOfRange i n)
  end.

Definition obind {A B : Type} (c : Outcome A) (k : A -> Outcome B) : Outcome B :=
  match c with
  | Returns a => k a
  | Undefined u => Undefined u
  | Throws w => Throws w
  end.

Notation "x <-- c ;; k" := (obind c (fun x => k))
  (at level 61, c at next level, right associativity).

Section LineParser.

Context {SE : StreamExtraction}.

(** [row] is [cColumnMapping[enumCast(type)]]. *)
Variable row : list Z.

Definition column (c : CatalogColumn) : Z := nth (columnCast c) row 0.

Definition parses {T : Type} {F : FromString T} (tok : string) : bool :=
  match fromString tok with
  | Some _ => true
  | None => false
  end.

(** The body of the line loop of [readStarsFromCatalog], from
    [if (items.size() > 12)] to the [emplace_back]. *)
Definition parseLine (notHipparcos loadHipparcos : bool) (items : list string)
  : Access LineResult :=
  if 12 <? Z.of_nat (List.length items) then
    skip <- (if notHipparcos && loadHipparcos
             then tok <- subscript items (column eHipp) ;;
                  Ok (parses (T := Z) tok)
             else Ok false) ;;
    if skip then Ok InHipparcos
    else
      v <- subscript items (column eVmag) ;;
      b <- subscript items (column eBmag) ;;
      r <- subscript items (column eRect) ;;
      d <- subscript items (column eDecl) ;;
      p <- (if 0 <? column ePara
            then tok <- subscript items (column ePara) ;;
                 Ok (match fromString (T := float) tok with
                     | Some x => x
                     | None => Binary32.zero
                     end)
            else Ok Binary32.zero) ;;
      match fromString (T := float) v, fromString (T := float) b,
            fromString (T := float) r, fromString (T := float) d with
      | Some vm, Some bm, Some ra, Some de =>
          Ok (Parsed {| mVMagnitude := vm;
                        mBMagnitude := bm;
                        mAscension := normalizeAscension ra;
                        mDeclination := normalizeDeclination de;
                        mParallax := p |})
      | _, _, _, _ => Ok Unparsable
      end
  else Ok TooFewTokens.

(** The loop over the lines of an opened catalog file. *)
Fixpoint readLines (delim : ascii) (notHipparcos loadHipparcos : bool)
  (lines : list string) (stars : list Star) : Access (list Star) :=
  match lines with
  | [] => Ok stars
  | line :: rest =>
      r <- parseLine notHipparcos loadHipparcos (tokenize delim line) ;;
      readLines delim notHipparcos loadHipparcos rest (stars ++ appended r)
  end.

(** A line whose cross-reference column holds an integer. *)
Definition crossReferenced (delim : ascii) (line : string) : Prop :=
  exists (tok : string) (n : Z),
    subscript (tokenize delim line) (column eHipp) = Ok tok
    /\ fromString (T := Z) tok = Some n.

End LineParser.

(* ================================================================== *)
(** * The line rule of the catalog parser, as its description words it *)
(* ================================================================== *)

(** Degrees to radians in binary32: [x / 180 * pi]. *)
Definition radians (degrees : float) : float :=
  Binary32.mul (Binary32.div degrees Binary32.f180) Vista_Pi.

Section LineRule.

Context {SE : StreamExtraction}.

(** [row] is the row of the column mapping for the catalog read. *)
Variable row : list Z.

(** The records one line of a catalog contributes, following the
    description of the parser and not its code: nothing for a line of
    fewer than 13 tokens; nothing for a line that the de-duplication
    against Hipparcos skips ([deduplicate]: the catalog read is not
    Hipparcos and Hipparcos is configured; the line is skipped when its
    cross-reference token parses as an integer); otherwise one record when
    the visual magnitude, blue magnitude, ascension and declination tokens
    parse as floating point, with the ascension mapped to 450 degrees minus
    itself, in radians, the declination mapped to radians, and the
    parallax 0 when the catalog has no parallax column or the token does
    not parse; nothing when one of the four does not parse.  The rule
    speaks of lines that have the tokens it names; [token] is the empty
    text where a line has none. *)
Definition lineRule (delim : ascii) (deduplicate : bool) (line : string) : list Star :=
  let items := tokenize delim line in
  let token := fun c => nth (Z.to_nat (column row c)) items EmptyString in
  if (List.length items <? 13)%nat then []
  else if deduplicate && parses (T := Z) (token eHipp) then []
  else
    match fromString (T := float) (token eVmag), fromString (T := float) (token eBmag),
          fromString (T := float) (token eRect), fromString (T := float) (token eDecl) with
    | Some v, Some b, Some a, Some d =>
        [ {| mVMagnitude := v;
             mBMagnitude := b;
             mAscension := radians (Binary32.sub (Binary32.of_Z 450) a);
             mDeclination := radians d;
             mParallax :=
               if column row ePara <=? 0 then Binary32.zero
               else match fromString (T := float) (token ePara) with
                    | Some p => p
                    | None => Binary32.zero
                    end |} ]
    | _, _, _, _ => []
    end.

End LineRule.

(* ================================================================== *)
(** * Files, log and the byte buffer (de)serializer *)
(* ================================================================== *)

Inductive LogLevel : Type := Warn | Error.

(** The files the plugin reads and writes, by name, and the warnings and
    errors it has logged (oldest first).  Info-level progress messages are
    left out.  Catalogs and caches live in the same file system: a cache
    written under the name of a catalog replaces that catalog. *)
Record World : Type := {
  contents : string -> option (list Byte.byte);   (* the bytes of a file *)
  writable : string -> bool;                      (* can be opened for writing *)
  logged : list (LogLevel * string)
}.

(** A file opened with [std::ios::binary]: its bytes, if it can be opened. *)
Definition cacheFile (w : World) (name : string) : option (list Byte.byte) :=
  contents w name.

(** [while (!file.eof()) { std::getline(file, line); ... }] on a file
    holding [bytes]: every newline ends a line, and what follows the last
    newline is a line too, be it empty (the read that finds nothing sets
    the end-of-file bit and leaves [line] empty). *)
Fixpoint getlines (bytes : list Byte.byte) (line : string) : list string :=
  match bytes with
  | [] => [line]
  | b :: rest =>
      if Byte.eqb b Byte.x0a then line :: getlines rest EmptyString
      else getlines rest (line ++ String (ascii_of_byte b) EmptyString)
  end.

(** A file opened as a text stream: its lines, if it can be opened. *)
Definition catalogFile (w : World) (name : string) : option (list string) :=
  option_map (fun bytes => getlines bytes EmptyString) (contents w name).

Definition say (lvl : LogLevel) (msg : string) (w : World) : World :=
  {| contents := contents w;
     writable := writable w;
     logged := logged w ++ [(lvl, msg)] |}.

(** [file.write(buffer, size)] on a file opened with [std::ios::out]: the
    file of that name now holds [bytes]. *)
Definition store (name : string) (bytes : list Byte.byte) (w : World) : World :=
  {| contents := fun f => if String.eqb f name then Some bytes else contents w f;
     writable := writable w;
     logged := logged w |}.

(** Modelled from the spec: the byte buffer serializer of the ViSTA toolkit
    ([VistaByteBufferSerializer], [VistaByteBufferDeSerializer]) is not part
    of the repository.  Following the cache file layout of the external
    interfaces section, an [int32] and a [float32] take four bytes each,
    least significant byte first; a read that finds fewer than four bytes
    leaves its target and the buffer as they are. *)
Definition encode32 (v : Z) : list Byte.byte :=
  [byte_of_Z v; byte_of_Z (v / 2 ^ 8); byte_of_Z (v / 2 ^ 16); byte_of_Z (v / 2 ^ 24)].

Definition decode32 (b0 b1 b2 b3 : Byte.byte) : Z :=
  Z_of_byte b0 + 2 ^ 8 * Z_of_byte b1 + 2 ^ 16 * Z_of_byte b2 + 2 ^ 24 * Z_of_byte b3.

Definition WriteInt32 (buffer : list Byte.byte) (v : Z) : list Byte.byte :=
  buffer ++ encode32 v.

Definition WriteFloat32 (buffer : list Byte.byte) (x : float) : list Byte.byte :=
  buffer ++ encode32 (Binary32.to_bits x).

Definition ReadInt32 (buffer : list Byte.byte) (target : Z) : Z * list Byte.byte :=
  match buffer with
  | b0 :: b1 :: b2 :: b3 :: rest => (decode32 b0 b1 b2 b3, rest)
  | _ => (target, buffer)
  end.

Definition ReadFloat32 (buffer : list Byte.byte) (target : float)
  : float * list Byte.byte :=
  match buffer with
  | b0 :: b1 :: b2 :: b3 :: rest => (Binary32.of_bits (decode32 b0 b1 b2 b3), rest)
  | _ => (target, buffer)
  end.

(** [const int Stars::cCacheVersion = 3;] *)
Definition cCacheVersion : Z := 3.

(** The five [WriteFloat32] calls for one star. *)
Definition writeStar (buffer : list Byte.byte) (s : Star) : list Byte.byte :=
  WriteFloat32 (WriteFloat32 (WriteFloat32 (WriteFloat32 (WriteFloat32 buffer
    (mVMagnitude s)) (mBMagnitude s)) (mAscension s)) (mDeclination s)) (mParallax s).

(** The twenty bytes of one star. *)
Definition starBytes (s : Star) : list Byte.byte :=
  encode32 (Binary32.to_bits (mVMagnitude s))
  ++ encode32 (Binary32.to_bits (mBMagnitude s))
  ++ encode32 (Binary32.to_bits (mAscension s))
  ++ encode32 (Binary32.to_bits (mDeclination s))
  ++ encode32 (Binary32.to_bits (mParallax s)).

(** The buffer [writeStarCache] fills: version, catalog bit mask, number of
    stars as [uint32], then the stars. *)
Definition serializeCache (catalogs : Z) (stars : list Star) : list Byte.byte :=
  let b0 := WriteInt32 [] (to_uint32 cCacheVersion) in
  let b1 := WriteInt32 b0 catalogs in
  let b2 := WriteInt32 b1 (to_uint32 (Z.of_nat (List.length stars))) in
  fold_left writeStar stars b2.

(** [Star star{}; deserializer.ReadFloat32(star.mVMagnitude); ...] *)
Definition readStar (buffer : list Byte.byte) : Star * list Byte.byte :=
  let '(v, b1) := ReadFloat32 buffer Binary32.zero in
  let '(b, b2) := ReadFloat32 b1 Binary32.zero in
  let '(a, b3) := ReadFloat32 b2 Binary32.zero in
  let '(d, b4) := ReadFloat32 b3 Binary32.zero in
  let '(p, b5) := ReadFloat32 b4 Binary32.zero in
  ({| mVMagnitude := v; mBMagnitude := b; mAscension := a;
      mDeclination := d; mParallax := p |}, b5).

(** [for (unsigned int num = 0; num < numStars; ++num)] *)
Fixpoint readStars (numStars : nat) (buffer : list Byte.byte) (stars : list Star)
  : list Star :=
  match numStars with
  | O => stars
  | S n => let '(s, rest) := readStar buffer in readStars n rest (stars ++ [s])
  end.

(** The three header words of a cache file as [readStarCache] decodes
    them. *)
Definition headerOf (data : list Byte.byte) : Z * Z * Z * list Byte.byte :=
  let '(cacheVersion, d1) := ReadInt32 data 0 in
  let '(catalogs, d2) := ReadInt32 d1 0 in
  let '(numStars, d3) := ReadInt32 d2 0 in
  (cacheVersion, catalogs, numStars, d3).

(** The part of [readStarCache] that follows a successful [file.open]:
    the file is read into a vector sized by [int size = (int)file.tellg()],
    the header is checked against [cCacheVersion] and [catalogsToLoad], and
    the stars are appended to [mStars].  A negative [size] makes the
    constructor of [data] throw; with [size] zero the vector is empty and
    [&data[0]] is evaluated on it. *)
Definition deserializeCache (catalogsToLoad : Z) (file : list Byte.byte)
  (stars : list Star) : Outcome (bool * list Star) :=
  let size := to_int32 (Z.of_nat (List.length file)) in
  if size <? 0 then Throws "std::length_error"
  else if size =? 0 then Undefined (IndexOutOfRange 0 0)
  else
    let data := firstn (Z.to_nat size) file in
    let '(cacheVersion, catalogs, numStars, rest) := headerOf data in
    if negb (cacheVersion =? to_uint32 cCacheVersion) then Returns (false, stars)
    else if negb (catalogs =? catalogsToLoad) then Returns (false, stars)
    else Returns (true, readStars (Z.to_nat numStars) rest stars).

(* ================================================================== *)
(** * Colour and distance of a star *)
(* ================================================================== *)

(** [VistaColor(0xRRGGBB)], kept as its colour code. *)
Definition VistaColor : Type := Z.

(** The 47 entries [init] appends to [mSpectralColors]:
    spectral colors from B-V index -0.4 to 2.0 in steps of 0.05. *)
Definition spectralColors : list VistaColor :=
  [ 0x9bb2ff; 0x9eb5ff; 0xa3b9ff; 0xaabfff; 0xb2c5ff; 0xbbccff; 0xc4d2ff;
    0xccd8ff; 0xd3ddff; 0xdae2ff; 0xdfe5ff; 0xe4e9ff; 0xe9ecff; 0xeeefff;
    0xf3f2ff; 0xf8f6ff; 0xfef9ff; 0xfff9fb; 0xfff7f5; 0xfff5ef; 0xfff3ea;
    0xfff1e5; 0xffefe0; 0xffeddb; 0xffebd6; 0xffe8ce; 0xffe6ca; 0xffe5c6;
    0xffe3c3; 0xffe2bf; 0xffe0bb; 0xffdfb8; 0xffddb4; 0xffdbb0; 0xffdaad;
    0xffd8a9; 0xffd6a5; 0xffd29c; 0xffd096; 0xffcc8f; 0xffc885; 0xffc178;
    0xffb765; 0xffa94b; 0xff9523; 0xff7b00; 0xff5200 ].

Definition minIdx : float := SFopp Binary32.f0_4.   (* -0.4F *)
Definition maxIdx : float := Binary32.f2_0.          (* 2.0F *)
Definition step : float := Binary32.f0_05.           (* 0.05F *)

(** [std::min(maxIdx, std::max(minIdx, it->mBMagnitude - it->mVMagnitude))] *)
Definition bvIndex (s : Star) : float :=
  Binary32.std_min maxIdx
    (Binary32.std_max minIdx (Binary32.sub (mBMagnitude s) (mVMagnitude s))).

(** [(bvIndex - minIdx) / (maxIdx - minIdx) / step + 0.5F] *)
Definition normalizedIndexOf (bv : float) : float :=
  Binary32.add
    (Binary32.div
       (Binary32.div (Binary32.sub bv minIdx) (Binary32.sub maxIdx minIdx))
       step)
    Binary32.f0_5.

Definition normalizedIndex (s : Star) : float := normalizedIndexOf (bvIndex s).

(** [mSpectralColors[static_cast<int>(normalizedIndex)]] *)
Definition spectralColor (table : list VistaColor) (s : Star) : Outcome VistaColor :=
  match Binary32.to_int (normalizedIndex s) with
  | Some i => lift (subscript table i)
  | None => Undefined (FloatToInt (normalizedIndex s))
  end.

(** [float fDist = 100000.F; if (it->mParallax > 0.F) fDist = 1000.F / it->mParallax;] *)
Definition distance (s : Star) : float :=
  if Binary32.ltb Binary32.zero (mParallax s)
  then Binary32.div Binary32.f1000 (mParallax s)
  else Binary32.f100000.

(* ================================================================== *)
(** * The vertex buffer of [buildStarVAO] *)
(* ================================================================== *)

(** [const int iElementCount(7);] *)
Definition iElementCount : Z := 7.

(** The largest value of an [int]. *)
Definition INT_MAX : Z := 2 ^ 31 - 1.

(** [c += iElementCount] on [int c]: a sum above [INT_MAX] overflows. *)
Definition advance (c : Z) : Outcome Z :=
  let c' := c + iElementCount in
  if c' <=? INT_MAX then Returns c' else Undefined (SignedOverflow c').

(** [data[c] = ...; data[c + 1] = ...; ...; data[c + 6] = ...;] on the
    vector [std::vector<float> data(iElementCount * mStars.size())], kept
    as one entry per block of seven floats; [c] starts at 0 and advances by
    seven, so it always points to the start of a block. *)
Definition writeBlock {A : Type} (data : list A) (c : Z) (v : A) : Outcome (list A) :=
  if (0 <=? c) && (c + 6 <? iElementCount * Z.of_nat (List.length data)) then
    let k := Z.to_nat (c / iElementCount) in
    Returns (firstn k data ++ v :: skipn (S k) data)
  else Undefined (IndexOutOfRange c (Z.to_nat iElementCount * List.length data)).

(* ================================================================== *)
(** * The revision with the Gaia catalog ([src/src/Shaders.cpp],
      [src/src/Stars.hpp]) *)
(* ================================================================== *)

Module StarsGaia.

(** [enum class CatalogType { eHipparcos = 0, eTycho, eTycho2, eGaia, eCount }] *)
Inductive CatalogType : Type := eHipparcos | eTycho | eTycho2 | eGaia.

Definition enumCast (t : CatalogType) : Z :=
  match t with
  | eHipparcos => 0 | eTycho => 1 | eTycho2 => 2 | eGaia => 3
  end.

Definition eqb (a b : CatalogType) : bool := enumCast a =? enumCast b.

(** [Stars::cColumnMapping]: one row per catalog, one entry per
    [CatalogColumn]. *)
Definition cColumnMapping : list (list Z) :=
  [ [34; 32; 11; 8; 9; 31];     (* CatalogType::eHipparcos *)
    [34; 32; 11; 8; 9; 31];     (* CatalogType::eTycho *)
    [19; 17; -1; 2; 3; 23];     (* CatalogType::eTycho2 *)
    [50; 55; 9; 5; 7; -1] ].    (* CatalogType::eGaia *)

Definition mappingRow (t : CatalogType) : list Z :=
  nth (Z.to_nat (enumCast t)) cColumnMapping [].

(** [std::map<CatalogType, std::string>]: [m t] is the file name stored
    under key [t], if any. *)
Definition Catalogs : Type := CatalogType -> option string.

Definition contains (m : Catalogs) (t : CatalogType) : bool :=
  match m t with Some _ => true | None => false end.

(** The keys of the map in iteration order. *)
Definition keys (m : Catalogs) : list CatalogType :=
  filter (contains m) [eHipparcos; eTycho; eTycho2; eGaia].

Definition size (m : Catalogs) : nat := List.length (keys m).

Record Stars : Type := {
  mCatalogs : Catalogs;
  mStars : list Star;
  mSpectralColors : list VistaColor;
  mLoadedMinMagnitude : float;
  mLoadedMaxMagnitude : float
}.

(** The state the constructor [Stars(mCatalogs, ...)] hands to [init]. *)
Definition constructed (catalogs : Catalogs) : Stars :=
  {| mCatalogs := catalogs;
     mStars := [];
     mSpectralColors := [];
     mLoadedMinMagnitude := Binary32.numeric_limits_max;
     mLoadedMaxMagnitude := Binary32.numeric_limits_min |}.

Definition setStars (st : Stars) (stars : list Star) : Stars :=
  {| mCatalogs := mCatalogs st;
     mStars := stars;
     mSpectralColors := mSpectralColors st;
     mLoadedMinMagnitude := mLoadedMinMagnitude st;
     mLoadedMaxMagnitude := mLoadedMaxMagnitude st |}.

(** [catalogs += (uint32_t)std::pow(2, (int)it->first)] over the map. *)
Definition catalogBits (m : Catalogs) : Z :=
  fold_left (fun acc t => to_uint32 (acc + to_uint32 (2 ^ enumCast t))) (keys m) 0.

(** [Star star; deserializer.ReadFloat32(star.mVMagnitude); ...;
    mStars.emplace_back(star);] The star has no initialiser in this
    revision: a member whose read finds fewer than four bytes keeps no
    value, and [emplace_back] copies it. *)
Definition readStar (buffer : list Byte.byte) : Outcome (Star * list Byte.byte) :=
  if (List.length buffer <? 20)%nat then Undefined IndeterminateValue
  else Returns (readStar buffer).

(** [for (unsigned int num = 0; num < numStars; ++num)] *)
Fixpoint readStars (numStars : nat) (buffer : list Byte.byte) (stars : list Star)
  : Outcome (list Star) :=
  match numStars with
  | O => Returns stars
  | S n => r <-- readStar buffer ;; readStars n (snd r) (stars ++ [fst r])
  end.

(** The part of [readStarCache] that follows a successful [file.open]. *)
Definition deserializeCache (catalogsToLoad : Z) (file : list Byte.byte)
  (stars : list Star) : Outcome (bool * list Star) :=
  let size := to_int32 (Z.of_nat (List.length file)) in
  if size <? 0 then Throws "std::length_error"
  else if size =? 0 then Undefined (IndexOutOfRange 0 0)
  else
    let data := firstn (Z.to_nat size) file in
    let '(cacheVersion, catalogs, numStars, rest) := headerOf data in
    if negb (cacheVersion =? to_uint32 cCacheVersion) then Returns (false, stars)
    else if negb (catalogs =? catalogsToLoad) then Returns (false, stars)
    else
      all <-- readStars (Z.to_nat numStars) rest stars ;;
      Returns (true, all).

Section WithStreams.

Context {SE : StreamExtraction}.

(** [char delim = (eType == CatalogType::eGaia) ? ',' : '|';] *)
Definition delimiter (eType : CatalogType) : ascii :=
  if eqb eType eGaia then ","%char else "|"%char.

(** One line of a catalog of type [eType], as the loop body treats it. *)
Definition catalogLine (m : Catalogs) (eType : CatalogType) (line : string)
  : Access LineResult :=
  parseLine (mappingRow eType) (negb (eqb eType eHipparcos)) (contains m eHipparcos)
            (tokenize (delimiter eType) line).

Definition readStarsFromCatalog (eType : CatalogType) (sFilename : string)
  (w : World) (st : Stars) : Outcome (bool * World * Stars) :=
  match catalogFile w sFilename with
  | Some lines =>
      stars <-- lift (readLines (mappingRow eType) (delimiter eType)
                        (negb (eqb eType eHipparcos))
                        (contains (mCatalogs st) eHipparcos)
                        lines (mStars st)) ;;
      Returns (true, w, setStars st stars)
  | None =>
      Returns (false, say Error "Failed to open catalog file {}!" w, st)
  end.

Definition writeStarCache (sCacheFile : string) (w : World) (st : Stars) : World :=
  let buffer := serializeCache (catalogBits (mCatalogs st)) (mStars st) in
  if writable w sCacheFile then store sCacheFile buffer w
  else say Error "Failed to open file {} for writing binary star data!" w.

Definition readStarCache (sCacheFile : string) (w : World) (st : Stars)
  : Outcome (bool * Stars) :=
  match cacheFile w sCacheFile with
  | Some file =>
      r <-- deserializeCache (catalogBits (mCatalogs st)) file (mStars st) ;;
      Returns (fst r, setStars st (snd r))
  | None => Returns (false, st)
  end.

(** A call of [readStarsFromCatalog] whose result is dropped. *)
Definition readCatalog (eType : CatalogType) (sFilename : string)
  (ws : World * Stars) : Outcome (World * Stars) :=
  r <-- readStarsFromCatalog eType sFilename (fst ws) (snd ws) ;;
  Returns (snd (fst r), snd r).

(** The block [// read star catalog] of [init]. *)
Definition loadStars (sCacheFile : string) (w : World) (st : Stars)
  : Outcome (World * Stars) :=
  hit <-- readStarCache sCacheFile w st ;;
  if fst hit then Returns (w, snd hit)
  else
    let st := snd hit in
    let m := mCatalogs st in
    ws <-- match m eGaia with
           | Some file =>
               ws <-- readCatalog eGaia file (w, st) ;;
               if (1 <? size m)%nat
               then Returns
                      (say Error
                         "Failed to load star catalogs: Gaia cannot be combined with other catalogues!"
                         (fst ws), snd ws)
               else Returns ws
           | None =>
               ws <-- match m eHipparcos with
                      | Some file => readCatalog eHipparcos file (w, st)
                      | None => Returns (w, st)
                      end ;;
               ws <-- match m eTycho with
                      | Some file => readCatalog eTycho file ws
                      | None => Returns ws
                      end ;;
               match m eTycho2 with
               | Some file =>
                   if negb (contains m eTycho) then readCatalog eTycho2 file ws
                   else Returns
                          (say Error "Failed to load Tycho2 catalog: Tycho already loaded!"
                             (fst ws), snd ws)
               | None => Returns ws
               end
           end ;;
    match mStars (snd ws) with
    | [] => Returns (say Warn "Loaded no stars. Stars will not work properly." (fst ws),
                     snd ws)
    | _ :: _ => Returns (writeStarCache sCacheFile (fst ws) (snd ws), snd ws)
    end.

End WithStreams.

(** The seven floats [buildStarVAO] stores for one star; the three colour
    components are kept as the table entry they come from. *)
Record Vertex : Type := {
  vDeclination : float;
  vAscension : float;
  vDistance : float;
  vColor : VistaColor;
  vMagnitude : float
}.

(** A block of seven floats as the constructor of [data] leaves it. *)
Definition blank : Vertex :=
  {| vDeclination := Binary32.zero;
     vAscension := Binary32.zero;
     vDistance := Binary32.zero;
     vColor := 0;
     vMagnitude := Binary32.zero |}.

(** One iteration of the loop of [buildStarVAO], with [c] the position in
    [data]. *)
Definition buildStep (acc : Stars * list Vertex) (c : Z) (s : Star)
  : Outcome (Stars * list Vertex) :=
  let st := fst acc in
  color <-- spectralColor (mSpectralColors st) s ;;
  data <-- writeBlock (snd acc) c
             {| vDeclination := mDeclination s;
                vAscension := mAscension s;
                vDistance := distance s;
                vColor := color;
                vMagnitude := mVMagnitude s |} ;;
  Returns
    ({| mCatalogs := mCatalogs st;
        mStars := mStars st;
        mSpectralColors := mSpectralColors st;
        mLoadedMinMagnitude := Binary32.std_min (mLoadedMinMagnitude st) (mVMagnitude s);
        mLoadedMaxMagnitude := Binary32.std_max (mLoadedMaxMagnitude st) (mVMagnitude s) |},
     data).

(** [for (auto it = mStars.begin(); it != mStars.end(); ++it, c += iElementCount)] *)
Fixpoint buildLoop (stars : list Star) (c : Z) (acc : Stars * list Vertex)
  : Outcome (Stars * list Vertex) :=
  match stars with
  | [] => Returns acc
  | s :: rest =>
      acc' <-- buildStep acc c s ;;
      c' <-- advance c ;;
      buildLoop rest c' acc'
  end.

Definition buildStarVAO (st : Stars) : Outcome (Stars * list Vertex) :=
  buildLoop (mStars st) 0 (st, repeat blank (List.length (mStars st))).

Section WithStreamsInit.

Context {SE : StreamExtraction}.

(** [Stars::init]: fill the colour table, load the stars, build the vertex
    data. *)
Definition init (sCacheFile : string) (w : World) (st : Stars)
  : Outcome (World * Stars * list Vertex) :=
  let st := {| mCatalogs := mCatalogs st;
               mStars := mStars st;
               mSpectralColors := mSpectralColors st ++ spectralColors;
               mLoadedMinMagnitude := mLoadedMinMagnitude st;
               mLoadedMaxMagnitude := mLoadedMaxMagnitude st |} in
  ws <-- loadStars sCacheFile w st ;;
  r <-- buildStarVAO (snd ws) ;;
  Returns (fst ws, fst r, snd r).

End WithStreamsInit.

End StarsGaia.

(* ================================================================== *)
(** * The revision with draw modes and HDR ([src/unnamed/part_003],
      [src/unnamed/part_005]) *)
(* ================================================================== *)

(** [std::log10] on [float], a function of the C library. *)
Class MathLibrary := log10 : float -> float.

Module StarsHDR.

(** [enum class CatalogType { eHipparcos = 0, eTycho, eTycho2, eCount }] *)
Inductive CatalogType : Type := eHipparcos | eTycho | eTycho2.

Definition enumCast (t : CatalogType) : Z :=
  match t with
  | eHipparcos => 0 | eTycho => 1 | eTycho2 => 2
  end.

Definition eqb (a b : CatalogType) : bool := enumCast a =? enumCast b.

Definition cColumnMapping : list (list Z) :=
  [ [34; 32; 11; 8; 9; 31];     (* CatalogType::eHipparcos *)
    [34; 32; 11; 8; 9; 31];     (* CatalogType::eTycho *)
    [19; 17; -1; 2; 3; 23] ].   (* CatalogType::eTycho2 *)

Definition mappingRow (t : CatalogType) : list Z :=
  nth (Z.to_nat (enumCast t)) cColumnMapping [].

Definition Catalogs : Type := CatalogType -> option string.

Definition contains (m : Catalogs) (t : CatalogType) : bool :=
  match m t with Some _ => true | None => false end.

Definition keys (m : Catalogs) : list CatalogType :=
  filter (contains m) [eHipparcos; eTycho; eTycho2].

(** [enum DrawMode { ePoint, eSmoothPoint, eDisc, eSmoothDisc, eSprite }] *)
Inductive DrawMode : Type := ePoint | eSmoothPoint | eDisc | eSmoothDisc | eSprite.

Definition DrawMode_eqb (a b : DrawMode) : bool :=
  match a, b with
  | ePoint, ePoint | eSmoothPoint, eSmoothPoint | eDisc, eDisc
  | eSmoothDisc, eSmoothDisc | eSprite, eSprite => true
  | _, _ => false
  end.

(** The GLSL source constants of the class. *)
Inductive ShaderSource : Type :=
| cStarsSnippets | cStarsVertOnePixel | cStarsFragOnePixel
| cStarsVert | cStarsFrag | cStarsGeom | cBackgroundVert | cBackgroundFrag.

(** A shader stage source [defines + c1 + c2]: the lines of [defines] and
    the constants appended to them. *)
Definition StageSource : Type := (list string * list ShaderSource)%type.

(** A [VistaGLSLShader]: the sources given to its stages, and whether
    [Link()] ran. *)
Record VistaGLSLShader : Type := {
  vertexStage : option StageSource;
  geometryStage : option StageSource;
  fragmentStage : option StageSource;
  linked : bool
}.

Definition newShader : VistaGLSLShader :=
  {| vertexStage := None; geometryStage := None; fragmentStage := None;
     linked := false |}.

Record Stars : Type := {
  mCatalogs : Catalogs;
  mStars : list Star;
  mSpectralColors : list VistaColor;
  mStarShader : VistaGLSLShader;
  mBackgroundShader : VistaGLSLShader;
  mDrawMode : DrawMode;
  mShaderDirty : bool;
  mEnableHDR : bool;
  (* ghost: how often [mStarShader.Link()] has run *)
  compilations : nat
}.

(** The member initialisers of the class. *)
Definition constructed (catalogs : Catalogs) : Stars :=
  {| mCatalogs := catalogs;
     mStars := [];
     mSpectralColors := [];
     mStarShader := newShader;
     mBackgroundShader := newShader;
     mDrawMode := eSmoothDisc;
     mShaderDirty := true;
     mEnableHDR := true;
     compilations := 0 |}.

Definition setDrawMode (value : DrawMode) (st : Stars) : Stars :=
  if negb (DrawMode_eqb (mDrawMode st) value) then
    {| mCatalogs := mCatalogs st;
       mStars := mStars st;
       mSpectralColors := mSpectralColors st;
       mStarShader := mStarShader st;
       mBackgroundShader := mBackgroundShader st;
       mDrawMode := value;
       mShaderDirty := true;
       mEnableHDR := mEnableHDR st;
       compilations := compilations st |}
  else st.

Definition setEnableHDR (value : bool) (st : Stars) : Stars :=
  if negb (Bool.eqb (mEnableHDR st) value) then
    {| mCatalogs := mCatalogs st;
       mStars := mStars st;
       mSpectralColors := mSpectralColors st;
       mStarShader := mStarShader st;
       mBackgroundShader := mBackgroundShader st;
       mDrawMode := mDrawMode st;
       mShaderDirty := true;
       mEnableHDR := value;
       compilations := compilations st |}
  else st.

(** [std::string defines] as [Do] builds it, one entry per line. *)
Definition definesOf (st : Stars) : list string :=
  ["#version 330"%string]
  ++ (if mEnableHDR st then ["#define ENABLE_HDR"%string] else [])
  ++ match mDrawMode st with
     | eSmoothPoint => ["#define DRAWMODE_SMOOTH_POINT"%string]
     | ePoint => ["#define DRAWMODE_POINT"%string]
     | eDisc => ["#define DRAWMODE_DISC"%string]
     | eSmoothDisc => ["#define DRAWMODE_SMOOTH_DISC"%string]
     | eSprite => ["#define DRAWMODE_SPRITE"%string]
     end.

Definition isPointMode (m : DrawMode) : bool :=
  DrawMode_eqb m ePoint || DrawMode_eqb m eSmoothPoint.

(** The block [if (mShaderDirty) { ... }] of [Do]. *)
Definition Do (st : Stars) : Stars :=
  if mShaderDirty st then
    let defines := definesOf st in
    {| mCatalogs := mCatalogs st;
       mStars := mStars st;
       mSpectralColors := mSpectralColors st;
       mStarShader :=
         if isPointMode (mDrawMode st) then
           {| vertexStage := Some (defines, [cStarsSnippets; cStarsVertOnePixel]);
              geometryStage := None;
              fragmentStage := Some (defines, [cStarsSnippets; cStarsFragOnePixel]);
              linked := true |}
         else
           {| vertexStage := Some (defines, [cStarsSnippets; cStarsVert]);
              geometryStage := Some (defines, [cStarsSnippets; cStarsGeom]);
              fragmentStage := Some (defines, [cStarsSnippets; cStarsFrag]);
              linked := true |};
       mBackgroundShader :=
         {| vertexStage := Some (defines, [cBackgroundVert]);
            geometryStage := None;
            fragmentStage := Some (defines, [cBackgroundFrag]);
            linked := true |};
       mDrawMode := mDrawMode st;
       mShaderDirty := false;
       mEnableHDR := mEnableHDR st;
       compilations := S (compilations st) |}
  else st.

Definition setStars (st : Stars) (stars : list Star) : Stars :=
  {| mCatalogs := mCatalogs st;
     mStars := stars;
     mSpectralColors := mSpectralColors st;
     mStarShader := mStarShader st;
     mBackgroundShader := mBackgroundShader st;
     mDrawMode := mDrawMode st;
     mShaderDirty := mShaderDirty st;
     mEnableHDR := mEnableHDR st;
     compilations := compilations st |}.

Definition catalogBits (m : Catalogs) : Z :=
  fold_left (fun acc t => to_uint32 (acc + to_uint32 (2 ^ enumCast t))) (keys m) 0.

Section WithStreams.

Context {SE : StreamExtraction}.

Definition catalogLine (m : Catalogs) (type : CatalogType) (line : string)
  : Access LineResult :=
  parseLine (mappingRow type) (negb (eqb type eHipparcos)) (contains m eHipparcos)
            (tokenize "|"%char line).

Definition readStarsFromCatalog (type : CatalogType) (filename : string)
  (w : World) (st : Stars) : Outcome (bool * World * Stars) :=
  match catalogFile w filename with
  | Some lines =>
      stars <-- lift (readLines (mappingRow type) "|"%char
                        (negb (eqb type eHipparcos))
                        (contains (mCatalogs st) eHipparcos)
                        lines (mStars st)) ;;
      Returns (true, w, setStars st stars)
  | None =>
      Returns (false,
               say Error "Failed to load stars: Cannot open catalog file '{}'!" w, st)
  end.

Definition writeStarCache (sCacheFile : string) (w : World) (st : Stars) : World :=
  let buffer := serializeCache (catalogBits (mCatalogs st)) (mStars st) in
  if writable w sCacheFile then store sCacheFile buffer w
  else say Error
         "Failed to write binary star data: Cannot open file '{}' for writing!" w.

Definition readStarCache (sCacheFile : string) (w : World) (st : Stars)
  : Outcome (bool * Stars) :=
  match cacheFile w sCacheFile with
  | Some file =>
      r <-- deserializeCache (catalogBits (mCatalogs st)) file (mStars st) ;;
      Returns (fst r, setStars st (snd r))
  | None => Returns (false, st)
  end.

Definition readCatalog (type : CatalogType) (filename : string)
  (ws : World * Stars) : Outcome (World * Stars) :=
  r <-- readStarsFromCatalog type filename (fst ws) (snd ws) ;;
  Returns (snd (fst r), snd r).

(** The block [// read star catalog] of [init]. *)
Definition loadStars (sCacheFile : string) (w : World) (st : Stars)
  : Outcome (World * Stars) :=
  hit <-- readStarCache sCacheFile w st ;;
  if fst hit then Returns (w, snd hit)
  else
    let st := snd hit in
    let m := mCatalogs st in
    ws <-- match m eHipparcos with
           | Some file => readCatalog eHipparcos file (w, st)
           | None => Returns (w, st)
           end ;;
    ws <-- match m eTycho with
           | Some file => readCatalog eTycho file ws
           | None => Returns ws
           end ;;
    ws <-- match m eTycho2 with
           | Some file =>
               if negb (contains m eTycho) then readCatalog eTycho2 file ws
               else Returns
                      (say Warn "Failed to load Tycho2 catalog: Tycho already loaded!"
                         (fst ws), snd ws)
           | None => Returns ws
           end ;;
    match mStars (snd ws) with
    | [] => Returns (say Warn "Loaded no stars! Stars will not work properly." (fst ws),
                     snd ws)
    | _ :: _ => Returns (writeStarCache sCacheFile (fst ws) (snd ws), snd ws)
    end.

End WithStreams.

(** The seven floats [buildStarVAO] stores for one star; the three colour
    components are kept as the table entry they come from. *)
Record Vertex : Type := {
  vDeclination : float;
  vAscension : float;
  vDistance : float;
  vColor : VistaColor;
  vAbsMagnitude : float
}.

(** A block of seven floats as the constructor of [data] leaves it. *)
Definition blank : Vertex :=
  {| vDeclination := Binary32.zero;
     vAscension := Binary32.zero;
     vDistance := Binary32.zero;
     vColor := 0;
     vAbsMagnitude := Binary32.zero |}.

Section WithMath.

Context {ML : MathLibrary}.

(** The seven floats of one star; the last is
    [it->mVMagnitude - 5.F * std::log10(fDist / 10.F)]. *)
Definition vertexOf (color : VistaColor) (s : Star) : Vertex :=
  {| vDeclination := mDeclination s;
     vAscension := mAscension s;
     vDistance := distance s;
     vColor := color;
     vAbsMagnitude :=
       Binary32.sub (mVMagnitude s)
         (Binary32.mul Binary32.f5
            (log10 (Binary32.div (distance s) Binary32.f10))) |}.

(** One iteration of the loop of [buildStarVAO], with [c] the position in
    [data]. *)
Definition buildStep (table : list VistaColor) (data : list Vertex) (c : Z) (s : Star)
  : Outcome (list Vertex) :=
  color <-- spectralColor table s ;;
  writeBlock data c (vertexOf color s).

(** [for (auto it = mStars.begin(); it != mStars.end(); ++it, c += iElementCount)] *)
Fixpoint buildLoop (table : list VistaColor) (stars : list Star) (c : Z)
  (data : list Vertex) : Outcome (list Vertex) :=
  match stars with
  | [] => Returns data
  | s :: rest =>
      data' <-- buildStep table data c s ;;
      c' <-- advance c ;;
      buildLoop table rest c' data'
  end.

Definition buildStarVAO (st : Stars) : Outcome (list Vertex) :=
  buildLoop (mSpectralColors st) (mStars st) 0
    (repeat blank (List.length (mStars st))).

End WithMath.

End StarsHDR.

(* ================================================================== *)
(** * A sample stream extraction *)
(* ================================================================== *)

(** The examples below need tokens that parse.  [PlainDecimal] reads what
    [operator>>] reads on plain decimal tokens: leading blanks, an optional
    sign, digits, and for [float] an optional fraction, with nothing but
    blanks after it; an [int] must fit 32 bits.  On every other token it
    answers [None].  The general theorems do not depend on it. *)
Module PlainDecimal.

Definition digit (c : ascii) : option Z :=
  let n := Z.of_nat (nat_of_ascii c) in
  if (48 <=? n) && (n <=? 57) then Some (n - 48) else None.

Fixpoint skipBlanks (s : string) : string :=
  match s with
  | String c rest => if Ascii.eqb c " "%char then skipBlanks rest else s
  | EmptyString => s
  end.

(** Digits at the front of [s]: their value after [acc], how many there
    are, and what follows. *)
Fixpoint digits (s : string) (acc : Z) (n : nat) : Z * nat * string :=
  match s with
  | String c rest =>
      match digit c with
      | Some d => digits rest (10 * acc + d) (S n)
      | None => (acc, n, s)
      end
  | EmptyString => (acc, n, s)
  end.

Definition signed (s : string) : bool * string :=
  match s with
  | String c rest =>
      if Ascii.eqb c "-"%char then (true, rest)
      else if Ascii.eqb c "+"%char then (false, rest)
      else (false, s)
  | EmptyString => (false, s)
  end.

Definition int_of (s : string) : option Z :=
  let '(neg, s1) := signed (skipBlanks s) in
  let '(v, n, _) := digits s1 0 0%nat in
  let v := if neg then - v else v in
  match n with
  | O => None
  | S _ => if (- 2 ^ 31 <=? v) && (v <? 2 ^ 31) then Some v else None
  end.

Definition float_of (s : string) : option float :=
  let '(neg, s1) := signed (skipBlanks s) in
  let '(ip, n1, s2) := digits s1 0 0%nat in
  let '(m, n2, s3) :=
    match s2 with
    | String c rest =>
        if Ascii.eqb c "."%char then digits rest ip 0%nat else (ip, 0%nat, s2)
    | EmptyString => (ip, 0%nat, s2)
    end in
  match (n1 + n2)%nat, skipBlanks s3 with
  | S _, EmptyString =>
      Some match m with
           | Zpos p => Binary32.of_decimal neg p n2
           | _ => S754_zero neg
           end
  | _, _ => None
  end.

#[local] Instance extraction : StreamExtraction :=
  {| extract_float := float_of; extract_int := int_of |}.

End PlainDecimal.


(* ================================================================== *)
(** * The value of a binary32 number *)
(* ================================================================== *)

(** [bpow e] is 2^e and [F2R m e] is m * 2^e, as real numbers. *)
Definition bpow (e : Z) : R := powerRZ 2 e.

Definition F2R (m e : Z) : R := (IZR m * bpow e)%R.

(** The value of a finite float; 0 for the other ones. *)
Definition val (x : spec_float) : R :=
  match x with
  | S754_finite s m e => if s then (- F2R (Zpos m) e)%R else F2R (Zpos m) e
  | _ => 0%R
  end.

(** A shifted mantissa has lost a non-zero bit. *)
Definition inexact (mrs : shr_record) : bool := shr_r mrs || shr_s mrs.

(** A bound [k * 2^g] that binary32 represents: at most 24 bits, exponent
    at least -149. *)
Definition representable (k g : Z) : Prop :=
  0 < k /\ Zdigits2 k <= 24 /\ -149 <= g.

(** A float that is finite, of sign [sx], with a mantissa of at most 24
    bits, and of magnitude at most [U]. *)
Definition finite_below (sx : bool) (U : R) (x : spec_float) : Prop :=
  x = S754_zero sx
  \/ exists m e, x = S754_finite sx m e /\ (F2R (Zpos m) e <= U)%R /\ Zpos m < 2 ^ 24.

(* ================================================================== *)
(** * Sample inputs *)
(* ================================================================== *)

Module Samples.

(** No catalog, no cache; every file can be created. *)
Definition noFiles : World :=
  {| contents := fun _ => None;
     writable := fun _ => true;
     logged := [] |}.

(** The end of a line in a text file. *)
Definition newline : string := String (ascii_of_byte Byte.x0a) EmptyString.

(** The text file [name] holding [lines], a newline between two of them. *)
Definition withCatalog (name : string) (lines : list string) (w : World) : World :=
  store name (list_byte_of_string (String.concat newline lines)) w.

(** Sirius: V = -1.44, B = -1.43, parallax 379.21 mas, coordinates already
    in radians. *)
Definition sirius : Star :=
  {| mVMagnitude := Binary32.of_decimal true 144 2;
     mBMagnitude := Binary32.of_decimal true 143 2;
     mAscension := Binary32.of_decimal false 6086 3;
     mDeclination := Binary32.of_decimal true 2918 4;
     mParallax := Binary32.of_decimal false 37921 2 |}.

(** A star of magnitude 5 with B - V = 0.65 at 10 parsec. *)
Definition sunlike : Star :=
  {| mVMagnitude := Binary32.of_Z 5;
     mBMagnitude := Binary32.of_decimal false 565 2;
     mAscension := normalizeAscension (Binary32.of_Z 90);
     mDeclination := normalizeDeclination Binary32.zero;
     mParallax := Binary32.of_Z 100 |}.

(** A line of [n] fields, [x] everywhere but at the given positions. *)
Definition fields (n : nat) (assign : list (nat * string)) : list string :=
  map (fun i => match find (fun p => Nat.eqb (fst p) i) assign with
                | Some p => snd p
                | None => "x"%string
                end)
      (seq 0 n).

(** A Hipparcos line: magnitude 5.0, blue magnitude 5.65, ascension 90,
    declination 0, parallax 100 mas, Hipparcos number 1234. *)
Definition hipparcosLine : string :=
  String.concat "|"
    (fields 35 [(8, "90.0"); (9, "0.0"); (11, "100"); (31, "1234");
                (32, "5.65"); (34, "5.0")]%nat%string).

(** The line of the same star in the Tycho catalog; it carries the
    Hipparcos number. *)
Definition tychoLineInHipparcos : string :=
  String.concat "|"
    (fields 35 [(8, "90.0"); (9, "0.0"); (11, "100"); (31, "1234");
                (32, "5.65"); (34, "5.0")]%nat%string).

(** A Tycho line of a star that is not in Hipparcos: the cross reference
    is blank. *)
Definition tychoLineAlone : string :=
  String.concat "|"
    (fields 35 [(8, "45.0"); (9, "10.0"); (11, "8"); (31, "      ");
                (32, "9.5"); (34, "9.0")]%nat%string).

(** The Hipparcos line of Sirius (HIP 32349), visual magnitude -1.44. *)
Definition siriusLine : string :=
  String.concat "|"
    (fields 35 [(8, "101.287"); (9, "-16.716"); (11, "379.21"); (31, "32349");
                (32, "-1.43"); (34, "-1.44")]%nat%string).

(** A star with B - V = 2.0 and one with B - V = -0.4. *)
Definition reddest : Star :=
  {| mVMagnitude := Binary32.zero;
     mBMagnitude := Binary32.f2_0;
     mAscension := Binary32.zero;
     mDeclination := Binary32.zero;
     mParallax := Binary32.zero |}.

Definition bluest : Star :=
  {| mVMagnitude := Binary32.zero;
     mBMagnitude := SFopp Binary32.f0_4;
     mAscension := Binary32.zero;
     mDeclination := Binary32.zero;
     mParallax := Binary32.zero |}.

(** Thirteen fields: more than 12, fewer than the columns of Hipparcos. *)
Definition thirteenFields : string := String.concat "|" (fields 13 []).

(** A Gaia line of 56 comma separated fields. *)
Definition gaiaLine : string :=
  String.concat ","
    (fields 56 [(5, "90.0"); (7, "0.0"); (9, "100"); (50, "5.0");
                (55, "5.65")]%nat%string).

Definition hipparcosAndTycho : StarsHDR.Catalogs :=
  fun t => match t with
           | StarsHDR.eHipparcos => Some "hip_main.dat"%string
           | StarsHDR.eTycho => Some "tyc_main.dat"%string
           | StarsHDR.eTycho2 => None
           end.

Definition hipparcosOnly : StarsHDR.Catalogs :=
  fun t => match t with
           | StarsHDR.eHipparcos => Some "hip_main.dat"%string
           | _ => None
           end.

Definition hipparcosAlone : StarsGaia.Catalogs :=
  fun t => match t with
           | StarsGaia.eHipparcos => Some "hip_main.dat"%string
           | _ => None
           end.

Definition gaiaAndTycho : StarsGaia.Catalogs :=
  fun t => match t with
           | StarsGaia.eGaia => Some "gaia.csv"%string
           | StarsGaia.eTycho => Some "tyc_main.dat"%string
           | _ => None
           end.

Definition gaiaAndHipparcos : StarsGaia.Catalogs :=
  fun t => match t with
           | StarsGaia.eGaia => Some "gaia.csv"%string
           | StarsGaia.eHipparcos => Some "hip_main.dat"%string
           | _ => None
           end.

End Samples.

(* ================================================================== *)
(** * Vocabulary for the line tokenizer *)
(* ================================================================== *)

(** How often the character [c] occurs in [s]. *)
Fixpoint occurrences (c : ascii) (s : string) : nat :=
  match s with
  | EmptyString => 0%nat
  | String x rest => ((if Ascii.eqb x c then 1 else 0) + occurrences c rest)%nat
  end.

(** Whether the last character of [s] is [c]. *)
Fixpoint endsWith (c : ascii) (s : string) : bool :=
  match s with
  | EmptyString => false
  | String x EmptyString => Ascii.eqb x c
  | String _ rest => endsWith c rest
  end.

(** The text of the delimiter, and the tokens written back with it. *)
Definition delimiterText (delim : ascii) : string := String delim EmptyString.

Definition joined (delim : ascii) (items : list string) : string :=
  String.concat (delimiterText delim) items.

(* ================================================================== *)
(** * Vocabulary for the loading of the stars *)
(* ================================================================== *)

(** What a call may do to the files: nothing to what can be written,
    nothing to a file other than [sCacheFile], be it a catalog or another
    cache; the log only grows. *)
Definition onlyCacheTouched (sCacheFile : string) (w w' : World) : Prop :=
  writable w' = writable w
  /\ (forall g, String.eqb g sCacheFile = false -> contents w' g = contents w g)
  /\ exists entries, logged w' = logged w ++ entries.

(** The stars an outcome of the loading holds. *)
Definition loadedStars (r : Outcome (World * StarsHDR.Stars)) : Outcome (list Star) :=
  ws <-- r ;; Returns (StarsHDR.mStars (snd ws)).

(** The object without its Tycho2 entry: [mCatalogs.erase(CatalogType::eTycho2)]. *)
Definition withoutTycho2 (st : StarsHDR.Stars) : StarsHDR.Stars :=
  {| StarsHDR.mCatalogs :=
       fun t => match t with
                | StarsHDR.eTycho2 => None
                | _ => StarsHDR.mCatalogs st t
                end;
     StarsHDR.mStars := StarsHDR.mStars st;
     StarsHDR.mSpectralColors := StarsHDR.mSpectralColors st;
     StarsHDR.mStarShader := StarsHDR.mStarShader st;
     StarsHDR.mBackgroundShader := StarsHDR.mBackgroundShader st;
     StarsHDR.mDrawMode := StarsHDR.mDrawMode st;
     StarsHDR.mShaderDirty := StarsHDR.mShaderDirty st;
     StarsHDR.mEnableHDR := StarsHDR.mEnableHDR st;
     StarsHDR.compilations := StarsHDR.compilations st |}.

(** Further sample inputs. *)
Module Cases.

(** A Tycho2 line: ascension 45, declination 10, blue magnitude 9.5,
    visual magnitude 9.0, no Hipparcos number. *)
Definition tycho2Line : string :=
  String.concat "|"
    (Samples.fields 24 [(2, "45.0"); (3, "10.0"); (17, "9.5"); (19, "9.0");
                        (23, "      ")]%nat%string).

Definition tycho2Only : StarsHDR.Catalogs :=
  fun t => match t with
           | StarsHDR.eTycho2 => Some "tyc2.dat"%string
           | _ => None
           end.

Definition tychoAndTycho2 : StarsHDR.Catalogs :=
  fun t => match t with
           | StarsHDR.eHipparcos => None
           | StarsHDR.eTycho => Some "tyc_main.dat"%string
           | StarsHDR.eTycho2 => Some "tyc2.dat"%string
           end.

(** The Hipparcos line of the sample star (Hipparcos number 1234) with a
    blank visual magnitude. *)
Definition hipparcosLineWithoutMagnitude : string :=
  String.concat "|"
    (Samples.fields 35 [(8, "90.0"); (9, "0.0"); (11, "100"); (31, "1234");
                        (32, "5.65"); (34, "     ")]%nat%string).

(** The record of [Samples.tychoLineAlone]. *)
Definition tychoAlone : Star :=
  {| mVMagnitude := Binary32.of_Z 9;
     mBMagnitude := Binary32.of_decimal false 95 1;
     mAscension := radians (Binary32.of_Z 405);
     mDeclination := radians (Binary32.of_Z 10);
     mParallax := Binary32.of_Z 8 |}.

(** A Tycho file: a star that is not in Hipparcos, a star that is, and a
    line of two fields. *)
Definition tychoFile : list string :=
  [Samples.tychoLineAlone; Samples.tychoLineInHipparcos; "x|x"%string].

Definition tychoWorld : World :=
  Samples.withCatalog "tyc_main.dat" tychoFile Samples.noFiles.

(** Both catalogs of the sample star, and the Tycho file above. *)
Definition bothWorld : World :=
  Samples.withCatalog "hip_main.dat" [Samples.hipparcosLine] tychoWorld.

(** The sample star in both catalogs, and nothing else. *)
Definition duplicateWorld : World :=
  Samples.withCatalog "hip_main.dat" [Samples.hipparcosLine]
    (Samples.withCatalog "tyc_main.dat" [Samples.tychoLineInHipparcos]
       Samples.noFiles).

(** The same with the blank magnitude in the Hipparcos line. *)
Definition blankWorld : World :=
  Samples.withCatalog "hip_main.dat" [hipparcosLineWithoutMagnitude]
    (Samples.withCatalog "tyc_main.dat" [Samples.tychoLineInHipparcos]
       Samples.noFiles).

(** The Gaia file of one line beside a Tycho file, and beside a Hipparcos
    file. *)
Definition gaiaAndTychoWorld : World :=
  Samples.withCatalog "gaia.csv" [Samples.gaiaLine]
    (Samples.withCatalog "tyc_main.dat" [Samples.tychoLineAlone] Samples.noFiles).

Definition gaiaAndHipparcosWorld : World :=
  Samples.withCatalog "gaia.csv" [Samples.gaiaLine]
    (Samples.withCatalog "hip_main.dat" [Samples.hipparcosLine] Samples.noFiles).

(** A Gaia line of eight fields. *)
Definition shortGaiaLine : string := String.concat "," (Samples.fields 8 []).


(** A cache file cut after its header: the version word 3, the catalog
    word of Hipparcos alone, one star announced, none there. *)
Definition truncatedCache : list Byte.byte := encode32 3 ++ encode32 1 ++ encode32 1.

(** A star of zeros, what [Star star{}] starts from. *)
Definition zeroStar : Star :=
  {| mVMagnitude := Binary32.zero;
     mBMagnitude := Binary32.zero;
     mAscension := Binary32.zero;
     mDeclination := Binary32.zero;
     mParallax := Binary32.zero |}.

(** A cache file of 2^31 bytes: the version word 2, the catalog word 1, no
    stars, and zeros. *)
Definition oversizedCache : list Byte.byte :=
  encode32 2 ++ encode32 1 ++ encode32 0 ++ repeat Byte.x00 (Z.to_nat (2 ^ 31 - 12)).

(** A world with the Hipparcos line of the sample star in [hip_main.dat]. *)
Definition hipparcosWorld : World :=
  Samples.withCatalog "hip_main.dat" [Samples.hipparcosLine] Samples.noFiles.

End Cases.

(** What reading a catalog may do to the files: nothing; the log only
    grows. *)
Definition onlyLogged (w w' : World) : Prop :=
  contents w' = contents w
  /\ writable w' = writable w
  /\ exists entries, logged w' = logged w ++ entries.

(** One stage of the loading seen from outside: no file is touched, and
    the object changes in its star list only, which grows at its end. *)
Definition grows (ws ws' : World * StarsHDR.Stars) : Prop :=
  onlyLogged (fst ws) (fst ws')
  /\ snd ws' = StarsHDR.setStars (snd ws) (StarsHDR.mStars (snd ws'))
  /\ exists new, StarsHDR.mStars (snd ws') = StarsHDR.mStars (snd ws) ++ new.

(* ================================================================== *)
(** * Vocabulary for the order of binary32 numbers *)
(* ================================================================== *)

(** A float that is a number: a zero or a finite value, no infinity and no
    NaN. *)
Definition is_number (x : float) : bool :=
  match x with
  | S754_zero _ | S754_finite _ _ _ => true
  | _ => false
  end.

(** A well-formed float that is a number. *)
Definition numeric (x : float) : Prop :=
  Binary32.valid x = true /\ is_number x = true.

(** The visual magnitudes of a list of stars. *)
Definition magnitudes (stars : list Star) : list float := map mVMagnitude stars.

(** A star whose two magnitudes are well-formed floats. *)
Definition valid_magnitudes (s : Star) : Prop :=
  Binary32.valid (mBMagnitude s) = true /\ Binary32.valid (mVMagnitude s) = true.

(* ================================================================== *)
(** * Drawing a frame ([Stars::Do], the setters, [Plugin::update]) *)
(* ================================================================== *)

(** IEEE 754 binary64, the C++ [double], and the two conversions between
    it and [float]: widening is exact, narrowing rounds to nearest. *)
Module Binary64.

Definition prec : Z := 53.
Definition emax : Z := 1024.

Definition double := spec_float.

Definition mul : double -> double -> double := SFmul prec emax.

Definition of_float (x : float) : double :=
  match x with
  | S754_finite s m e => binary_round prec emax s m e
  | _ => x
  end.

Definition to_float (x : double) : float :=
  match x with
  | S754_finite s m e => binary_round Binary32.prec Binary32.emax s m e
  | _ => x
  end.

End Binary64.

Module Rendering.

(** A [VistaTexture], kept as the name of the file it was loaded from; a
    smart pointer to one is an [option]. *)
Definition VistaTexture : Type := string.

(** [cs::graphics::TextureLoader::loadFromFile], a function of the
    CosmoScout core; it answers a pointer, which may be null. *)
Class TextureLoader := loadFromFile : string -> option VistaTexture.

(** [VistaColor(r, g, b, a)]; [operator[]] with 0 to 3 reads the four
    components in this order. *)
Record VistaColorRGBA : Type := {
  red : float;
  green : float;
  blue : float;
  alpha : float
}.

(** The members of [Stars] that [Do] and the setters use, around the
    members of [StarsHDR.Stars]. *)
Record Stars : Type := {
  base : StarsHDR.Stars;
  mStarTexture : option VistaTexture;
  mBackgroundTexture1 : option VistaTexture;
  mBackgroundTexture2 : option VistaTexture;
  mBackgroundColor1 : VistaColorRGBA;
  mBackgroundColor2 : VistaColorRGBA;
  mSolidAngle : float;
  mMinMagnitude : float;
  mMaxMagnitude : float;
  mLuminanceMultiplicator : float
}.

Definition withBase (b : StarsHDR.Stars) (st : Stars) : Stars :=
  {| base := b;
     mStarTexture := mStarTexture st;
     mBackgroundTexture1 := mBackgroundTexture1 st;
     mBackgroundTexture2 := mBackgroundTexture2 st;
     mBackgroundColor1 := mBackgroundColor1 st;
     mBackgroundColor2 := mBackgroundColor2 st;
     mSolidAngle := mSolidAngle st;
     mMinMagnitude := mMinMagnitude st;
     mMaxMagnitude := mMaxMagnitude st;
     mLuminanceMultiplicator := mLuminanceMultiplicator st |}.

Definition setLuminanceMultiplicator (value : float) (st : Stars) : Stars :=
  {| base := base st;
     mStarTexture := mStarTexture st;
     mBackgroundTexture1 := mBackgroundTexture1 st;
     mBackgroundTexture2 := mBackgroundTexture2 st;
     mBackgroundColor1 := mBackgroundColor1 st;
     mBackgroundColor2 := mBackgroundColor2 st;
     mSolidAngle := mSolidAngle st;
     mMinMagnitude := mMinMagnitude st;
     mMaxMagnitude := mMaxMagnitude st;
     mLuminanceMultiplicator := value |}.

Definition setBackgroundColor1 (value : VistaColorRGBA) (st : Stars) : Stars :=
  {| base := base st;
     mStarTexture := mStarTexture st;
     mBackgroundTexture1 := mBackgroundTexture1 st;
     mBackgroundTexture2 := mBackgroundTexture2 st;
     mBackgroundColor1 := value;
     mBackgroundColor2 := mBackgroundColor2 st;
     mSolidAngle := mSolidAngle st;
     mMinMagnitude := mMinMagnitude st;
     mMaxMagnitude := mMaxMagnitude st;
     mLuminanceMultiplicator := mLuminanceMultiplicator st |}.

Definition setBackgroundColor2 (value : VistaColorRGBA) (st : Stars) : Stars :=
  {| base := base st;
     mStarTexture := mStarTexture st;
     mBackgroundTexture1 := mBackgroundTexture1 st;
     mBackgroundTexture2 := mBackgroundTexture2 st;
     mBackgroundColor1 := mBackgroundColor1 st;
     mBackgroundColor2 := value;
     mSolidAngle := mSolidAngle st;
     mMinMagnitude := mMinMagnitude st;
     mMaxMagnitude := mMaxMagnitude st;
     mLuminanceMultiplicator := mLuminanceMultiplicator st |}.

Section WithLoader.

Context {TL : TextureLoader}.

(** [if (!filename.empty()) mStarTexture = loadFromFile(filename);] *)
Definition setStarTexture (filename : string) (st : Stars) : Stars :=
  match filename with
  | EmptyString => st
  | String _ _ =>
      {| base := base st;
         mStarTexture := loadFromFile filename;
         mBackgroundTexture1 := mBackgroundTexture1 st;
         mBackgroundTexture2 := mBackgroundTexture2 st;
         mBackgroundColor1 := mBackgroundColor1 st;
         mBackgroundColor2 := mBackgroundColor2 st;
         mSolidAngle := mSolidAngle st;
         mMinMagnitude := mMinMagnitude st;
         mMaxMagnitude := mMaxMagnitude st;
         mLuminanceMultiplicator := mLuminanceMultiplicator st |}
  end.

End WithLoader.

(** The objects [Do] calls methods on. *)
Inductive Member : Type :=
| StarTexture | BackgroundTexture1 | BackgroundTexture2
| StarVAO | BackgroundVAO | StarShader | BackgroundShader.

(** The matrices [Do] hands to the shaders, as it computes them from the
    two matrices it reads from OpenGL. *)
Inductive Matrix : Type :=
| matModelView
| matProjection
| NoTranslation (m : Matrix)      (* entries [0][3], [1][3], [2][3] set to 0 *)
| Product (a b : Matrix)
| GetInverted (m : Matrix).

Inductive Argument : Type :=
| Enum (name : string)
| Int (z : Z)
| Float (x : float)
| Uniform (name : string)         (* [GetUniformLocation(name)] *)
| Data (m : Matrix).

(** A call of an OpenGL function or of a method of a member. *)
Inductive Call : Type :=
| GL (function : string) (arguments : list Argument)
| On (object : Member) (method : string) (arguments : list Argument).

(** How a frame ends: [Do] returns after the calls, or it calls a method
    through a null pointer after them. *)
Inductive Frame : Type :=
| Completed (calls : list Call)
| NullDereference (calls : list Call) (pointer : Member).

Definition f0_001 : float := Binary32.of_decimal false 1 3.   (* 0.001F *)
Definition f1_0 : float := Binary32.of_Z 1.                   (* 1.0F *)

(** [a != 0.F] *)
Definition nonzero (a : float) : bool := negb (SFeqb a Binary32.zero).

(** [mBackgroundTexture && mBackgroundColor[3] != 0.F] *)
Definition shown (texture : option VistaTexture) (color : VistaColorRGBA) : bool :=
  match texture with
  | Some _ => nonzero (alpha color)
  | None => false
  end.

(** One of the two blocks that draw a background image. *)
Definition drawImage (texture : Member) (color : VistaColorRGBA)
  (backgroundIntensity : float) : list Call :=
  [ On BackgroundShader "SetUniform"
       [Uniform "cColor"; Float (red color); Float (green color); Float (blue color);
        Float (Binary32.mul (alpha color) backgroundIntensity)];
    On texture "Bind" [Enum "GL_TEXTURE0"];
    GL "glDrawArrays" [Enum "GL_TRIANGLE_STRIP"; Int 0; Int 4];
    On texture "Unbind" [Enum "GL_TEXTURE0"] ].

(** The block [// draw background] of [Do]. *)
Definition drawBackground (st : Stars) : list Call :=
  let shown1 := shown (mBackgroundTexture1 st) (mBackgroundColor1 st) in
  let shown2 := shown (mBackgroundTexture2 st) (mBackgroundColor2 st) in
  if shown1 || shown2 then
    let backgroundIntensity :=
      if StarsHDR.mEnableHDR (base st)
      then Binary32.mul f0_001 (mLuminanceMultiplicator st)
      else f1_0 in
    [ On BackgroundVAO "Bind" [];
      On BackgroundShader "Bind" [];
      On BackgroundShader "SetUniform" [Uniform "iTexture"; Int 0];
      GL "glUniformMatrix4fv"
         [Uniform "uInvMVP"; Int 1; Enum "GL_FALSE";
          Data (GetInverted (Product matProjection (NoTranslation matModelView)))];
      GL "glUniformMatrix4fv"
         [Uniform "uInvMV"; Int 1; Enum "GL_FALSE";
          Data (GetInverted (NoTranslation matModelView))] ]
    ++ (if shown1
        then drawImage BackgroundTexture1 (mBackgroundColor1 st) backgroundIntensity
        else [])
    ++ (if shown2
        then drawImage BackgroundTexture2 (mBackgroundColor2 st) backgroundIntensity
        else [])
    ++ [ On BackgroundShader "Release" []; On BackgroundVAO "Release" [] ]
  else [].

(** The calls of the block [// draw stars] up to the first use of
    [mStarTexture]; [viewport] is what [glGetIntegerv(GL_VIEWPORT, ...)]
    answers. *)
Definition drawStarsHead (viewport : list Z) (st : Stars) : list Call :=
  let mode := StarsHDR.mDrawMode (base st) in
  [ On StarVAO "Bind" []; On StarShader "Bind" [] ]
  ++ (if StarsHDR.isPointMode mode
      then [GL "glPointSize" [Float Binary32.f0_5]] else [])
  ++ (if StarsHDR.DrawMode_eqb mode StarsHDR.eSmoothPoint
      then [ GL "glBlendFunc" [Enum "GL_SRC_ALPHA"; Enum "GL_ONE_MINUS_SRC_ALPHA"];
             GL "glEnable" [Enum "GL_POINT_SMOOTH"];
             GL "glHint" [Enum "GL_POINT_SMOOTH_HINT"; Enum "GL_NICEST"] ]
      else [GL "glDisable" [Enum "GL_POINT_SMOOTH"]])
  ++ [ GL "glGetIntegerv" [Enum "GL_VIEWPORT"];
       On StarShader "SetUniform"
          [Uniform "uResolution"; Float (Binary32.of_Z (nth 2 viewport 0));
           Float (Binary32.of_Z (nth 3 viewport 0))] ].

(** The calls from [mStarTexture->Bind] to the end of [Do]. *)
Definition drawStarsTail (st : Stars) : list Call :=
  [ On StarTexture "Bind" [Enum "GL_TEXTURE0"];
    On StarShader "SetUniform" [Uniform "uStarTexture"; Int 0];
    On StarShader "SetUniform" [Uniform "uMinMagnitude"; Float (mMinMagnitude st)];
    On StarShader "SetUniform" [Uniform "uMaxMagnitude"; Float (mMaxMagnitude st)];
    On StarShader "SetUniform" [Uniform "uSolidAngle"; Float (mSolidAngle st)];
    On StarShader "SetUniform"
       [Uniform "uLuminanceMultiplicator"; Float (mLuminanceMultiplicator st)];
    GL "glUniformMatrix4fv" [Uniform "uMatMV"; Int 1; Enum "GL_FALSE"; Data matModelView];
    GL "glUniformMatrix4fv" [Uniform "uMatP"; Int 1; Enum "GL_FALSE"; Data matProjection];
    GL "glUniformMatrix4fv"
       [Uniform "uInvMV"; Int 1; Enum "GL_FALSE"; Data (GetInverted matModelView)];
    GL "glUniformMatrix4fv"
       [Uniform "uInvP"; Int 1; Enum "GL_FALSE"; Data (GetInverted matProjection)];
    GL "glDrawArrays"
       [Enum "GL_POINTS"; Int 0;
        Int (to_int32 (Z.of_nat (List.length (StarsHDR.mStars (base st)))))];
    On StarTexture "Unbind" [Enum "GL_TEXTURE0"];
    On StarShader "Release" [];
    On StarVAO "Release" [];
    GL "glDepthMask" [Enum "GL_TRUE"];
    GL "glPopAttrib" [] ].

(** [bool Stars::Do()]: the object after the call and the calls of the
    frame.  The block [if (mShaderDirty)] is [StarsHDR.Do]. *)
Definition Do (viewport : list Z) (st : Stars) : Stars * Frame :=
  let st := withBase (StarsHDR.Do (base st)) st in
  let calls :=
    [ GL "glPushAttrib"
         [Enum "GL_DEPTH_BUFFER_BIT"; Enum "GL_COLOR_BUFFER_BIT"; Enum "GL_ENABLE_BIT"];
      GL "glDepthMask" [Enum "GL_FALSE"];
      GL "glEnable" [Enum "GL_DEPTH_TEST"];
      GL "glEnable" [Enum "GL_BLEND"];
      GL "glBlendFunc" [Enum "GL_ONE"; Enum "GL_ONE"];
      GL "glGetFloatv" [Enum "GL_MODELVIEW_MATRIX"];
      GL "glGetFloatv" [Enum "GL_PROJECTION_MATRIX"] ]
    ++ drawBackground st ++ drawStarsHead viewport st in
  match mStarTexture st with
  | Some _ => (st, Completed (calls ++ drawStarsTail st))
  | None => (st, NullDereference calls StarTexture)
  end.

(** The 47 [emplace_back] calls at the head of [init]. *)
Definition coloured (b : StarsHDR.Stars) : StarsHDR.Stars :=
  {| StarsHDR.mCatalogs := StarsHDR.mCatalogs b;
     StarsHDR.mStars := StarsHDR.mStars b;
     StarsHDR.mSpectralColors := StarsHDR.mSpectralColors b ++ spectralColors;
     StarsHDR.mStarShader := StarsHDR.mStarShader b;
     StarsHDR.mBackgroundShader := StarsHDR.mBackgroundShader b;
     StarsHDR.mDrawMode := StarsHDR.mDrawMode b;
     StarsHDR.mShaderDirty := StarsHDR.mShaderDirty b;
     StarsHDR.mEnableHDR := StarsHDR.mEnableHDR b;
     StarsHDR.compilations := StarsHDR.compilations b |}.

(** What [buildStarVAO] and [buildBackgroundVAO] hand to the two vertex
    buffers. *)
Record Buffers : Type := {
  starVBO : list StarsHDR.Vertex;
  backgroundVBO : list float
}.

(** The eight floats of [buildBackgroundVAO]: -1, 1, 1, 1, -1, -1, 1, -1. *)
Definition backgroundQuad : list float :=
  map Binary32.of_Z [-1; 1; 1; 1; -1; -1; 1; -1].

Section WithLibraries.

Context {SE : StreamExtraction} {ML : MathLibrary} {TL : TextureLoader}.

(** [void Stars::init(sStarTextureFile, sCacheFile)]: colour table, stars
    from the cache or the catalogs, star texture, vertex buffers. *)
Definition init (sStarTextureFile sCacheFile : string) (w : World) (st : Stars)
  : Outcome (World * Stars * Buffers) :=
  ws <-- StarsHDR.loadStars sCacheFile w (coloured (base st)) ;;
  let st := setStarTexture sStarTextureFile (withBase (snd ws) st) in
  data <-- StarsHDR.buildStarVAO (base st) ;;
  Returns (fst ws, st, {| starVBO := data; backgroundVBO := backgroundQuad |}).

End WithLibraries.

(** The calls of a frame, however it ends. *)
Definition calls (f : Frame) : list Call :=
  match f with
  | Completed l => l
  | NullDereference l _ => l
  end.

(** Whether a call draws with the given primitive. *)
Definition draws (primitive : string) (c : Call) : bool :=
  match c with
  | GL "glDrawArrays" (Enum p :: _) => String.eqb p primitive
  | _ => false
  end.

(** Whether a call is a method call on the given member. *)
Definition uses (m : Member) (c : Call) : bool :=
  match c, m with
  | On StarTexture _ _, StarTexture
  | On BackgroundTexture1 _ _, BackgroundTexture1
  | On BackgroundTexture2 _ _, BackgroundTexture2
  | On StarVAO _ _, StarVAO
  | On BackgroundVAO _ _, BackgroundVAO
  | On StarShader _ _, StarShader
  | On BackgroundShader _ _, BackgroundShader => true
  | _, _ => false
  end.

End Rendering.

(** [Plugin] of the revision with HDR ([src/unnamed/part_000], second
    file). *)
Module Plugin.

(** [struct Properties], with its initial values. *)
Record Properties : Type := {
  mEnabled : bool;
  mEnableCelestialGrid : bool;
  mEnableStarFigures : bool;
  mLuminanceMultiplicator : Binary64.double
}.

Definition f0_3 : float := Binary32.of_decimal false 3 1.   (* 0.3f *)
Definition f0_8 : float := Binary32.of_decimal false 8 1.   (* 0.8f *)
Definition f1 : float := Binary32.of_Z 1.                   (* 1.f *)

(** [cond ? 1.f : 0.f] *)
Definition flag (cond : bool) : float := if cond then f1 else Binary32.zero.

(** [void Plugin::update()]; [brightness] is
    [pApproximateSceneBrightness.get()], [hdr] is [pEnableHDR.get()]. *)
Definition update (brightness : float) (hdr : bool) (p : Properties)
  (mStars : Rendering.Stars) : Rendering.Stars :=
  let fIntensity := if hdr then f1 else brightness in
  let mStars :=
    Rendering.setLuminanceMultiplicator
      (Binary64.to_float
         (Binary64.mul (Binary64.of_float fIntensity) (mLuminanceMultiplicator p)))
      mStars in
  let mStars :=
    Rendering.setBackgroundColor1
      {| Rendering.red := Binary32.f0_5; Rendering.green := f0_8;
         Rendering.blue := f1;
         Rendering.alpha :=
           Binary32.mul (Binary32.mul f0_3 fIntensity)
                        (flag (mEnableCelestialGrid p)) |}
      mStars in
  Rendering.setBackgroundColor2
    {| Rendering.red := Binary32.f0_5; Rendering.green := f1;
       Rendering.blue := f0_8;
       Rendering.alpha :=
         Binary32.mul (Binary32.mul f0_3 fIntensity)
                      (flag (mEnableStarFigures p)) |}
    mStars.

End Plugin.

Module Scenes.

(** Any function serves as [std::log10] where its values do not matter. *)
Definition anyLog10 : MathLibrary := fun x => x.

(** A loader that finds every file. *)
Definition everyFile : Rendering.TextureLoader := fun filename => Some filename.

(** An object after [init]: colour table filled, two stars, no shader
    built yet. *)
Definition twoStars : StarsHDR.Stars :=
  {| StarsHDR.mCatalogs := Samples.hipparcosOnly;
     StarsHDR.mStars := [Samples.sirius; Samples.sunlike];
     StarsHDR.mSpectralColors := spectralColors;
     StarsHDR.mStarShader := StarsHDR.newShader;
     StarsHDR.mBackgroundShader := StarsHDR.newShader;
     StarsHDR.mDrawMode := StarsHDR.eSmoothDisc;
     StarsHDR.mShaderDirty := true;
     StarsHDR.mEnableHDR := true;
     StarsHDR.compilations := 0 |}.

Definition white : Rendering.VistaColorRGBA :=
  {| Rendering.red := Binary32.of_Z 1; Rendering.green := Binary32.of_Z 1;
     Rendering.blue := Binary32.of_Z 1; Rendering.alpha := Binary32.of_Z 1 |}.

(** The object with a star texture and both background images, and the
    initial values of the class for the rest. *)
Definition sky : Rendering.Stars :=
  {| Rendering.base := twoStars;
     Rendering.mStarTexture := Some "star.png"%string;
     Rendering.mBackgroundTexture1 := Some "grid.png"%string;
     Rendering.mBackgroundTexture2 := Some "figures.png"%string;
     Rendering.mBackgroundColor1 := white;
     Rendering.mBackgroundColor2 := white;
     Rendering.mSolidAngle := Binary32.of_decimal false 5 6;
     Rendering.mMinMagnitude := SFopp Binary32.f5;
     Rendering.mMaxMagnitude := Binary32.of_Z 15;
     Rendering.mLuminanceMultiplicator := Binary32.of_Z 1 |}.

(** The members before [init], for a configuration with Hipparcos only. *)
Definition unbuilt : Rendering.Stars :=
  {| Rendering.base := StarsHDR.constructed Samples.hipparcosOnly;
     Rendering.mStarTexture := None;
     Rendering.mBackgroundTexture1 := None;
     Rendering.mBackgroundTexture2 := None;
     Rendering.mBackgroundColor1 := white;
     Rendering.mBackgroundColor2 := white;
     Rendering.mSolidAngle := Binary32.of_decimal false 5 6;
     Rendering.mMinMagnitude := SFopp Binary32.f5;
     Rendering.mMaxMagnitude := Binary32.of_Z 15;
     Rendering.mLuminanceMultiplicator := Binary32.of_Z 1 |}.

Definition hidden : Plugin.Properties :=
  {| Plugin.mEnabled := true;
     Plugin.mEnableCelestialGrid := false;
     Plugin.mEnableStarFigures := false;
     Plugin.mLuminanceMultiplicator := Binary64.of_float (Binary32.of_Z 1) |}.

End Scenes.
(* ================================================================== *)
(** * Sanity checks of the literals *)
(* ================================================================== *)

Example literal_0_4 : Binary32.f0_4 = Binary32.of_decimal false 4 1.
Proof. reflexivity. Qed.
Example literal_0_05 : Binary32.f0_05 = Binary32.of_decimal false 5 2.
Proof. reflexivity. Qed.
Example literal_0_5 : Binary32.f0_5 = Binary32.of_decimal false 5 1.
Proof. reflexivity. Qed.
Example literal_2_0 : Binary32.f2_0 = Binary32.of_Z 2.
Proof. reflexivity. Qed.
Example literal_5 : Binary32.f5 = Binary32.of_Z 5.
Proof. reflexivity. Qed.
Example literal_10 : Binary32.f10 = Binary32.of_Z 10.
Proof. reflexivity. Qed.
Example literal_1000 : Binary32.f1000 = Binary32.of_Z 1000.
Proof. reflexivity. Qed.
Example literal_100000 : Binary32.f100000 = Binary32.of_Z 100000.
Proof. reflexivity. Qed.
Example literal_360 : Binary32.f360 = Binary32.of_Z 360.
Proof. reflexivity. Qed.
Example literal_90 : Binary32.f90 = Binary32.of_Z 90.
Proof. reflexivity. Qed.
Example literal_180 : Binary32.f180 = Binary32.of_Z 180.
Proof. reflexivity. Qed.
Example literal_pi_bits : Binary32.to_bits Vista_Pi = 0x40490FDB.
Proof. reflexivity. Qed.
Example literal_bits_0_4 : Binary32.to_bits Binary32.f0_4 = 0x3ECCCCCD.
Proof. reflexivity. Qed.
Example limits_max_bits : Binary32.to_bits Binary32.numeric_limits_max = 0x7F7FFFFF.
Proof. reflexivity. Qed.
Example limits_min_bits : Binary32.to_bits Binary32.numeric_limits_min = 0x00800000.
Proof. reflexivity. Qed.
Example spectralColors_size : List.length spectralColors = 47%nat.
Proof. reflexivity. Qed.
Example plain_float_5_0 :
  PlainDecimal.float_of "5.0" = Some (Binary32.of_Z 5).
Proof. reflexivity. Qed.
Example plain_float_blank : PlainDecimal.float_of "      " = None.
Proof. reflexivity. Qed.
Example plain_int_hip : PlainDecimal.int_of "  1234" = Some 1234.
Proof. reflexivity. Qed.
Example tokenize_trailing : tokenize "|" "a|b||c|" = ["a"; "b"; ""; "c"]%string.
Proof. reflexivity. Qed.
Example tokenize_empty : tokenize "|" "" = [].
Proof. reflexivity. Qed.

(* ================================================================== *)
(** * Bytes and 32-bit words *)
(* ================================================================== *)

Lemma Z_of_byte_range (b : Byte.byte) : 0 <= Z_of_byte b < 256.
Proof.
  unfold Z_of_byte. pose proof (Byte.to_N_bounded b) as H.
  split; [apply N2Z.is_nonneg|]. 
  apply N.lt_succ_r in H. change 256 with (Z.of_N 256). now apply N2Z.inj_lt.
Qed.

Lemma Z_of_byte_of_Z (z : Z) : Z_of_byte (byte_of_Z z) = z mod 256.
Proof.
  unfold Z_of_byte, byte_of_Z.
  assert (Hr : 0 <= z mod 256 < 256) by (apply Z.mod_pos_bound; lia).
  destruct (Byte.of_N (Z.to_N (z mod 256))) as [b|] eqn:E.
  - apply Byte.to_of_N in E. rewrite E. rewrite Z2N.id; lia.
  - apply Byte.of_N_None_iff in E.
    assert (Z.to_N (z mod 256) < 256)%N.
    { change 256%N with (Z.to_N 256). apply Z2N.inj_lt; lia. }
    lia.
Qed.

Lemma decode32_encode32 (v : Z) :
  0 <= v < 2 ^ 32 ->
  match encode32 v with
  | [b0; b1; b2; b3] => decode32 b0 b1 b2 b3 = v
  | _ => False
  end.
Proof.
  intros Hv. unfold encode32, decode32. rewrite !Z_of_byte_of_Z.
  change (2 ^ 8) with 256. change (2 ^ 16) with 65536. change (2 ^ 24) with 16777216.
  change (2 ^ 32) with 4294967296 in Hv.
  pose proof (Z.div_mod v 256 ltac:(lia)).
  pose proof (Z.div_mod (v / 256) 256 ltac:(lia)).
  pose proof (Z.div_mod (v / 256 / 256) 256 ltac:(lia)).
  replace (v / 65536) with (v / 256 / 256) by (rewrite Z.div_div by lia; reflexivity).
  replace (v / 16777216) with (v / 256 / 256 / 256) by (rewrite !Z.div_div by lia; reflexivity).
  assert (0 <= v / 256 / 256 / 256 < 256).
  { split; [repeat apply Z.div_pos; lia|].
    repeat (apply Z.div_lt_upper_bound; [lia|]). lia. }
  rewrite (Z.mod_small (v / 256 / 256 / 256)) by lia.
  lia.
Qed.

Lemma ReadInt32_WriteInt32 (v target : Z) (rest : list Byte.byte) :
  0 <= v < 2 ^ 32 ->
  ReadInt32 (encode32 v ++ rest) target = (v, rest).
Proof.
  intros Hv. pose proof (decode32_encode32 v Hv) as H.
  unfold encode32 in *. cbn [app]. unfold ReadInt32. now rewrite H.
Qed.

(* ================================================================== *)
(** * Facts about binary32 *)
(* ================================================================== *)

Lemma digits2_pos_bounds (m : positive) :
  2 ^ (Zpos (digits2_pos m) - 1) <= Zpos m < 2 ^ Zpos (digits2_pos m).
Proof.
  induction m as [p IH | p IH |]; cbn [digits2_pos].
  - rewrite Pos2Z.inj_succ.
    replace (Z.succ (Zpos (digits2_pos p)) - 1) with (Z.succ (Zpos (digits2_pos p) - 1)) by lia.
    rewrite !Z.pow_succ_r by lia. lia.
  - rewrite Pos2Z.inj_succ.
    replace (Z.succ (Zpos (digits2_pos p)) - 1) with (Z.succ (Zpos (digits2_pos p) - 1)) by lia.
    rewrite !Z.pow_succ_r by lia. lia.
  - cbn. lia.
Qed.

Lemma digits2_pos_le (m : positive) (d : Z) :
  0 <= d -> Zpos m < 2 ^ d -> Zpos (digits2_pos m) <= d.
Proof.
  intros Hd Hm. pose proof (digits2_pos_bounds m) as [Hlo _].
  destruct (Z_le_gt_dec (Zpos (digits2_pos m)) d) as [|Hgt]; [assumption|].
  exfalso. assert (2 ^ d <= 2 ^ (Zpos (digits2_pos m) - 1)) by (apply Z.pow_le_mono_r; lia).
  lia.
Qed.

Lemma digits2_pos_ge (m : positive) (d : Z) :
  2 ^ (d - 1) <= Zpos m -> d <= Zpos (digits2_pos m).
Proof.
  intros Hm. pose proof (digits2_pos_bounds m) as [_ Hhi].
  destruct (Z_le_gt_dec d (Zpos (digits2_pos m))) as [|Hgt]; [assumption|].
  exfalso.
  assert (2 ^ Zpos (digits2_pos m) <= 2 ^ (d - 1)) by (apply Z.pow_le_mono_r; lia).
  lia.
Qed.

(** A finite binary32 value is well formed exactly when its mantissa has at
    most 24 bits, its exponent lies between -149 and 104, and the mantissa
    has all 24 bits unless the exponent is the least one. *)
Lemma valid_finite_iff (s : bool) (m : positive) (e : Z) :
  Binary32.valid (S754_finite s m e) = true <->
  Zpos m < 2 ^ 24 /\ -149 <= e <= 104 /\ (2 ^ 23 <= Zpos m \/ e = -149).
Proof.
  unfold Binary32.valid, valid_binary, SpecFloat.bounded, canonical_mantissa, fexp, emin,
    Binary32.prec, Binary32.emax.
  rewrite andb_true_iff, Z.eqb_eq, Z.leb_le.
  pose proof (digits2_pos_bounds m) as [Hlo Hhi].
  split.
  - intros [Hc He].
    assert (Hd : Zpos (digits2_pos m) <= 24) by lia.
    assert (Zpos m < 2 ^ 24).
    { eapply Z.lt_le_trans; [exact Hhi|]. apply Z.pow_le_mono_r; lia. }
    repeat split; try lia.
    destruct (Z.eq_dec e (-149)) as [|Hne]; [now right|left].
    assert (Zpos (digits2_pos m) = 24) by lia.
    replace 23 with (Zpos (digits2_pos m) - 1) by lia. exact Hlo.
  - intros (Hm & He & Hn).
    assert (Hd : Zpos (digits2_pos m) <= 24) by (apply digits2_pos_le; lia).
    split; [|lia].
    destruct Hn as [Hn|Hn].
    + assert (24 <= Zpos (digits2_pos m)) by (apply digits2_pos_ge; exact Hn). lia.
    + lia.
Qed.

Lemma to_bits_range (x : float) :
  Binary32.valid x = true -> 0 <= Binary32.to_bits x < 2 ^ 32.
Proof.
  destruct x as [s|s| |s m e]; cbn [Binary32.to_bits]; unfold Binary32.sign_bit.
  - intros _. destruct s; cbn; lia.
  - intros _. destruct s; cbn; lia.
  - intros _. cbn; lia.
  - rewrite valid_finite_iff. intros (Hm & He & Hn).
    change (2 ^ 24) with 16777216 in *. change (2 ^ 23) with 8388608 in *.
    change (2 ^ 31) with 2147483648. change (2 ^ 32) with 4294967296.
    destruct (Z.ltb_spec (Zpos m) 8388608); destruct s; lia.
Qed.

Lemma div_mod_split (q r d : Z) :
  0 <= r < d -> (q * d + r) / d = q /\ (q * d + r) mod d = r.
Proof.
  intros Hr. split.
  - rewrite Z.add_comm, Z.div_add, Z.div_small; lia.
  - rewrite Z.add_comm, Z.mod_add, Z.mod_small; lia.
Qed.

Lemma of_bits_to_bits (x : float) :
  Binary32.valid x = true -> Binary32.of_bits (Binary32.to_bits x) = x.
Proof.
  destruct x as [s|s| |s m e]; try (intros _; destruct s; reflexivity); [reflexivity|].
  rewrite valid_finite_iff. intros (Hm & He & Hn).
  unfold Binary32.of_bits, Binary32.to_bits, Binary32.sign_bit.
  change (2 ^ 24) with 16777216 in *. change (2 ^ 23) with 8388608 in *.
  change (2 ^ 31) with 2147483648.
  set (sb := if s then 2147483648 else 0).
  set (k := if s then 1 else 0).
  assert (Hk : 0 <= k <= 1) by (subst k; destruct s; lia).
  assert (Hsb : sb = 256 * 8388608 * k) by (subst sb k; destruct s; reflexivity).
  destruct (Z.ltb_spec (Zpos m) 8388608) as [Hsub|Hnorm].
  - (* subnormal *)
    assert (e = -149) by lia. subst e.
    assert (Hs : (2147483648 <=? sb + Zpos m) = s).
    { destruct s; subst sb; [apply Z.leb_le|apply Z.leb_gt]; lia. }
    destruct (div_mod_split (256 * k) (Zpos m) 8388608 ltac:(lia)) as [Hq Hr].
    replace (256 * k * 8388608 + Zpos m) with (sb + Zpos m) in Hq, Hr by lia.
    rewrite Hs, Hq, Hr.
    replace ((256 * k) mod 256) with 0 by (rewrite Z.mul_comm, Z.mod_mul; lia).
    reflexivity.
  - (* normal *)
    set (b := sb + (e + 150) * 8388608 + (Zpos m - 8388608)).
    assert (Hs : (2147483648 <=? b) = s).
    { destruct s; subst b sb; [apply Z.leb_le|apply Z.leb_gt]; lia. }
    destruct (div_mod_split (k * 256 + (e + 150)) (Zpos m - 8388608) 8388608 ltac:(lia))
      as [Hq Hr].
    replace ((k * 256 + (e + 150)) * 8388608 + (Zpos m - 8388608)) with b in Hq, Hr
      by (subst b; lia).
    destruct (div_mod_split k (e + 150) 256 ltac:(lia)) as [_ Hx].
    rewrite Hs, Hq, Hr, Hx.
    destruct (Z.eqb_spec (e + 150) 0); [lia|].
    destruct (Z.eqb_spec (e + 150) 255); [lia|].
    replace (Zpos m - 8388608 + 8388608) with (Zpos m) by lia.
    replace (e + 150 - 150) with e by lia. reflexivity.
Qed.

(* ================================================================== *)
(** * The cache image *)
(* ================================================================== *)

Lemma writeStar_app (buffer : list Byte.byte) (s : Star) :
  writeStar buffer s = buffer ++ starBytes s.
Proof.
  unfold writeStar, WriteFloat32, starBytes. now rewrite <- !app_assoc.
Qed.

Lemma fold_writeStar (stars : list Star) (buffer : list Byte.byte) :
  fold_left writeStar stars buffer = buffer ++ flat_map starBytes stars.
Proof.
  revert buffer. induction stars as [|s stars IH]; intros buffer; cbn [fold_left flat_map].
  - now rewrite app_nil_r.
  - rewrite IH, writeStar_app. now rewrite <- app_assoc.
Qed.

Lemma serializeCache_layout (catalogs : Z) (stars : list Star) :
  serializeCache catalogs stars =
  encode32 (to_uint32 cCacheVersion) ++ encode32 catalogs
  ++ encode32 (to_uint32 (Z.of_nat (List.length stars)))
  ++ flat_map starBytes stars.
Proof.
  unfold serializeCache, WriteInt32. rewrite fold_writeStar. cbn [app].
  now rewrite <- !app_assoc.
Qed.

Lemma starBytes_length (s : Star) : List.length (starBytes s) = 20%nat.
Proof. reflexivity. Qed.

Lemma flat_map_starBytes_length (stars : list Star) :
  Z.of_nat (List.length (flat_map starBytes stars)) = 20 * Z.of_nat (List.length stars).
Proof.
  induction stars as [|s stars IH]; [reflexivity|].
  cbn [flat_map]. rewrite length_app, starBytes_length. cbn [List.length]. lia.
Qed.

Lemma serializeCache_length (catalogs : Z) (stars : list Star) :
  Z.of_nat (List.length (serializeCache catalogs stars)) =
  12 + 20 * Z.of_nat (List.length stars).
Proof.
  rewrite serializeCache_layout. rewrite !length_app.
  rewrite !Nat2Z.inj_add, flat_map_starBytes_length.
  unfold encode32. cbn [List.length]. lia.
Qed.

Lemma ReadFloat32_WriteFloat32 (x target : float) (rest : list Byte.byte) :
  Binary32.valid x = true ->
  ReadFloat32 (encode32 (Binary32.to_bits x) ++ rest) target = (x, rest).
Proof.
  intros Hx. pose proof (decode32_encode32 _ (to_bits_range x Hx)) as H.
  unfold encode32 in *. cbn [app]. unfold ReadFloat32.
  rewrite H. now rewrite of_bits_to_bits.
Qed.

Lemma readStar_starBytes (s : Star) (rest : list Byte.byte) :
  valid_star s -> readStar (starBytes s ++ rest) = (s, rest).
Proof.
  intros (Hv & Hb & Ha & Hd & Hp). unfold readStar, starBytes.
  rewrite <- !app_assoc.
  rewrite ReadFloat32_WriteFloat32 by assumption.
  rewrite ReadFloat32_WriteFloat32 by assumption.
  rewrite ReadFloat32_WriteFloat32 by assumption.
  rewrite ReadFloat32_WriteFloat32 by assumption.
  rewrite ReadFloat32_WriteFloat32 by assumption.
  now destruct s.
Qed.

Lemma readStars_flat_map (stars acc : list Star) (rest : list Byte.byte) :
  Forall valid_star stars ->
  readStars (List.length stars) (flat_map starBytes stars ++ rest) acc = acc ++ stars.
Proof.
  intros Hv. revert acc. induction Hv as [|s stars Hs _ IH]; intros acc.
  - cbn. now rewrite app_nil_r.
  - cbn [List.length flat_map readStars]. rewrite <- app_assoc.
    rewrite readStar_starBytes by assumption.
    rewrite IH. now rewrite <- app_assoc.
Qed.

Lemma to_uint32_range (z : Z) : 0 <= to_uint32 z < 2 ^ 32.
Proof. unfold to_uint32. apply Z.mod_pos_bound. lia. Qed.

Lemma to_int32_small (z : Z) : 0 <= z < 2 ^ 31 -> to_int32 z = z.
Proof.
  intros Hz. unfold to_int32. change (2 ^ 31) with 2147483648 in *.
  change (2 ^ 32) with 4294967296. rewrite Z.mod_small; lia.
Qed.

Lemma headerOf_serializeCache (catalogs : Z) (stars : list Star) :
  0 <= catalogs < 2 ^ 32 ->
  headerOf (serializeCache catalogs stars) =
  (to_uint32 cCacheVersion, catalogs, to_uint32 (Z.of_nat (List.length stars)),
   flat_map starBytes stars).
Proof.
  intros Hc. rewrite serializeCache_layout. unfold headerOf.
  rewrite ReadInt32_WriteInt32 by apply to_uint32_range.
  rewrite ReadInt32_WriteInt32 by assumption.
  rewrite ReadInt32_WriteInt32 by apply to_uint32_range.
  reflexivity.
Qed.

(** Reading back what was serialized appends the serialized stars. *)
Lemma deserializeCache_serializeCache (catalogs : Z) (stars acc : list Star) :
  0 <= catalogs < 2 ^ 32 ->
  Forall valid_star stars ->
  12 + 20 * Z.of_nat (List.length stars) < 2 ^ 31 ->
  deserializeCache catalogs (serializeCache catalogs stars) acc
  = Returns (true, acc ++ stars).
Proof.
  intros Hc Hv Hn. unfold deserializeCache.
  rewrite serializeCache_length, to_int32_small by lia.
  destruct (Z.ltb_spec (12 + 20 * Z.of_nat (List.length stars)) 0) as [|_]; [lia|].
  destruct (Z.eqb_spec (12 + 20 * Z.of_nat (List.length stars)) 0) as [|_]; [lia|].
  rewrite <- serializeCache_length with (catalogs := catalogs).
  rewrite Nat2Z.id, firstn_all.
  rewrite headerOf_serializeCache by assumption.
  rewrite !Z.eqb_refl. cbn [negb].
  assert (Hlen : to_uint32 (Z.of_nat (List.length stars)) = Z.of_nat (List.length stars)).
  { unfold to_uint32. change (2 ^ 31) with 2147483648 in Hn.
    change (2 ^ 32) with 4294967296. apply Z.mod_small. lia. }
  rewrite Hlen, Nat2Z.id.
  rewrite <- (app_nil_r (flat_map starBytes stars)).
  now rewrite readStars_flat_map.
Qed.

(** A header that does not match is a miss that reads no star. *)
Lemma deserializeCache_miss (catalogsToLoad : Z) (file : list Byte.byte)
  (stars : list Star) :
  0 < Z.of_nat (List.length file) < 2 ^ 31 ->
  (let '(cacheVersion, catalogs, _, _) := headerOf file in
   cacheVersion <> cCacheVersion \/ catalogs <> catalogsToLoad) ->
  deserializeCache catalogsToLoad file stars = Returns (false, stars).
Proof.
  intros Hn. unfold deserializeCache.
  rewrite to_int32_small by lia.
  destruct (Z.ltb_spec (Z.of_nat (List.length file)) 0) as [|_]; [lia|].
  destruct (Z.eqb_spec (Z.of_nat (List.length file)) 0) as [|_]; [lia|].
  rewrite Nat2Z.id, firstn_all.
  destruct (headerOf file) as [[[cacheVersion catalogs] numStars] rest].
  change (to_uint32 cCacheVersion) with cCacheVersion.
  intros [Hv|Hc].
  - destruct (Z.eqb_spec cacheVersion cCacheVersion); [contradiction|reflexivity].
  - destruct (Z.eqb_spec cacheVersion cCacheVersion); [|reflexivity].
    destruct (Z.eqb_spec catalogs catalogsToLoad); [contradiction|reflexivity].
Qed.

(* ================================================================== *)
(** * Cache store *)
(* ================================================================== *)

Lemma fold_uint32_range {A : Type} (f : Z -> A -> Z) (l : list A) (a : Z) :
  0 <= a < 2 ^ 32 ->
  (forall acc t, 0 <= f acc t < 2 ^ 32) ->
  0 <= fold_left f l a < 2 ^ 32.
Proof.
  intros Ha Hf. revert a Ha. induction l as [|t l IH]; intros a Ha; cbn [fold_left].
  - exact Ha.
  - apply IH, Hf.
Qed.

Lemma StarsHDR_catalogBits_range (m : StarsHDR.Catalogs) :
  0 <= StarsHDR.catalogBits m < 2 ^ 32.
Proof.
  unfold StarsHDR.catalogBits. apply fold_uint32_range; [cbn; lia|].
  intros acc t. apply to_uint32_range.
Qed.

Lemma StarsGaia_catalogBits_range (m : StarsGaia.Catalogs) :
  0 <= StarsGaia.catalogBits m < 2 ^ 32.
Proof.
  unfold StarsGaia.catalogBits. apply fold_uint32_range; [cbn; lia|].
  intros acc t. apply to_uint32_range.
Qed.

Lemma StarsHDR_setStars_same (st : StarsHDR.Stars) :
  StarsHDR.setStars st (StarsHDR.mStars st) = st.
Proof. now destruct st. Qed.

Lemma cacheFile_store_same (name : string) (bytes : list Byte.byte) (w : World) :
  cacheFile (store name bytes w) name = Some bytes.
Proof. cbn. now rewrite String.eqb_refl. Qed.

(** A cache image of 2^31 bytes or more, and less than 2^32: the [int]
    that takes [file.tellg()] is negative, and the vector of that size is
    refused. *)
Lemma to_int32_wraps (z : Z) : 2 ^ 31 <= z < 2 ^ 32 -> to_int32 z = z - 2 ^ 32.
Proof.
  intros Hz. unfold to_int32. change (2 ^ 31) with 2147483648 in *.
  change (2 ^ 32) with 4294967296 in *.
  rewrite <- (Z.mod_unique (z + 2147483648) 4294967296 1 (z - 2147483648)); lia.
Qed.

Lemma deserializeCache_too_long (catalogsToLoad : Z) (file : list Byte.byte)
  (stars : list Star) :
  2 ^ 31 <= Z.of_nat (List.length file) < 2 ^ 32 ->
  deserializeCache catalogsToLoad file stars = Throws "std::length_error".
Proof.
  intros Hn. unfold deserializeCache. rewrite to_int32_wraps by assumption.
  destruct (Z.ltb_spec (Z.of_nat (List.length file) - 2 ^ 32) 0) as [_|H];
    [reflexivity|lia].
Qed.


Lemma oversizedCache_length :
  Z.of_nat (List.length Cases.oversizedCache) = 2 ^ 31.
Proof.
  unfold Cases.oversizedCache. rewrite !length_app, repeat_length.
  rewrite !Nat2Z.inj_add, Z2Nat.id by lia.
  change (Z.of_nat (List.length (encode32 2))) with 4.
  change (Z.of_nat (List.length (encode32 1))) with 4.
  change (Z.of_nat (List.length (encode32 0))) with 4. lia.
Qed.







Lemma headerOf_words (version catalogs numStars : Z) (rest : list Byte.byte) :
  0 <= version < 2 ^ 32 -> 0 <= catalogs < 2 ^ 32 -> 0 <= numStars < 2 ^ 32 ->
  headerOf (encode32 version ++ encode32 catalogs ++ encode32 numStars ++ rest)
  = (version, catalogs, numStars, rest).
Proof.
  intros Hv Hc Hn. unfold headerOf.
  rewrite ReadInt32_WriteInt32 by assumption.
  rewrite ReadInt32_WriteInt32 by assumption.
  rewrite ReadInt32_WriteInt32 by assumption.
  reflexivity.
Qed.

(** C2 as stated fails: nothing bounds the cache file.  A file of 2^31
    bytes whose version word is 2, not [cCacheVersion], is no miss: [int
    size] is negative and the call ends in [std::length_error]. *)
Lemma cache_invalidation_counterexample :
  cacheFile (store "star_cache.dat" Cases.oversizedCache Samples.noFiles)
    "star_cache.dat" = Some Cases.oversizedCache
  /\ Z.of_nat (List.length Cases.oversizedCache) = 2 ^ 31
  /\ (exists catalogs numStars rest,
        headerOf Cases.oversizedCache = (2, catalogs, numStars, rest))
  /\ 2 <> cCacheVersion
  /\ StarsHDR.readStarCache "star_cache.dat"
       (store "star_cache.dat" Cases.oversizedCache Samples.noFiles)
       (StarsHDR.constructed Samples.hipparcosOnly)
     = Throws "std::length_error".
Proof.
  split; [apply cacheFile_store_same|].
  split; [exact oversizedCache_length|].
  split.
  { do 3 eexists. unfold Cases.oversizedCache. apply headerOf_words; cbn; lia. }
  split; [discriminate|].
  unfold StarsHDR.readStarCache. rewrite cacheFile_store_same.
  rewrite deserializeCache_too_long; [reflexivity|].
  rewrite oversizedCache_length. lia.
Qed.

(** C2, amended.  For a cache file that is not empty and shorter than 2^31
    bytes: if its version word differs from [cCacheVersion], or its catalog
    word differs from the bit mask of the configured catalogs,
    [readStarCache] returns [false] and the object, its star list included,
    is unchanged. *)
Theorem cache_invalidation (sCacheFile : string) (w : World)
  (st : StarsHDR.Stars) (file : list Byte.byte) :
  cacheFile w sCacheFile = Some file ->
  0 < Z.of_nat (List.length file) < 2 ^ 31 ->
  (let '(cacheVersion, catalogs, _, _) := headerOf file in
   cacheVersion <> cCacheVersion
   \/ catalogs <> StarsHDR.catalogBits (StarsHDR.mCatalogs st)) ->
  StarsHDR.readStarCache sCacheFile w st = Returns (false, st).
Proof.
  intros Hf Hn Hh. unfold StarsHDR.readStarCache. rewrite Hf.
  rewrite deserializeCache_miss by assumption.
  cbn [obind fst snd]. now rewrite StarsHDR_setStars_same.
Qed.

Lemma cache_invalidation_witness :
  StarsHDR.readStarCache "star_cache.dat"
    (store "star_cache.dat" (serializeCache 1 [Samples.sirius]) Samples.noFiles)
    (StarsHDR.constructed (fun t => Some "catalog.dat"%string))
  = Returns (false, StarsHDR.constructed (fun t => Some "catalog.dat"%string)).
Proof.
  apply (cache_invalidation "star_cache.dat"
           (store "star_cache.dat" (serializeCache 1 [Samples.sirius]) Samples.noFiles)
           (StarsHDR.constructed (fun t => Some "catalog.dat"%string))
           (serializeCache 1 [Samples.sirius])).
  - reflexivity.
  - cbn. lia.
  - right. vm_compute. discriminate.
Defined.

(** An empty cache file: [&data[0]] is taken of an empty vector. *)
Example empty_cache_file :
  StarsHDR.readStarCache "star_cache.dat"
    (store "star_cache.dat" [] Samples.noFiles)
    (StarsHDR.constructed Samples.hipparcosOnly)
  = Undefined (IndexOutOfRange 0 0).
Proof. reflexivity. Qed.

(** A cache file that ends after its header and announces one star: the
    revision with [Star star{}] appends a star of zeros, the revision with
    [Star star;] copies a star that was never given a value. *)
Example truncated_cache_file :
  StarsHDR.readStarCache "star_cache.dat"
    (store "star_cache.dat" Cases.truncatedCache Samples.noFiles)
    (StarsHDR.constructed Samples.hipparcosOnly)
  = Returns (true, StarsHDR.setStars (StarsHDR.constructed Samples.hipparcosOnly)
                     [Cases.zeroStar])
  /\ StarsGaia.readStarCache "star_cache.dat"
       (store "star_cache.dat" Cases.truncatedCache Samples.noFiles)
       (StarsGaia.constructed Samples.hipparcosAlone)
     = Undefined IndeterminateValue.
Proof. split; reflexivity. Qed.

(* ================================================================== *)
(** * Shader variant selector *)
(* ================================================================== *)

Lemma DrawMode_eqb_eq (a b : StarsHDR.DrawMode) :
  StarsHDR.DrawMode_eqb a b = true <-> a = b.
Proof. destruct a, b; cbn; split; intros H; congruence. Qed.

Lemma DrawMode_eqb_refl (a : StarsHDR.DrawMode) : StarsHDR.DrawMode_eqb a a = true.
Proof. now apply DrawMode_eqb_eq. Qed.

Lemma Do_clean (st : StarsHDR.Stars) :
  StarsHDR.mShaderDirty st = false -> StarsHDR.Do st = st.
Proof. intros H. unfold StarsHDR.Do. now rewrite H. Qed.

Lemma Do_idempotent (st : StarsHDR.Stars) :
  StarsHDR.Do (StarsHDR.Do st) = StarsHDR.Do st.
Proof.
  apply Do_clean. unfold StarsHDR.Do.
  destruct (StarsHDR.mShaderDirty st) eqn:E; [reflexivity|exact E].
Qed.

Lemma Do_iter (n : nat) (st : StarsHDR.Stars) :
  Nat.iter n StarsHDR.Do (StarsHDR.Do st) = StarsHDR.Do st.
Proof.
  induction n as [|n IH]; [reflexivity|].
  change (Nat.iter (S n) StarsHDR.Do (StarsHDR.Do st))
    with (StarsHDR.Do (Nat.iter n StarsHDR.Do (StarsHDR.Do st))).
  rewrite IH. apply Do_idempotent.
Qed.

(** C7. Shader variant state machine.  A setter called with a value that
    differs from the current one raises [mShaderDirty] and stores the
    value, a setter called with the current value changes nothing; no
    setter compiles: both shader programs stay as they are.  [Do] on a
    raised flag replaces both programs by linked ones built from the
    sources of the current draw mode, each source headed by the version
    line, the HDR define when HDR is enabled and the define of the draw
    mode, and clears the flag; [Do] on a cleared flag changes nothing, so
    any number of further [Do] calls after one [Do] compile nothing. *)
Theorem shader_variant_state_machine (st : StarsHDR.Stars) :
  (forall value,
     StarsHDR.mShaderDirty (StarsHDR.setDrawMode value st)
     = StarsHDR.mShaderDirty st
       || negb (StarsHDR.DrawMode_eqb (StarsHDR.mDrawMode st) value)
     /\ StarsHDR.mDrawMode (StarsHDR.setDrawMode value st) = value
     /\ StarsHDR.mEnableHDR (StarsHDR.setDrawMode value st) = StarsHDR.mEnableHDR st
     /\ StarsHDR.compilations (StarsHDR.setDrawMode value st) = StarsHDR.compilations st
     /\ StarsHDR.mStarShader (StarsHDR.setDrawMode value st) = StarsHDR.mStarShader st
     /\ StarsHDR.mBackgroundShader (StarsHDR.setDrawMode value st)
        = StarsHDR.mBackgroundShader st)
  /\ (forall value,
        StarsHDR.mShaderDirty (StarsHDR.setEnableHDR value st)
        = StarsHDR.mShaderDirty st || negb (Bool.eqb (StarsHDR.mEnableHDR st) value)
        /\ StarsHDR.mEnableHDR (StarsHDR.setEnableHDR value st) = value
        /\ StarsHDR.mDrawMode (StarsHDR.setEnableHDR value st) = StarsHDR.mDrawMode st
        /\ StarsHDR.compilations (StarsHDR.setEnableHDR value st)
           = StarsHDR.compilations st
        /\ StarsHDR.mStarShader (StarsHDR.setEnableHDR value st) = StarsHDR.mStarShader st
        /\ StarsHDR.mBackgroundShader (StarsHDR.setEnableHDR value st)
           = StarsHDR.mBackgroundShader st)
  /\ StarsHDR.setDrawMode (StarsHDR.mDrawMode st) st = st
  /\ StarsHDR.setEnableHDR (StarsHDR.mEnableHDR st) st = st
  /\ StarsHDR.mShaderDirty (StarsHDR.Do st) = false
  /\ StarsHDR.mDrawMode (StarsHDR.Do st) = StarsHDR.mDrawMode st
  /\ StarsHDR.mEnableHDR (StarsHDR.Do st) = StarsHDR.mEnableHDR st
  /\ (StarsHDR.mShaderDirty st = true ->
      forall defines : list string,
        defines
        = ["#version 330"%string]
          ++ (if StarsHDR.mEnableHDR st then ["#define ENABLE_HDR"%string] else [])
          ++ [match StarsHDR.mDrawMode st with
              | StarsHDR.ePoint => "#define DRAWMODE_POINT"%string
              | StarsHDR.eSmoothPoint => "#define DRAWMODE_SMOOTH_POINT"%string
              | StarsHDR.eDisc => "#define DRAWMODE_DISC"%string
              | StarsHDR.eSmoothDisc => "#define DRAWMODE_SMOOTH_DISC"%string
              | StarsHDR.eSprite => "#define DRAWMODE_SPRITE"%string
              end] ->
        StarsHDR.mStarShader (StarsHDR.Do st)
        = match StarsHDR.mDrawMode st with
          | StarsHDR.ePoint | StarsHDR.eSmoothPoint =>
              {| StarsHDR.vertexStage :=
                   Some (defines, [StarsHDR.cStarsSnippets; StarsHDR.cStarsVertOnePixel]);
                 StarsHDR.geometryStage := None;
                 StarsHDR.fragmentStage :=
                   Some (defines, [StarsHDR.cStarsSnippets; StarsHDR.cStarsFragOnePixel]);
                 StarsHDR.linked := true |}
          | StarsHDR.eDisc | StarsHDR.eSmoothDisc | StarsHDR.eSprite =>
              {| StarsHDR.vertexStage :=
                   Some (defines, [StarsHDR.cStarsSnippets; StarsHDR.cStarsVert]);
                 StarsHDR.geometryStage :=
                   Some (defines, [StarsHDR.cStarsSnippets; StarsHDR.cStarsGeom]);
                 StarsHDR.fragmentStage :=
                   Some (defines, [StarsHDR.cStarsSnippets; StarsHDR.cStarsFrag]);
                 StarsHDR.linked := true |}
          end
        /\ StarsHDR.mBackgroundShader (StarsHDR.Do st)
           = {| StarsHDR.vertexStage := Some (defines, [StarsHDR.cBackgroundVert]);
                StarsHDR.geometryStage := None;
                StarsHDR.fragmentStage := Some (defines, [StarsHDR.cBackgroundFrag]);
                StarsHDR.linked := true |}
        /\ StarsHDR.compilations (StarsHDR.Do st) = S (StarsHDR.compilations st))
  /\ (StarsHDR.mShaderDirty st = false -> StarsHDR.Do st = st)
  /\ (forall n, Nat.iter n StarsHDR.Do (StarsHDR.Do st) = StarsHDR.Do st).
Proof.
  split; [|split; [|split; [|split; [|split; [|split; [|split; [|split; [|split]]]]]]]].
  - intros value. unfold StarsHDR.setDrawMode.
    destruct (StarsHDR.DrawMode_eqb (StarsHDR.mDrawMode st) value) eqn:E; cbn;
      [rewrite orb_false_r; apply DrawMode_eqb_eq in E|rewrite orb_true_r];
      repeat split; assumption.
  - intros value. unfold StarsHDR.setEnableHDR.
    destruct (Bool.eqb (StarsHDR.mEnableHDR st) value) eqn:E; cbn;
      [rewrite orb_false_r; apply Bool.eqb_prop in E|rewrite orb_true_r];
      repeat split; assumption.
  - unfold StarsHDR.setDrawMode. now rewrite DrawMode_eqb_refl.
  - unfold StarsHDR.setEnableHDR. now rewrite Bool.eqb_reflx.
  - unfold StarsHDR.Do. destruct (StarsHDR.mShaderDirty st) eqn:E; [reflexivity|exact E].
  - unfold StarsHDR.Do. now destruct (StarsHDR.mShaderDirty st).
  - unfold StarsHDR.Do. now destruct (StarsHDR.mShaderDirty st).
  - intros Hd defines ->. unfold StarsHDR.Do. rewrite Hd.
    cbn [StarsHDR.mStarShader StarsHDR.mBackgroundShader StarsHDR.compilations].
    unfold StarsHDR.definesOf, StarsHDR.isPointMode.
    destruct (StarsHDR.mDrawMode st), (StarsHDR.mEnableHDR st); repeat split.
  - apply Do_clean.
  - intros n. apply Do_iter.
Qed.

(* ================================================================== *)
(** * Catalog parser *)
(* ================================================================== *)

Example hipparcosLine_text :
  Samples.hipparcosLine
  = "x|x|x|x|x|x|x|x|90.0|0.0|x|100|x|x|x|x|x|x|x|x|x|x|x|x|x|x|x|x|x|x|x|1234|5.65|x|5.0"%string.
Proof. reflexivity. Qed.

Example thirteenFields_text :
  Samples.thirteenFields = "x|x|x|x|x|x|x|x|x|x|x|x|x"%string.
Proof. reflexivity. Qed.

Example hipparcosLine_parsed :
  @StarsHDR.catalogLine PlainDecimal.extraction Samples.hipparcosOnly
     StarsHDR.eHipparcos Samples.hipparcosLine
  = Ok (Parsed Samples.sunlike).
Proof. reflexivity. Qed.

Lemma subscript_in_range {A : Type} (v : list A) (i : Z) :
  in_range v i -> exists a, subscript v i = Ok a.
Proof.
  intros [Hlo Hhi]. unfold subscript.
  destruct (Z.ltb_spec i 0) as [|_]; [lia|].
  destruct (nth_error v (Z.to_nat i)) as [a|] eqn:E; [now exists a|].
  apply nth_error_None in E. lia.
Qed.

Lemma subscript_Ok_in_range {A : Type} (v : list A) (i : Z) (a : A) :
  subscript v i = Ok a -> in_range v i.
Proof.
  unfold subscript, in_range.
  destruct (Z.ltb_spec i 0) as [|Hi]; [discriminate|].
  destruct (nth_error v (Z.to_nat i)) as [b|] eqn:E; [|discriminate].
  intros _. assert (Z.to_nat i < List.length v)%nat by (apply nth_error_Some; congruence).
  lia.
Qed.

Section ParserFacts.

Context {SE : StreamExtraction}.

Lemma parseLine_short (row : list Z) (nh lh : bool) (items : list string) :
  (List.length items < 13)%nat -> parseLine row nh lh items = Ok TooFewTokens.
Proof.
  intros H. unfold parseLine.
  destruct (Z.ltb_spec 12 (Z.of_nat (List.length items))); [lia|reflexivity].
Qed.

Lemma parseLine_duplicate (row : list Z) (items : list string) (tok : string) (n : Z) :
  (13 <= List.length items)%nat ->
  subscript items (column row eHipp) = Ok tok ->
  fromString (T := Z) tok = Some n ->
  parseLine row true true items = Ok InHipparcos.
Proof.
  intros Hlen Htok Hn. unfold parseLine.
  destruct (Z.ltb_spec 12 (Z.of_nat (List.length items))); [|lia].
  cbn [andb]. rewrite Htok. cbn [bind]. unfold parses. rewrite Hn. reflexivity.
Qed.

(** What the parser does with a line once the cross-reference test let it
    pass. *)
Lemma parseLine_not_skipped (row : list Z) (nh lh : bool) (items : list string) :
  (13 <= List.length items)%nat ->
  (nh && lh = true ->
   exists tok, subscript items (column row eHipp) = Ok tok
               /\ fromString (T := Z) tok = None) ->
  parseLine row nh lh items =
  (v <- subscript items (column row eVmag) ;;
   b <- subscript items (column row eBmag) ;;
   r <- subscript items (column row eRect) ;;
   d <- subscript items (column row eDecl) ;;
   p <- (if 0 <? column row ePara
         then tok <- subscript items (column row ePara) ;;
              Ok (match fromString (T := float) tok with
                  | Some x => x
                  | None => Binary32.zero
                  end)
         else Ok Binary32.zero) ;;
   match fromString (T := float) v, fromString (T := float) b,
         fromString (T := float) r, fromString (T := float) d with
   | Some vm, Some bm, Some ra, Some de =>
       Ok (Parsed {| mVMagnitude := vm;
                     mBMagnitude := bm;
                     mAscension := normalizeAscension ra;
                     mDeclination := normalizeDeclination de;
                     mParallax := p |})
   | _, _, _, _ => Ok Unparsable
   end).
Proof.
  intros Hlen Hskip. unfold parseLine.
  destruct (Z.ltb_spec 12 (Z.of_nat (List.length items))); [|lia].
  destruct (nh && lh) eqn:E.
  - destruct (Hskip eq_refl) as (tok & Htok & Hnone).
    rewrite Htok. cbn [bind]. unfold parses. rewrite Hnone. reflexivity.
  - reflexivity.
Qed.

End ParserFacts.

(** C3 as stated fails: with Hipparcos configured, a Tycho line of 35
    tokens whose four fields parse, and whose cross-reference column holds
    a number, appends no record. *)
Lemma parser_line_rule_counterexample :
  let items := tokenize "|" Samples.tychoLineInHipparcos in
  List.length items = 35%nat
  /\ PlainDecimal.float_of (nth 34 items EmptyString) = Some (Binary32.of_Z 5)
  /\ PlainDecimal.float_of (nth 32 items EmptyString)
     = Some (Binary32.of_decimal false 565 2)
  /\ PlainDecimal.float_of (nth 8 items EmptyString) = Some (Binary32.of_Z 90)
  /\ PlainDecimal.float_of (nth 9 items EmptyString) = Some Binary32.zero
  /\ @StarsHDR.catalogLine PlainDecimal.extraction Samples.hipparcosAndTycho
       StarsHDR.eTycho Samples.tychoLineInHipparcos = Ok InHipparcos
  /\ appended InHipparcos = [].
Proof. repeat split. Qed.

Section DeduplicationFacts.

Context {SE : StreamExtraction}.

Lemma parseLine_cross_referenced (row : list Z) (items : list string)
  (tok : string) (n : Z) :
  subscript items (column row eHipp) = Ok tok ->
  fromString (T := Z) tok = Some n ->
  exists r, parseLine row true true items = Ok r /\ appended r = [].
Proof.
  intros Htok Hn.
  destruct (Nat.lt_ge_cases (List.length items) 13) as [Hshort|Hlong].
  - exists TooFewTokens. split; [now apply parseLine_short|reflexivity].
  - exists InHipparcos. split; [now apply (parseLine_duplicate row items tok n)|reflexivity].
Qed.

Lemma readLines_cross_referenced (row : list Z) (delim : ascii)
  (lines : list string) (stars : list Star) :
  Forall (crossReferenced row delim) lines ->
  readLines row delim true true lines stars = Ok stars.
Proof.
  intros H. induction H as [|line lines (tok & n & Htok & Hn) _ IH]; [reflexivity|].
  cbn [readLines].
  destruct (parseLine_cross_referenced row _ tok n Htok Hn) as (r & Hr & Ha).
  rewrite Hr. cbn [bind]. rewrite Ha, app_nil_r. exact IH.
Qed.

End DeduplicationFacts.

(** C10 fails on the code.  A Hipparcos line of thirteen tokens passes the
    test [items.size() > 12] and is then read at index 34; a Gaia line read
    while Hipparcos is configured too is read at index -1, the entry of the
    Gaia row for the Hipparcos number, and loading that configuration runs
    into it. *)
Theorem token_index_out_of_range :
  List.length (tokenize "|" Samples.thirteenFields) = 13%nat
  /\ StarsHDR.catalogLine (SE := PlainDecimal.extraction) Samples.hipparcosOnly
       StarsHDR.eHipparcos Samples.thirteenFields
     = OutOfRange 34 13
  /\ StarsGaia.catalogLine (SE := PlainDecimal.extraction) Samples.hipparcosAlone
       StarsGaia.eHipparcos Samples.thirteenFields
     = OutOfRange 34 13
  /\ List.length (tokenize "," Samples.gaiaLine) = 56%nat
  /\ StarsGaia.catalogLine (SE := PlainDecimal.extraction) Samples.gaiaAndHipparcos
       StarsGaia.eGaia Samples.gaiaLine
     = OutOfRange (-1) 56
  /\ StarsGaia.loadStars (SE := PlainDecimal.extraction) "star_cache.dat"
       (Samples.withCatalog "gaia.csv" [Samples.gaiaLine]
          (Samples.withCatalog "hip_main.dat" [Samples.hipparcosLine] Samples.noFiles))
       (StarsGaia.constructed Samples.gaiaAndHipparcos)
     = Undefined (IndexOutOfRange (-1) 56).
Proof. repeat split. Qed.

(* ================================================================== *)
(** * Ingestion orchestrator *)
(* ================================================================== *)

Example gaiaLine_parsed :
  StarsGaia.catalogLine (SE := PlainDecimal.extraction) Samples.gaiaAndTycho
    StarsGaia.eGaia Samples.gaiaLine
  = Ok (Parsed Samples.sunlike).
Proof. reflexivity. Qed.

Example tychoLineAlone_parsed :
  exists s,
    StarsGaia.catalogLine (SE := PlainDecimal.extraction) Samples.gaiaAndTycho
      StarsGaia.eTycho Samples.tychoLineAlone
    = Ok (Parsed s)
    /\ mVMagnitude s = Binary32.of_Z 9.
Proof. eexists. split; reflexivity. Qed.

(** C6 as stated fails: with Gaia and Tycho configured, and no cache, the
    loaded stars are the record of the Gaia file; the Tycho file is not
    read, and an error is logged. *)
Lemma gaia_conflict_counterexample :
  StarsGaia.catalogLine (SE := PlainDecimal.extraction) Samples.gaiaAndTycho
    StarsGaia.eGaia Samples.gaiaLine
  = Ok (Parsed Samples.sunlike)
  /\ exists w',
    StarsGaia.loadStars (SE := PlainDecimal.extraction) "star_cache.dat"
      (Samples.withCatalog "gaia.csv" [Samples.gaiaLine]
         (Samples.withCatalog "tyc_main.dat" [Samples.tychoLineAlone] Samples.noFiles))
      (StarsGaia.constructed Samples.gaiaAndTycho)
    = Returns (w', StarsGaia.setStars (StarsGaia.constructed Samples.gaiaAndTycho)
                     [Samples.sunlike])
    /\ logged w'
       = [(Error,
           "Failed to load star catalogs: Gaia cannot be combined with other catalogues!"%string)].
Proof. split; [reflexivity|]. eexists. split; reflexivity. Qed.

(* ================================================================== *)
(** * Vertex table builder *)
(* ================================================================== *)

(** C8 fails on the code.  [mLoadedMaxMagnitude] starts at
    [std::numeric_limits<float>::min()], the smallest positive normal
    float, not at the lowest float.  A catalog whose only star is Sirius
    (visual magnitude -1.44) leaves [mLoadedMaxMagnitude] at that start
    value, which is no magnitude of the loaded set and lies above its
    maximum; [mLoadedMinMagnitude] is the magnitude of Sirius. *)
Theorem loaded_max_magnitude_of_negative_set :
  exists (w' : World) (st' : StarsGaia.Stars) (data : list StarsGaia.Vertex) (s : Star),
    StarsGaia.init (SE := PlainDecimal.extraction) "star_cache.dat"
      (Samples.withCatalog "hip_main.dat" [Samples.siriusLine] Samples.noFiles)
      (StarsGaia.constructed Samples.hipparcosAlone)
    = Returns (w', st', data)
    /\ StarsGaia.mStars st' = [s]
    /\ mVMagnitude s = Binary32.of_decimal true 144 2
    /\ StarsGaia.mLoadedMinMagnitude st' = mVMagnitude s
    /\ StarsGaia.mLoadedMaxMagnitude st' = Binary32.numeric_limits_min
    /\ StarsGaia.mLoadedMaxMagnitude st' <> mVMagnitude s
    /\ Binary32.ltb (mVMagnitude s) (StarsGaia.mLoadedMaxMagnitude st') = true.
Proof.
  do 4 eexists. split; [vm_compute; reflexivity|].
  repeat split. discriminate.
Qed.

(* ================================================================== *)
(** * Colour mapping *)
(* ================================================================== *)

(** C5 fails on the code at the upper boundary.  A star with B - V = -0.4
    gets index 0, the first entry of the table; a star with B - V = 2.0
    gets index 20, the entry [0xfff3ea], while the last entry of the table
    of 47 colours is [0xff5200] at index 46. *)
Theorem colour_at_clamp_boundaries :
  bvIndex Samples.bluest = minIdx
  /\ Binary32.to_int (normalizedIndex Samples.bluest) = Some 0
  /\ spectralColor spectralColors Samples.bluest = Returns 0x9bb2ff
  /\ nth_error spectralColors 0 = Some 0x9bb2ff
  /\ bvIndex Samples.reddest = maxIdx
  /\ normalizedIndex Samples.reddest = Binary32.of_decimal false 205 1
  /\ Binary32.to_int (normalizedIndex Samples.reddest) = Some 20
  /\ spectralColor spectralColors Samples.reddest = Returns 0xfff3ea
  /\ nth_error spectralColors 46 = Some 0xff5200
  /\ List.length spectralColors = 47%nat.
Proof. repeat split. Qed.

(* ================================================================== *)
(** * Rounding of the binary32 operations *)
(* ================================================================== *)

Lemma bpow_gt_0 (e : Z) : (0 < bpow e)%R.
Proof. apply powerRZ_lt. lra. Qed.

Lemma bpow_plus (a b : Z) : bpow (a + b) = (bpow a * bpow b)%R.
Proof. apply powerRZ_add. lra. Qed.

Lemma bpow_IZR (e : Z) : 0 <= e -> bpow e = IZR (2 ^ e).
Proof.
  intros He. unfold bpow. rewrite <- (Z2Nat.id e) at 1 by lia.
  rewrite <- pow_powerRZ. rewrite pow_IZR. now rewrite Z2Nat.id by lia.
Qed.

Lemma bpow_ge_1 (e : Z) : 0 <= e -> (1 <= bpow e)%R.
Proof.
  intros He. rewrite bpow_IZR by assumption. apply IZR_le.
  pose proof (Z.pow_pos_nonneg 2 e ltac:(lia) He). lia.
Qed.

Lemma bpow_le (a b : Z) : a <= b -> (bpow a <= bpow b)%R.
Proof.
  intros H. replace b with (a + (b - a)) by ring. rewrite bpow_plus.
  pose proof (bpow_gt_0 a). pose proof (bpow_ge_1 (b - a) ltac:(lia)). nra.
Qed.

Lemma bpow_lt (a b : Z) : a < b -> (bpow a < bpow b)%R.
Proof.
  intros H. replace b with (a + (b - a)) by ring. rewrite bpow_plus.
  pose proof (bpow_gt_0 a). 
  assert (2 <= bpow (b - a))%R.
  { rewrite bpow_IZR by lia. apply IZR_le.
    replace (b - a) with (Z.succ (b - a - 1)) by lia. rewrite Z.pow_succ_r by lia.
    pose proof (Z.pow_pos_nonneg 2 (b - a - 1) ltac:(lia) ltac:(lia)). lia. }
  nra.
Qed.

Lemma bpow_lt_inv (a b : Z) : (bpow a < bpow b)%R -> a < b.
Proof.
  intros H. destruct (Z_lt_ge_dec a b) as [|Hge]; [assumption|].
  pose proof (bpow_le b a ltac:(lia)). lra.
Qed.

Lemma F2R_scale (m e n : Z) : 0 <= n -> F2R (m * 2 ^ n) e = F2R m (e + n).
Proof.
  intros Hn. unfold F2R. rewrite bpow_plus, mult_IZR, (bpow_IZR n) by assumption. ring.
Qed.

Lemma F2R_le (m1 m2 e : Z) : m1 <= m2 -> (F2R m1 e <= F2R m2 e)%R.
Proof.
  intros H. unfold F2R. apply Rmult_le_compat_r; [left; apply bpow_gt_0|now apply IZR_le].
Qed.

Lemma F2R_lt (m1 m2 e : Z) : m1 < m2 -> (F2R m1 e < F2R m2 e)%R.
Proof.
  intros H. unfold F2R. apply Rmult_lt_compat_r; [apply bpow_gt_0|now apply IZR_lt].
Qed.

Lemma F2R_le_inv (m1 m2 e : Z) : (F2R m1 e <= F2R m2 e)%R -> m1 <= m2.
Proof.
  intros H. destruct (Z_le_gt_dec m1 m2) as [|Hgt]; [assumption|].
  pose proof (F2R_lt m2 m1 e ltac:(lia)). lra.
Qed.

Lemma F2R_lt_inv (m1 m2 e : Z) : (F2R m1 e < F2R m2 e)%R -> m1 < m2.
Proof.
  intros H. destruct (Z_lt_ge_dec m1 m2) as [|Hge]; [assumption|].
  pose proof (F2R_le m2 m1 e ltac:(lia)). lra.
Qed.

(** Bit length of a mantissa. *)
Lemma Zdigits2_nonneg (m : Z) : 0 <= Zdigits2 m.
Proof. destruct m; cbn; lia. Qed.

Lemma F2R_digits (m e : Z) :
  0 < m -> (bpow (Zdigits2 m - 1 + e) <= F2R m e < bpow (Zdigits2 m + e))%R.
Proof.
  intros Hm. destruct m as [|p|p]; try lia. cbn [Zdigits2].
  pose proof (digits2_pos_bounds p) as [Hlo Hhi].
  rewrite !bpow_plus. unfold F2R. pose proof (bpow_gt_0 e) as He.
  rewrite (bpow_IZR (Z.pos (digits2_pos p) - 1)), (bpow_IZR (Z.pos (digits2_pos p))) by lia.
  apply IZR_le in Hlo. apply IZR_lt in Hhi.
  set (be := bpow e) in *. set (a := IZR (2 ^ (Z.pos (digits2_pos p) - 1))) in *.
  set (b := IZR (2 ^ Z.pos (digits2_pos p))) in *. set (c := IZR (Z.pos p)) in *.
  split; nra.
Qed.

Lemma digits_monotone (m1 e1 m2 e2 : Z) :
  0 < m1 -> 0 < m2 -> (F2R m1 e1 <= F2R m2 e2)%R ->
  Zdigits2 m1 + e1 <= Zdigits2 m2 + e2.
Proof.
  intros H1 H2 H.
  pose proof (F2R_digits m1 e1 H1) as [Hlo _].
  pose proof (F2R_digits m2 e2 H2) as [_ Hhi].
  assert (Hlt : (bpow (Zdigits2 m1 - 1 + e1) < bpow (Zdigits2 m2 + e2))%R) by lra.
  apply bpow_lt_inv in Hlt. lia.
Qed.

(** ** Shifting a mantissa right *)


Lemma shr_1_spec (mrs : shr_record) :
  0 <= shr_m mrs ->
  shr_m (shr_1 mrs) = shr_m mrs / 2
  /\ inexact (shr_1 mrs) = Z.odd (shr_m mrs) || inexact mrs.
Proof.
  destruct mrs as [m r s]. cbn [shr_m]. intros Hm. unfold inexact.
  destruct m as [|p|p]; [| |lia].
  - cbn. split; [reflexivity|]. now destruct r, s.
  - destruct p as [q|q|]; cbn [shr_1 shr_m shr_r shr_s Z.odd]; split;
      try (destruct r, s; reflexivity).
    + rewrite Pos2Z.inj_xI. apply Z.div_unique with (r := 1); lia.
    + rewrite Pos2Z.inj_xO. apply Z.div_unique with (r := 0); lia.
Qed.

Lemma iter_pos_nat {A : Type} (f : A -> A) (p : positive) (x : A) :
  SpecFloat.iter_pos f p x = Nat.iter (Pos.to_nat p) f x.
Proof.
  revert x. induction p as [p IH|p IH|]; intros x; cbn [SpecFloat.iter_pos].
  - rewrite !IH. rewrite Pos2Nat.inj_xI. rewrite <- Nat.iter_add.
    rewrite <- Nat.iter_succ_r. f_equal. lia.
  - rewrite !IH. rewrite Pos2Nat.inj_xO. rewrite <- Nat.iter_add. f_equal. lia.
  - reflexivity.
Qed.

Lemma iter_shr_1 (n : nat) (mrs : shr_record) :
  0 <= shr_m mrs ->
  shr_m (Nat.iter n shr_1 mrs) = shr_m mrs / 2 ^ Z.of_nat n
  /\ (inexact (Nat.iter n shr_1 mrs) = true ->
      inexact mrs = true \/ shr_m mrs / 2 ^ Z.of_nat n * 2 ^ Z.of_nat n < shr_m mrs).
Proof.
  intros Hm. induction n as [|n [IHm IHi]].
  - cbn [Nat.iter nat_rect]. change (2 ^ Z.of_nat 0) with 1. rewrite Z.div_1_r.
    split; [reflexivity|]. intros H; now left.
  - change (Nat.iter (S n) shr_1 mrs) with (shr_1 (Nat.iter n shr_1 mrs)).
    set (r := Nat.iter n shr_1 mrs) in *.
    assert (Hr : 0 <= shr_m r).
    { rewrite IHm. apply Z.div_pos; [assumption|]. apply Z.pow_pos_nonneg; lia. }
    destruct (shr_1_spec r Hr) as [Sm Si].
    rewrite Nat2Z.inj_succ, Z.pow_succ_r by lia.
    assert (Hp : 0 < 2 ^ Z.of_nat n) by (apply Z.pow_pos_nonneg; lia).
    assert (Hdd : shr_m mrs / (2 * 2 ^ Z.of_nat n) = shr_m mrs / 2 ^ Z.of_nat n / 2).
    { rewrite (Z.mul_comm 2). now rewrite Z.div_div by lia. }
    split.
    + rewrite Sm, IHm. now rewrite Hdd.
    + rewrite Si, Hdd. intros H. apply orb_true_iff in H.
      pose proof (Z.mul_div_le (shr_m mrs) (2 ^ Z.of_nat n) Hp) as Hfl.
      set (q := shr_m mrs / 2 ^ Z.of_nat n) in *.
      pose proof (Z.mul_div_le q 2 ltac:(lia)) as Hfl2.
      destruct H as [Hodd|Hin].
      * right. rewrite IHm in Hodd. 
        assert (q / 2 * 2 < q).
        { rewrite Z.odd_spec in Hodd. destruct Hodd as [k Hk]. 
          assert (q / 2 = k) by (subst q; rewrite Hk; 
            rewrite Z.add_comm, Z.mul_comm, Z.div_add by lia; reflexivity).
          lia. }
        nia.
      * destruct (IHi Hin) as [|Hlt]; [now left|right]. nia.
Qed.

Lemma Zdigits2_bounds (m : Z) :
  0 < m -> 2 ^ (Zdigits2 m - 1) <= m < 2 ^ Zdigits2 m.
Proof. destruct m as [|p|p]; try lia. intros _. apply digits2_pos_bounds. Qed.

Lemma Zdigits2_unique (m k : Z) :
  0 < m -> 2 ^ (k - 1) <= m < 2 ^ k -> Zdigits2 m = k.
Proof.
  intros Hm [Hlo Hhi]. destruct m as [|p|p]; try lia. cbn [Zdigits2].
  assert (0 <= k).
  { destruct (Z_lt_ge_dec k 0) as [Hk|]; [|lia]. rewrite Z.pow_neg_r in Hhi; lia. }
  pose proof (digits2_pos_le p k ltac:(lia) Hhi).
  pose proof (digits2_pos_ge p k Hlo). lia.
Qed.

Lemma Zdigits2_div_pow2 (m n : Z) :
  0 <= m -> 0 <= n -> Zdigits2 (m / 2 ^ n) = Z.max 0 (Zdigits2 m - n).
Proof.
  intros Hm Hn.
  assert (Hp : 0 < 2 ^ n) by (apply Z.pow_pos_nonneg; lia).
  destruct (Z.eq_dec m 0) as [->|Hm0].
  { rewrite Z.div_0_l by lia. cbn. lia. }
  pose proof (Zdigits2_bounds m ltac:(lia)) as [Hlo Hhi].
  pose proof (Zdigits2_nonneg m) as Hd.
  destruct (Z_lt_ge_dec m (2 ^ n)) as [Hsmall|Hbig].
  - rewrite Z.div_small by lia. cbn [Zdigits2].
    assert (Zdigits2 m <= n).
    { destruct (Z_le_gt_dec (Zdigits2 m) n); [assumption|exfalso].
      assert (2 ^ n <= 2 ^ (Zdigits2 m - 1)) by (apply Z.pow_le_mono_r; lia). lia. }
    lia.
  - assert (Hdn : n < Zdigits2 m).
    { destruct (Z_lt_ge_dec n (Zdigits2 m)); [assumption|exfalso].
      assert (2 ^ Zdigits2 m <= 2 ^ n) by (apply Z.pow_le_mono_r; lia). lia. }
    rewrite Z.max_r by lia.
    apply Zdigits2_unique.
    + apply Z.div_str_pos. lia.
    + split.
      * apply Z.div_le_lower_bound; [assumption|].
        rewrite <- Z.pow_add_r by lia. replace (n + (Zdigits2 m - n - 1)) with (Zdigits2 m - 1) by lia.
        assumption.
      * apply Z.div_lt_upper_bound; [assumption|].
        rewrite <- Z.pow_add_r by lia. replace (n + (Zdigits2 m - n)) with (Zdigits2 m) by lia.
        assumption.
Qed.

Local Notation "'fexp32'" := (fexp 24 128).

Lemma fexp32_eq (e : Z) : fexp32 e = Z.max (e - 24) (-149).
Proof. reflexivity. Qed.

Lemma inexact_of_loc (m : Z) (l : location) :
  inexact (shr_record_of_loc m l) = true -> l <> loc_Exact.
Proof. destruct l as [|[]]; cbn; congruence. Qed.

Lemma shr_m_of_loc (m : Z) (l : location) : shr_m (shr_record_of_loc m l) = m.
Proof. now destruct l as [|[]]. Qed.

Lemma shr_fexp_spec (m e : Z) (l : location) :
  0 <= m -> e <= fexp32 (Zdigits2 m + e) ->
  forall mrs e', shr_fexp 24 128 m e l = (mrs, e') ->
    0 <= shr_m mrs
    /\ (F2R (shr_m mrs) e' <= F2R m e)%R
    /\ (inexact mrs = true -> l <> loc_Exact \/ (F2R (shr_m mrs) e' < F2R m e)%R)
    /\ e' = fexp32 (Zdigits2 (shr_m mrs) + e')
    /\ Zdigits2 (shr_m mrs) <= 24.
Proof.
  intros Hm HP mrs e'. unfold shr_fexp, shr.
  rewrite fexp32_eq in HP. rewrite !fexp32_eq.
  pose proof (Zdigits2_nonneg m) as HD.
  destruct (Z.max (Zdigits2 m + e - 24) (-149) - e) as [|p|p] eqn:En.
  - intros [= <- <-]. rewrite shr_m_of_loc.
    repeat split; try lia; try lra.
    intros H. left. now apply inexact_of_loc in H.
  - rewrite iter_pos_nat. intros [= <- <-].
    pose proof (iter_shr_1 (Pos.to_nat p) (shr_record_of_loc m l)) as Hit.
    rewrite shr_m_of_loc in Hit. destruct (Hit Hm) as [Mm Mi]. clear Hit.
    rewrite positive_nat_Z in Mm, Mi.
    set (r := Nat.iter (Pos.to_nat p) shr_1 (shr_record_of_loc m l)) in *.
    assert (Hp : 0 < 2 ^ Z.pos p) by (apply Z.pow_pos_nonneg; lia).
    pose proof (Z.mul_div_le m (2 ^ Z.pos p) Hp) as Hfl.
    assert (Hq : 0 <= m / 2 ^ Z.pos p) by (apply Z.div_pos; lia).
    rewrite Mm.
    rewrite <- (F2R_scale (m / 2 ^ Z.pos p) e (Z.pos p)) by lia.
    pose proof (Zdigits2_div_pow2 m (Z.pos p) Hm ltac:(lia)) as Hdq.
    repeat split.
    + assumption.
    + apply F2R_le. lia.
    + intros H. destruct (Mi H) as [Hl|Hlt].
      * left. now apply inexact_of_loc in Hl.
      * right. apply F2R_lt. lia.
    + rewrite Hdq. lia.
    + rewrite Hdq. lia.
  - lia.
Qed.

Lemma Zdigits2_le (a b : Z) : 0 <= a <= b -> Zdigits2 a <= Zdigits2 b.
Proof.
  intros [Ha Hab]. destruct (Z.eq_dec a 0) as [->|Hne]; [apply Zdigits2_nonneg|].
  pose proof (Zdigits2_bounds a ltac:(lia)) as [Hlo _].
  pose proof (Zdigits2_bounds b ltac:(lia)) as [_ Hhi].
  destruct (Z_le_gt_dec (Zdigits2 a) (Zdigits2 b)); [assumption|exfalso].
  assert (2 ^ Zdigits2 b <= 2 ^ (Zdigits2 a - 1)).
  { apply Z.pow_le_mono_r; [lia|]. pose proof (Zdigits2_nonneg b). lia. }
  lia.
Qed.

Lemma round_nearest_even_spec (mrs : shr_record) :
  let rm := round_nearest_even (shr_m mrs) (loc_of_shr_record mrs) in
  (rm = shr_m mrs \/ (rm = shr_m mrs + 1 /\ inexact mrs = true)).
Proof.
  destruct mrs as [m [|] [|]]; cbn; try (now left); try (now right).
  destruct (Z.even m); [now left|now right].
Qed.


Lemma canonical_exponent_le (m e k g : Z) :
  0 <= m -> e = fexp32 (Zdigits2 m + e) -> representable k g ->
  (F2R m e <= F2R k g)%R -> e <= g.
Proof.
  intros Hm He (Hk & Hdk & Hg) Hle. rewrite fexp32_eq in He.
  destruct (Z.eq_dec m 0) as [->|Hne].
  - cbn [Zdigits2] in He. lia.
  - pose proof (digits_monotone m e k g ltac:(lia) Hk Hle). lia.
Qed.

Lemma binary_round_aux_spec (sx : bool) (mx ex : Z) (lx : location) :
  0 <= mx -> ex <= fexp32 (Zdigits2 mx + ex) ->
  exists m2 e2,
    0 <= m2 /\ Zdigits2 m2 <= 24 /\ e2 = fexp32 (Zdigits2 m2 + e2)
    /\ binary_round_aux 24 128 sx mx ex lx
       = match m2 with
         | Z0 => S754_zero sx
         | Zpos m => if e2 <=? 104 then S754_finite sx m e2 else S754_infinity sx
         | Zneg _ => S754_nan
         end
    /\ (forall k g, representable k g ->
          (F2R mx ex <= F2R k g)%R ->
          (lx <> loc_Exact -> (F2R mx ex < F2R k g)%R) ->
          (F2R m2 e2 <= F2R k g)%R).
Proof.
  intros Hm HP. unfold binary_round_aux.
  destruct (shr_fexp 24 128 mx ex lx) as [mrs1 e1] eqn:E1.
  destruct (shr_fexp_spec mx ex lx Hm HP mrs1 e1 E1) as (H1m & H1le & H1in & H1c & H1d).
  pose proof (round_nearest_even_spec mrs1) as Hrm. cbv zeta in Hrm.
  set (rm := round_nearest_even (shr_m mrs1) (loc_of_shr_record mrs1)) in *.
  assert (Hrm0 : 0 <= rm) by (destruct Hrm as [->|[-> _]]; lia).
  assert (Hrmge : shr_m mrs1 <= rm) by (destruct Hrm as [->|[-> _]]; lia).
  assert (HP2 : e1 <= fexp32 (Zdigits2 rm + e1)).
  { pose proof (Zdigits2_le (shr_m mrs1) rm ltac:(lia)).
    rewrite fexp32_eq in *. lia. }
  destruct (shr_fexp 24 128 rm e1 loc_Exact) as [mrs2 e2] eqn:E2.
  destruct (shr_fexp_spec rm e1 loc_Exact Hrm0 HP2 mrs2 e2 E2)
    as (H2m & H2le & _ & H2c & H2d).
  exists (shr_m mrs2), e2. repeat split; try assumption.
  intros k g Hrep Hle Hlt.
  apply Rle_trans with (F2R rm e1); [assumption|].
  destruct Hrm as [->|[-> Hin]].
  - lra.
  - assert (Hs : (F2R (shr_m mrs1) e1 < F2R k g)%R).
    { destruct (H1in Hin) as [Hl|Hl]; [specialize (Hlt Hl)|]; lra. }
    assert (He1 : e1 <= g).
    { apply (canonical_exponent_le (shr_m mrs1) e1 k g); try assumption. lra. }
    replace g with (e1 + (g - e1)) in Hs |- * by ring.
    rewrite <- F2R_scale in Hs |- * by lia.
    apply F2R_lt_inv in Hs. apply F2R_le. lia.
Qed.


Lemma Zdigits2_lt_pow (m : Z) : 0 < m -> Zdigits2 m <= 24 -> m < 2 ^ 24.
Proof.
  intros Hm Hd. pose proof (Zdigits2_bounds m Hm) as [_ Hhi].
  assert (2 ^ Zdigits2 m <= 2 ^ 24) by (apply Z.pow_le_mono_r; lia). lia.
Qed.

Lemma binary_round_aux_below (sx : bool) (mx ex : Z) (lx : location) (k g : Z) :
  0 <= mx -> ex <= fexp32 (Zdigits2 mx + ex) ->
  representable k g -> g <= 104 ->
  (F2R mx ex <= F2R k g)%R ->
  (lx <> loc_Exact -> (F2R mx ex < F2R k g)%R) ->
  finite_below sx (F2R k g) (binary_round_aux 24 128 sx mx ex lx).
Proof.
  intros Hm HP Hrep Hg Hle Hlt.
  destruct (binary_round_aux_spec sx mx ex lx Hm HP)
    as (m2 & e2 & H0 & Hd & Hc & -> & Hb).
  specialize (Hb k g Hrep Hle Hlt).
  destruct m2 as [|p|p]; [now left| |lia].
  right. pose proof (canonical_exponent_le (Zpos p) e2 k g ltac:(lia) Hc Hrep Hb).
  destruct (Z.leb_spec e2 104); [|lia].
  exists p, e2. repeat split; [assumption|]. apply Zdigits2_lt_pow; [lia|assumption].
Qed.

Lemma binary_round_aux_mantissa (sx : bool) (mx ex : Z) (lx : location) :
  0 <= mx -> ex <= fexp32 (Zdigits2 mx + ex) ->
  match binary_round_aux 24 128 sx mx ex lx with
  | S754_finite _ m _ => Zpos m < 2 ^ 24
  | _ => True
  end.
Proof.
  intros Hm HP.
  destruct (binary_round_aux_spec sx mx ex lx Hm HP)
    as (m2 & e2 & H0 & Hd & Hc & -> & _).
  destruct m2 as [|p|p]; [exact I| |exact I].
  destruct (e2 <=? 104); [|exact I]. apply Zdigits2_lt_pow; [lia|assumption].
Qed.

(** ** Aligning and normalizing *)

Lemma iter_xO (mx d : positive) : Zpos (Pos.iter xO mx d) = Zpos mx * 2 ^ Zpos d.
Proof.
  induction d as [|d IH] using Pos.peano_ind.
  - cbn. lia.
  - rewrite Pos.iter_succ, Pos2Z.inj_xO, IH, Pos2Z.inj_succ, Z.pow_succ_r by lia. ring.
Qed.

Lemma shl_align_spec (mx : positive) (ex ex' : Z) :
  let ez := Z.min ex ex' in
  shl_align mx ex ex' = (Z.to_pos (Zpos mx * 2 ^ (ex - ez)), ez)
  /\ 0 < Zpos mx * 2 ^ (ex - ez).
Proof.
  cbv zeta. unfold shl_align.
  destruct (ex' - ex) as [|d|d] eqn:E.
  - rewrite Z.min_l by lia. replace (ex - ex) with 0 by lia. cbn [Z.pow].
    rewrite Z.mul_1_r. split; [reflexivity|lia].
  - rewrite Z.min_l by lia. replace (ex - ex) with 0 by lia. cbn [Z.pow].
    rewrite Z.mul_1_r. split; [reflexivity|lia].
  - rewrite Z.min_r by lia. replace (ex - ex') with (Zpos d) by lia.
    rewrite <- iter_xO. split; [reflexivity|lia].
Qed.

Lemma Zdigits2_mul_pow2 (m d : Z) :
  0 < m -> 0 <= d -> Zdigits2 (m * 2 ^ d) = Zdigits2 m + d.
Proof.
  intros Hm Hd. pose proof (Zdigits2_bounds m Hm) as [Hlo Hhi].
  assert (Hp : 0 < 2 ^ d) by (apply Z.pow_pos_nonneg; lia).
  pose proof (Zdigits2_nonneg m).
  assert (1 <= Zdigits2 m).
  { destruct m; try lia. cbn. lia. }
  apply Zdigits2_unique; [nia|].
  replace (Zdigits2 m + d - 1) with ((Zdigits2 m - 1) + d) by ring.
  rewrite !Z.pow_add_r by lia. nia.
Qed.

Lemma binary_round_below (sx : bool) (mx : positive) (ex k g : Z) :
  representable k g -> g <= 104 ->
  (F2R (Zpos mx) ex <= F2R k g)%R ->
  finite_below sx (F2R k g) (binary_round 24 128 sx mx ex).
Proof.
  intros Hrep Hg Hle. unfold binary_round.
  destruct (shl_align_spec mx ex (fexp32 (Zpos (digits2_pos mx) + ex))) as [-> Hpos].
  set (ez := Z.min ex (fexp32 (Zpos (digits2_pos mx) + ex))) in *.
  assert (Hez : 0 <= ex - ez) by (subst ez; lia).
  rewrite Z2Pos.id by assumption.
  assert (HF : F2R (Zpos mx * 2 ^ (ex - ez)) ez = F2R (Zpos mx) ex).
  { rewrite F2R_scale by assumption. f_equal. ring. }
  apply binary_round_aux_below; try assumption.
  - lia.
  - rewrite Zdigits2_mul_pow2 by lia. cbn [Zdigits2].
    replace (Zpos (digits2_pos mx) + (ex - ez) + ez) with (Zpos (digits2_pos mx) + ex) by ring.
    subst ez. lia.
  - now rewrite HF.
  - congruence.
Qed.

Lemma binary_round_mantissa (sx : bool) (mx : positive) (ex : Z) :
  match binary_round 24 128 sx mx ex with
  | S754_finite _ m _ => Zpos m < 2 ^ 24
  | _ => True
  end.
Proof.
  unfold binary_round.
  destruct (shl_align_spec mx ex (fexp32 (Zpos (digits2_pos mx) + ex))) as [-> Hpos].
  set (ez := Z.min ex (fexp32 (Zpos (digits2_pos mx) + ex))) in *.
  assert (Hez : 0 <= ex - ez) by (subst ez; lia).
  rewrite Z2Pos.id by assumption.
  apply binary_round_aux_mantissa; [lia|].
  rewrite Zdigits2_mul_pow2 by lia. cbn [Zdigits2].
  replace (Zpos (digits2_pos mx) + (ex - ez) + ez) with (Zpos (digits2_pos mx) + ex) by ring.
  subst ez. lia.
Qed.

Lemma binary_normalize_below (M ez k g : Z) :
  representable k g -> g <= 104 ->
  (0 <= F2R M ez <= F2R k g)%R ->
  finite_below false (F2R k g) (binary_normalize 24 128 M ez false).
Proof.
  intros Hrep Hg [H0 Hle].
  destruct M as [|p|p]; cbn [binary_normalize].
  - now left.
  - now apply binary_round_below.
  - exfalso. unfold F2R in H0. pose proof (bpow_gt_0 ez).
    assert (IZR (Zneg p) < 0)%R by (apply IZR_lt; lia). nra.
Qed.

Lemma binary_normalize_mantissa (M ez : Z) (sz : bool) :
  match binary_normalize 24 128 M ez sz with
  | S754_finite _ m _ => Zpos m < 2 ^ 24
  | _ => True
  end.
Proof.
  destruct M as [|p|p]; cbn [binary_normalize]; [exact I| |]; apply binary_round_mantissa.
Qed.

(** ** The value of a float and of a sum *)


Lemma aligned_value (mx : positive) (ex ez : Z) :
  ez <= ex -> F2R (Zpos (fst (shl_align mx ex ez))) ez = F2R (Zpos mx) ex.
Proof.
  intros H. destruct (shl_align_spec mx ex ez) as [-> Hpos]. cbn [fst].
  rewrite Z.min_r in * by lia. rewrite Z2Pos.id by assumption.
  rewrite F2R_scale by lia. f_equal. ring.
Qed.

Lemma F2R_cond_Zopp (s : bool) (m e : Z) :
  F2R (cond_Zopp s m) e = if s then (- F2R m e)%R else F2R m e.
Proof. destruct s; cbn [cond_Zopp]; [|reflexivity]. unfold F2R. rewrite opp_IZR. ring. Qed.

Lemma F2R_plus (a b e : Z) : F2R (a + b) e = (F2R a e + F2R b e)%R.
Proof. unfold F2R. rewrite plus_IZR. ring. Qed.

Lemma F2R_minus (a b e : Z) : F2R (a - b) e = (F2R a e - F2R b e)%R.
Proof. unfold F2R. rewrite minus_IZR. ring. Qed.

Lemma SFsub_finite (sx : bool) (mx : positive) (ex : Z) (sy : bool) (my : positive) (ey : Z) :
  exists M ez,
    SFsub 24 128 (S754_finite sx mx ex) (S754_finite sy my ey)
    = binary_normalize 24 128 M ez false
    /\ F2R M ez = (val (S754_finite sx mx ex) - val (S754_finite sy my ey))%R.
Proof.
  eexists. exists (Z.min ex ey). split; [reflexivity|].
  rewrite F2R_minus, !F2R_cond_Zopp, !aligned_value by lia. reflexivity.
Qed.

Lemma SFadd_finite (sx : bool) (mx : positive) (ex : Z) (sy : bool) (my : positive) (ey : Z) :
  exists M ez,
    SFadd 24 128 (S754_finite sx mx ex) (S754_finite sy my ey)
    = binary_normalize 24 128 M ez false
    /\ F2R M ez = (val (S754_finite sx mx ex) + val (S754_finite sy my ey))%R.
Proof.
  eexists. exists (Z.min ex ey). split; [reflexivity|].
  rewrite F2R_plus, !F2R_cond_Zopp, !aligned_value by lia. reflexivity.
Qed.

(** ** Division *)

Lemma new_location_exact (nb k : Z) : new_location nb k <> loc_Exact -> k <> 0.
Proof.
  unfold new_location, new_location_even, new_location_odd.
  intros H ->. destruct (Z.even nb); cbn in H; congruence.
Qed.

Lemma Zdigits2_ge_pow (q j : Z) : 0 < q -> 2 ^ (j - 1) <= q -> j <= Zdigits2 q.
Proof.
  intros Hq H. pose proof (Zdigits2_bounds q Hq) as [_ Hhi].
  destruct (Z_le_gt_dec j (Zdigits2 q)); [assumption|exfalso].
  assert (2 ^ Zdigits2 q <= 2 ^ (j - 1)).
  { apply Z.pow_le_mono_r; [lia|]. pose proof (Zdigits2_nonneg q). lia. }
  lia.
Qed.

Lemma SFdiv_core_binary_spec (m1 e1 m2 e2 : Z) :
  0 < m1 -> 0 < m2 ->
  forall q e' l, SFdiv_core_binary 24 128 m1 e1 m2 e2 = (q, e', l) ->
    0 <= q
    /\ e' <= fexp32 (Zdigits2 q + e')
    /\ (F2R q e' * F2R m2 e2 <= F2R m1 e1)%R
    /\ (l <> loc_Exact -> (F2R q e' * F2R m2 e2 < F2R m1 e1)%R).
Proof.
  intros H1 H2 q e' l. unfold SFdiv_core_binary.
  set (d1 := Zdigits2 m1). set (d2 := Zdigits2 m2).
  set (e0 := Z.min (fexp32 (d1 + e1 - (d2 + e2))) (e1 - e2)).
  set (s := e1 - e2 - e0).
  assert (Hs : 0 <= s) by (subst s e0; lia).
  set (m' := match s with Zpos _ => Z.shiftl m1 s | Z0 => m1 | Zneg _ => 0 end).
  assert (Hm' : m' = m1 * 2 ^ s).
  { subst m'. destruct s as [|p|p] eqn:Es; [cbn; lia| |lia].
    rewrite Z.shiftl_mul_pow2 by lia. reflexivity. }
  pose proof (Z_div_mod m' m2 ltac:(lia)) as Hdm.
  destruct (Z.div_eucl m' m2) as [q0 r0]. destruct Hdm as [Hdm Hr].
  intros [= <- <- <-].
  assert (Hp : 0 < 2 ^ s) by (apply Z.pow_pos_nonneg; lia).
  assert (Hq : 0 <= q0) by nia.
  assert (HX : F2R m1 e1 = (F2R (m2 * q0 + r0) e0 * bpow e2)%R).
  { rewrite <- Hdm, Hm', F2R_scale by assumption. unfold F2R.
    rewrite Rmult_assoc, <- bpow_plus. do 2 f_equal. subst s. ring. }
  assert (HY : (F2R q0 e0 * F2R m2 e2 = F2R (m2 * q0) e0 * bpow e2)%R).
  { unfold F2R. rewrite mult_IZR. ring. }
  pose proof (bpow_gt_0 e2) as Hb2.
  repeat split.
  - assumption.
  - destruct (Z_le_gt_dec (d1 - d2 + s) 0) as [Hj|Hj].
    + pose proof (Zdigits2_nonneg q0). subst e0 s. rewrite !fexp32_eq in *. lia.
    + assert (Hq1 : 2 ^ (d1 - d2 + s - 1) <= q0).
      { pose proof (Zdigits2_bounds m1 H1) as [Hlo1 _].
        pose proof (Zdigits2_bounds m2 H2) as [_ Hhi2]. fold d1 in Hlo1. fold d2 in Hhi2.
        pose proof (Zdigits2_nonneg m2) as Hd2. fold d2 in Hd2.
        assert (Hd1 : 1 <= d1) by (subst d1; destruct m1; try lia; cbn; lia).
        assert (Hpow : 2 ^ (d1 - 1) * 2 ^ s = 2 ^ d2 * 2 ^ (d1 - d2 + s - 1)).
        { rewrite <- !Z.pow_add_r by lia. f_equal. ring. }
        assert (Hpj : 0 < 2 ^ (d1 - d2 + s - 1)) by (apply Z.pow_pos_nonneg; lia).
        assert (m2 * 2 ^ (d1 - d2 + s - 1) <= m') by nia.
        destruct (Z_le_gt_dec (2 ^ (d1 - d2 + s - 1)) q0); [assumption|exfalso]. nia. }
      assert (Hq0 : 0 < q0).
      { pose proof (Z.pow_pos_nonneg 2 (d1 - d2 + s - 1) ltac:(lia) ltac:(lia)). lia. }
      pose proof (Zdigits2_ge_pow q0 (d1 - d2 + s) Hq0 Hq1).
      subst e0 s. rewrite !fexp32_eq in *. lia.
  - rewrite HX, HY. apply Rmult_le_compat_r; [lra|]. apply F2R_le. lia.
  - intros Hl. apply new_location_exact in Hl.
    rewrite HX, HY. apply Rmult_lt_compat_r; [lra|]. apply F2R_lt. lia.
Qed.

Lemma F2R_pos (m e : Z) : 0 < m -> (0 < F2R m e)%R.
Proof.
  intros H. unfold F2R. apply Rmult_lt_0_compat; [now apply IZR_lt|apply bpow_gt_0].
Qed.

Lemma SFdiv_below (x : spec_float) (my : positive) (ey : Z) (U : R) (k g : Z) :
  finite_below false U x ->
  representable k g -> g <= 104 ->
  (U <= F2R k g * F2R (Zpos my) ey)%R ->
  finite_below false (F2R k g) (SFdiv 24 128 x (S754_finite false my ey)).
Proof.
  intros [->|(m & e & -> & Hle & _)] Hrep Hg HU.
  - now left.
  - cbn [SFdiv xorb].
    destruct (SFdiv_core_binary 24 128 (Zpos m) e (Zpos my) ey) as [[q e'] l] eqn:E.
    destruct (SFdiv_core_binary_spec (Zpos m) e (Zpos my) ey ltac:(lia) ltac:(lia) q e' l E)
      as (Hq & HP & Hb & Hs).
    pose proof (F2R_pos (Zpos my) ey ltac:(lia)) as Hy.
    apply binary_round_aux_below; try assumption.
    + apply Rmult_le_reg_r with (F2R (Zpos my) ey); [assumption|lra].
    + intros Hl. specialize (Hs Hl).
      apply Rmult_lt_reg_r with (F2R (Zpos my) ey); [assumption|lra].
Qed.

Lemma SFadd_below (x : spec_float) (my : positive) (ey : Z) (U : R) (k g : Z) :
  finite_below false U x ->
  representable k g -> g <= 104 -> Zpos my < 2 ^ 24 -> (0 <= U)%R ->
  (U + F2R (Zpos my) ey <= F2R k g)%R ->
  finite_below false (F2R k g) (SFadd 24 128 x (S754_finite false my ey)).
Proof.
  intros [->|(m & e & -> & Hle & _)] Hrep Hg Hmy HU0 HU.
  - cbn [SFadd]. right. exists my, ey. repeat split; [lra|assumption].
  - destruct (SFadd_finite false m e false my ey) as (M & ez & -> & HM).
    cbn [val] in HM.
    pose proof (F2R_pos (Zpos m) e ltac:(lia)). pose proof (F2R_pos (Zpos my) ey ltac:(lia)).
    apply binary_normalize_below; try assumption. rewrite HM. lra.
Qed.

(** ** Conversion to [int] *)

Lemma to_int_below (x : spec_float) (U : R) (n : Z) :
  finite_below false U x -> (U < IZR (n + 1))%R -> 0 <= n < 2 ^ 31 ->
  exists i, Binary32.to_int x = Some i /\ 0 <= i <= n.
Proof.
  intros [->|(m & e & -> & Hle & _)] HU Hn.
  - exists 0. split; [reflexivity|lia].
  - assert (Hb : (F2R (Zpos m) e < F2R (n + 1) 0)%R).
    { unfold F2R at 2. unfold bpow. cbn [powerRZ]. lra. }
    unfold Binary32.to_int, Binary32.trunc.
    set (a := if 0 <=? e then Zpos m * 2 ^ e else Zpos m / 2 ^ (- e)).
    assert (Ha : 0 <= a <= n).
    { subst a. destruct (Z.leb_spec 0 e) as [He|He].
      - assert (HE : F2R (Zpos m) e = F2R (Zpos m * 2 ^ e) 0).
        { rewrite F2R_scale by assumption. f_equal. }
        rewrite HE in Hb. apply F2R_lt_inv in Hb.
        pose proof (Z.pow_pos_nonneg 2 e ltac:(lia) He). nia.
      - assert (Hp : 0 < 2 ^ (- e)) by (apply Z.pow_pos_nonneg; lia).
        assert (HE : F2R (n + 1) 0 = F2R ((n + 1) * 2 ^ (- e)) e).
        { rewrite F2R_scale by lia. f_equal. ring. }
        rewrite HE in Hb. apply F2R_lt_inv in Hb.
        split; [apply Z.div_pos; lia|].
        assert (Zpos m / 2 ^ (- e) < n + 1); [|lia].
        apply Z.div_lt_upper_bound; [assumption|]. lia. }
    exists a.
    assert (H1 : (- 2 ^ 31 <=? a) = true) by (apply Z.leb_le; lia).
    assert (H2 : (a <? 2 ^ 31) = true) by (apply Z.ltb_lt; lia).
    rewrite H1, H2. split; [reflexivity|assumption].
Qed.

(** ** Comparing dyadic constants *)

Lemma F2R_mult (a e b f : Z) : (F2R a e * F2R b f)%R = F2R (a * b) (e + f).
Proof. unfold F2R. rewrite mult_IZR, bpow_plus. ring. Qed.

Lemma F2R_le_dyadic (m1 e1 m2 e2 : Z) :
  m1 * 2 ^ (e1 - Z.min e1 e2) <= m2 * 2 ^ (e2 - Z.min e1 e2) ->
  (F2R m1 e1 <= F2R m2 e2)%R.
Proof.
  intros H. apply (F2R_le _ _ (Z.min e1 e2)) in H.
  rewrite !F2R_scale in H by lia.
  now replace (Z.min e1 e2 + (e1 - Z.min e1 e2)) with e1 in H by ring;
    replace (Z.min e1 e2 + (e2 - Z.min e1 e2)) with e2 in H by ring.
Qed.

Lemma F2R_small_exponent (m : positive) (e b : Z) :
  Zpos m < 2 ^ 24 -> e < b -> (F2R (Zpos m) e <= F2R 1 (b + 23))%R.
Proof.
  intros Hm He. apply Rle_trans with (F2R (2 ^ 24) e); [apply F2R_le; lia|].
  replace (2 ^ 24) with (1 * 2 ^ 24) by lia. rewrite F2R_scale by lia.
  unfold F2R. apply Rmult_le_compat_l; [lra|]. apply bpow_le. lia.
Qed.

Lemma ltb_maxIdx_finite (s : bool) (m : positive) (e : Z) :
  Binary32.ltb (S754_finite s m e) maxIdx = true -> Zpos m < 2 ^ 24 ->
  (val (S754_finite s m e) <= F2R 1 1)%R.
Proof.
  unfold Binary32.ltb, SFltb, SFcompare, maxIdx, Binary32.f2_0. cbn [val].
  pose proof (F2R_pos (Zpos m) e ltac:(lia)) as Hp.
  assert (H2 : (0 < F2R 1 1)%R) by (apply F2R_pos; lia).
  destruct s; [intros; lra|].
  destruct (Z.compare_spec e (-22)) as [->|Hlt|Hgt]; intros H Hm; try discriminate.
  - rewrite Pos.compare_cont_spec in H. cbn [Pos.switch_Eq] in H.
    rewrite Pos2Z.inj_compare in H.
    destruct (Z.compare_spec (Zpos m) 8388608) as [|Hlt|]; try discriminate.
    apply Rle_trans with (F2R 8388608 (-22)); [apply F2R_le; lia|].
    apply F2R_le_dyadic. cbn. lia.
  - apply Rle_trans with (F2R 1 (-22 + 23)); [now apply F2R_small_exponent|].
    apply F2R_le_dyadic. cbn. lia.
Qed.

Lemma ltb_minIdx_finite (s : bool) (m : positive) (e : Z) :
  Binary32.ltb minIdx (S754_finite s m e) = true -> Zpos m < 2 ^ 24 ->
  (- F2R 13421773 (-25) <= val (S754_finite s m e))%R.
Proof.
  unfold Binary32.ltb, SFltb, SFcompare, minIdx, Binary32.f0_4. cbn [SFopp negb val].
  pose proof (F2R_pos (Zpos m) e ltac:(lia)) as Hp.
  assert (H2 : (0 < F2R 13421773 (-25))%R) by (apply F2R_pos; lia).
  destruct s; [|intros; lra].
  destruct (Z.compare_spec (-25) e) as [<-|Hlt|Hgt]; intros H Hm; try discriminate.
  - rewrite Pos.compare_cont_spec in H. cbn [Pos.switch_Eq] in H.
    rewrite Pos2Z.inj_compare in H.
    destruct (Z.compare_spec 13421773 (Zpos m)) as [|?|Hgt]; try discriminate.
    apply Ropp_le_contravar. apply F2R_le. lia.
  - apply Ropp_le_contravar.
    apply Rle_trans with (F2R 1 (-25 + 23)); [now apply F2R_small_exponent|].
    apply F2R_le_dyadic. cbn. lia.
Qed.

Lemma sub_mantissa (x y : spec_float) :
  Binary32.valid x = true -> Binary32.valid y = true ->
  match Binary32.sub x y with
  | S754_finite _ m _ => Zpos m < 2 ^ 24
  | _ => True
  end.
Proof.
  intros Hx Hy. unfold Binary32.sub.
  change (SFsub Binary32.prec Binary32.emax) with (SFsub 24 128).
  destruct x as [[|]|[|]| |sx mx ex], y as [[|]|[|]| |sy my ey];
    try exact I;
    try (destruct (SFsub_finite sx mx ex sy my ey) as (M & ez & -> & _);
         apply binary_normalize_mantissa);
    cbn [SFsub];
    try (apply valid_finite_iff in Hx); try (apply valid_finite_iff in Hy);
    tauto.
Qed.

(** ** The colour index is within the table *)

Lemma bvIndex_cases (s : Star) :
  let d := Binary32.sub (mBMagnitude s) (mVMagnitude s) in
  bvIndex s = minIdx \/ bvIndex s = maxIdx
  \/ (bvIndex s = d /\ Binary32.ltb minIdx d = true /\ Binary32.ltb d maxIdx = true).
Proof.
  cbv zeta. unfold bvIndex, Binary32.std_min, Binary32.std_max.
  destruct (Binary32.ltb minIdx (Binary32.sub (mBMagnitude s) (mVMagnitude s))) eqn:E1.
  - destruct (Binary32.ltb (Binary32.sub (mBMagnitude s) (mVMagnitude s)) maxIdx) eqn:E2.
    + right; right. now repeat split.
    + right; now left.
  - now left.
Qed.

(** The difference [maxIdx - minIdx] as the code computes it. *)
Lemma range_value :
  Binary32.sub maxIdx minIdx = S754_finite false 10066330 (-22).
Proof. reflexivity. Qed.

Lemma normalizedIndexOf_finite (s : bool) (m : positive) (e : Z) :
  Zpos m < 2 ^ 24 ->
  Binary32.ltb minIdx (S754_finite s m e) = true ->
  Binary32.ltb (S754_finite s m e) maxIdx = true ->
  finite_below false (F2R 41 (-1)) (normalizedIndexOf (S754_finite s m e)).
Proof.
  intros Hm Hlo Hhi.
  pose proof (ltb_minIdx_finite s m e Hlo Hm) as Vlo.
  pose proof (ltb_maxIdx_finite s m e Hhi Hm) as Vhi.
  unfold normalizedIndexOf. rewrite range_value.
  unfold Binary32.add, Binary32.div, Binary32.sub, step, Binary32.f0_05, Binary32.f0_5.
  change Binary32.prec with 24. change Binary32.emax with 128.
  (* bvIndex - minIdx lies between 0 and the float maxIdx - minIdx *)
  assert (Hx : finite_below false (F2R 10066330 (-22))
                 (SFsub 24 128 (S754_finite s m e) minIdx)).
  { unfold minIdx, Binary32.f0_4. cbn [SFopp negb].
    destruct (SFsub_finite s m e true 13421773 (-25)) as (M & ez & -> & HM).
    apply binary_normalize_below; [repeat split; cbn; lia|lia|].
    rewrite HM. cbn [val] in *.
    assert (F2R 1 1 + F2R 13421773 (-25) <= F2R 10066330 (-22))%R.
    { assert (E : F2R 1 1 = F2R (1 * 2 ^ 26) (-25))
        by (rewrite F2R_scale by lia; reflexivity).
      rewrite E, <- F2R_plus. apply F2R_le_dyadic. cbn. lia. }
    destruct s; lra. }
  (* the quotient by maxIdx - minIdx lies between 0 and 1 *)
  assert (Hy : finite_below false (F2R 1 0)
                 (SFdiv 24 128 (SFsub 24 128 (S754_finite s m e) minIdx)
                    (S754_finite false 10066330 (-22)))).
  { apply SFdiv_below with (U := F2R 10066330 (-22));
      [assumption|repeat split; cbn; lia|lia|].
    rewrite F2R_mult. apply F2R_le_dyadic. cbn. lia. }
  (* the quotient by step lies between 0 and 20 *)
  assert (Hz : finite_below false (F2R 5 2)
                 (SFdiv 24 128
                    (SFdiv 24 128 (SFsub 24 128 (S754_finite s m e) minIdx)
                       (S754_finite false 10066330 (-22)))
                    (S754_finite false 13421773 (-28)))).
  { apply SFdiv_below with (U := F2R 1 0); [assumption|repeat split; cbn; lia|lia|].
    rewrite F2R_mult. apply F2R_le_dyadic. cbn. lia. }
  (* adding 0.5 gives at most 20.5 *)
  apply SFadd_below with (U := F2R 5 2); [assumption|repeat split; cbn; lia|lia|lia| |].
  - left. apply F2R_pos. lia.
  - assert (E : F2R 5 2 = F2R (5 * 2 ^ 26) (-24))
      by (rewrite F2R_scale by lia; reflexivity).
    rewrite E, <- F2R_plus. apply F2R_le_dyadic. cbn. lia.
Qed.

(* ================================================================== *)
(** * Spectral table lookup *)
(* ================================================================== *)

Lemma spectral_index_bound (s : Star) :
  Binary32.valid (mBMagnitude s) = true ->
  Binary32.valid (mVMagnitude s) = true ->
  exists i, Binary32.to_int (normalizedIndex s) = Some i /\ 0 <= i <= 20.
Proof.
  intros Hb Hv. unfold normalizedIndex.
  pose proof (sub_mantissa (mBMagnitude s) (mVMagnitude s) Hb Hv) as Hm.
  destruct (bvIndex_cases s) as [->|[->|(-> & Hlo & Hhi)]].
  - exists 0. split; [reflexivity|lia].
  - exists 20. split; [reflexivity|lia].
  - destruct (Binary32.sub (mBMagnitude s) (mVMagnitude s)) as [sd|sd| |sd md ed].
    + exists 3. split; [now destruct sd|lia].
    + now destruct sd.
    + discriminate.
    + apply (to_int_below _ (F2R 41 (-1)) 20
               (normalizedIndexOf_finite sd md ed Hm Hlo Hhi)); [|lia].
      apply Rlt_le_trans with (F2R 42 (-1)); [apply F2R_lt; lia|].
      apply Rle_trans with (F2R 21 0); [apply F2R_le_dyadic; cbn; lia|].
      change (20 + 1) with 21. unfold F2R, bpow. cbn [powerRZ]. lra.
Qed.

(** C9. Spectral table lookup safety: for every star whose two magnitudes
    are binary32 values, the conversion of [normalizedIndex] to [int] is
    defined and gives an index from 0 to 20, hence below the 47 entries of
    the table, and the access [mSpectralColors[...]] yields an entry. *)
Theorem spectral_lookup_in_bounds (s : Star) :
  Binary32.valid (mBMagnitude s) = true ->
  Binary32.valid (mVMagnitude s) = true ->
  exists (i : Z) (c : VistaColor),
    Binary32.to_int (normalizedIndex s) = Some i
    /\ 0 <= i < Z.of_nat (List.length spectralColors)
    /\ List.length spectralColors = 47%nat
    /\ subscript spectralColors i = Ok c
    /\ spectralColor spectralColors s = Returns c.
Proof.
  intros Hb Hv. destruct (spectral_index_bound s Hb Hv) as (i & Hi & Hr).
  assert (Hin : in_range spectralColors i) by (unfold in_range; cbn; lia).
  destruct (subscript_in_range spectralColors i Hin) as [c Hc].
  exists i, c. repeat split; try lia; try assumption.
  - cbn. lia.
  - unfold spectralColor. rewrite Hi, Hc. reflexivity.
Qed.

Lemma spectral_lookup_in_bounds_witness :
  exists (i : Z) (c : VistaColor),
    Binary32.to_int (normalizedIndex Samples.sirius) = Some i
    /\ 0 <= i < Z.of_nat (List.length spectralColors)
    /\ List.length spectralColors = 47%nat
    /\ subscript spectralColors i = Ok c
    /\ spectralColor spectralColors Samples.sirius = Returns c.
Proof.
  apply (spectral_lookup_in_bounds Samples.sirius); reflexivity.
Defined.

(** The colour lookup of the vertex builder of either revision stays
    within the colour table for a star with binary32 magnitudes. *)
Lemma spectralColor_defined (s : Star) :
  valid_star s -> exists c, spectralColor spectralColors s = Returns c.
Proof.
  intros (Hv & Hb & _). destruct (spectral_index_bound s Hb Hv) as (i & Hi & Hr).
  assert (Hin : in_range spectralColors i) by (unfold in_range; cbn; lia).
  destruct (subscript_in_range spectralColors i Hin) as [c Hc].
  exists c. unfold spectralColor. now rewrite Hi, Hc.
Qed.

(** Distance: 1000 / parallax for a positive parallax, 100000 parsec
    otherwise. *)
Example distance_of_500_mas :
  distance {| mVMagnitude := Binary32.zero; mBMagnitude := Binary32.zero;
              mAscension := Binary32.zero; mDeclination := Binary32.zero;
              mParallax := Binary32.of_Z 500 |} = Binary32.of_Z 2.
Proof. reflexivity. Qed.

Example distance_of_unknown_parallax :
  distance Samples.reddest = Binary32.of_Z 100000.
Proof. reflexivity. Qed.

Example distance_of_sunlike : distance Samples.sunlike = Binary32.of_Z 10.
Proof. reflexivity. Qed.

(** The catalog word of the cache tells the configured catalog sets
    apart. *)
Lemma StarsHDR_catalogBits_keys (m1 m2 : StarsHDR.Catalogs) :
  StarsHDR.catalogBits m1 = StarsHDR.catalogBits m2 <->
  StarsHDR.keys m1 = StarsHDR.keys m2.
Proof.
  unfold StarsHDR.catalogBits, StarsHDR.keys. cbn [filter].
  destruct (StarsHDR.contains m1 StarsHDR.eHipparcos),
    (StarsHDR.contains m1 StarsHDR.eTycho), (StarsHDR.contains m1 StarsHDR.eTycho2),
    (StarsHDR.contains m2 StarsHDR.eHipparcos),
    (StarsHDR.contains m2 StarsHDR.eTycho), (StarsHDR.contains m2 StarsHDR.eTycho2);
    cbn; split; intros H; try reflexivity; discriminate.
Qed.

(** A cache written for one set of catalogs is missed by an object
    configured with another set. *)
Lemma cache_miss_after_catalog_change (sCacheFile : string) (w : World)
  (st other : StarsHDR.Stars) :
  writable w sCacheFile = true ->
  12 + 20 * Z.of_nat (List.length (StarsHDR.mStars st)) < 2 ^ 31 ->
  StarsHDR.keys (StarsHDR.mCatalogs other) <> StarsHDR.keys (StarsHDR.mCatalogs st) ->
  StarsHDR.readStarCache sCacheFile (StarsHDR.writeStarCache sCacheFile w st) other
  = Returns (false, other).
Proof.
  intros Hw Hn Hk. unfold StarsHDR.writeStarCache, StarsHDR.readStarCache. rewrite Hw.
  rewrite cacheFile_store_same.
  rewrite deserializeCache_miss.
  - cbn [obind fst snd]. now rewrite StarsHDR_setStars_same.
  - rewrite serializeCache_length. lia.
  - rewrite headerOf_serializeCache by apply StarsHDR_catalogBits_range.
    right. intros H. apply Hk. symmetry. now apply StarsHDR_catalogBits_keys.
Qed.

(* ================================================================== *)
(** * The line tokenizer *)
(* ================================================================== *)

Lemma getline_items_nonempty (delim : ascii) (s item : string) :
  getline_items delim s item <> [].
Proof.
  revert item. induction s as [|c rest IH]; intros item; cbn.
  - discriminate.
  - destruct (Ascii.eqb c delim); [discriminate | apply IH].
Qed.

Lemma occurrences_app (c : ascii) (s t : string) :
  occurrences c (s ++ t) = (occurrences c s + occurrences c t)%nat.
Proof.
  induction s as [|x rest IH]; cbn; [reflexivity|]. rewrite IH. lia.
Qed.

Lemma append_assoc (s t u : string) : ((s ++ t) ++ u = s ++ (t ++ u))%string.
Proof. induction s as [|x rest IH]; cbn; [reflexivity | now rewrite IH]. Qed.

Lemma append_empty_r (s : string) : (s ++ "")%string = s.
Proof. induction s as [|x rest IH]; cbn; [reflexivity | now rewrite IH]. Qed.

Lemma joined_cons (delim : ascii) (item : string) (items : list string) :
  items <> [] ->
  joined delim (item :: items)
  = (item ++ String delim (joined delim items))%string.
Proof.
  intros H. destruct items as [|y l]; [contradiction|]. reflexivity.
Qed.

Lemma getline_items_tokens (delim : ascii) (s item : string) (tok : string) :
  occurrences delim item = 0%nat ->
  In tok (getline_items delim s item) -> occurrences delim tok = 0%nat.
Proof.
  revert item. induction s as [|c rest IH]; intros item Hi Hin; cbn in Hin.
  - destruct Hin as [<-|[]]. assumption.
  - destruct (Ascii.eqb c delim) eqn:Hc.
    + destruct Hin as [<-|Hin]; [assumption|].
      destruct rest as [|c' rest']; [destruct Hin|].
      now apply (IH EmptyString).
    + apply (IH (item ++ String c EmptyString)%string); [|assumption].
      rewrite occurrences_app. cbn. rewrite Hc, Hi. reflexivity.
Qed.

Lemma getline_items_joined (delim : ascii) (s item : string) :
  (joined delim (getline_items delim s item)
   ++ (if endsWith delim s then delimiterText delim else ""))%string
  = (item ++ s)%string.
Proof.
  revert item. induction s as [|c rest IH]; intros item.
  - cbn. now rewrite !append_empty_r.
  - cbn [getline_items]. destruct (Ascii.eqb c delim) eqn:Hc.
    + apply Ascii.eqb_eq in Hc. subst c.
      destruct rest as [|c' rest'].
      * cbn. rewrite Ascii.eqb_refl. reflexivity.
      * rewrite joined_cons by apply getline_items_nonempty.
        change (endsWith delim (String delim (String c' rest')))
          with (endsWith delim (String c' rest')).
        rewrite append_assoc. cbn [append]. f_equal. f_equal.
        apply (IH EmptyString).
    + replace (item ++ String c rest)%string
        with ((item ++ String c EmptyString) ++ rest)%string
        by (now rewrite append_assoc).
      rewrite <- IH. f_equal.
      destruct rest as [|c' rest']; [|reflexivity].
      cbn. now rewrite Hc.
Qed.

Lemma getline_items_length (delim : ascii) (s item : string) :
  List.length (getline_items delim s item)
  = (occurrences delim s + (if endsWith delim s then 0 else 1))%nat.
Proof.
  revert item. induction s as [|c rest IH]; intros item.
  - reflexivity.
  - cbn [getline_items occurrences]. destruct (Ascii.eqb c delim) eqn:Hc.
    + destruct rest as [|c' rest'].
      * cbn. rewrite Hc. reflexivity.
      * change (endsWith delim (String c (String c' rest')))
          with (endsWith delim (String c' rest')).
        cbn [List.length]. rewrite IH. lia.
    + rewrite IH. destruct rest as [|c' rest']; [|reflexivity].
      cbn. rewrite Hc. reflexivity.
Qed.

(** X1. No token of a line contains the delimiter, and writing the tokens
    back with the delimiter between them gives the line again, up to one
    delimiter at its very end, which the tokenizer drops: a line that ends
    in the delimiter has no empty last token. *)
Theorem tokenize_splits_at_every_delimiter (delim : ascii) (line : string) :
  (forall tok, In tok (tokenize delim line) -> occurrences delim tok = 0%nat)
  /\ (joined delim (tokenize delim line)
      ++ (if endsWith delim line then delimiterText delim else ""))%string = line.
Proof.
  destruct line as [|c rest]; [split; [intros tok []|reflexivity]|].
  unfold tokenize. split.
  - intros tok. now apply getline_items_tokens.
  - apply (getline_items_joined delim (String c rest) EmptyString).
Qed.

(** X2. The number of tokens of a line is the number of delimiters in it
    plus one, except that an empty line has no token and a delimiter at the
    very end of the line starts no further token. *)
Theorem tokenize_counts_the_delimiters (delim : ascii) (line : string) :
  List.length (tokenize delim line)
  = match line with
    | EmptyString => 0%nat
    | String _ _ =>
        (occurrences delim line + (if endsWith delim line then 0 else 1))%nat
    end.
Proof.
  destruct line as [|c rest]; [reflexivity|].
  unfold tokenize. apply getline_items_length.
Qed.

(* ================================================================== *)
(** * Reading a catalog file *)
(* ================================================================== *)

Section CatalogFacts.

Context {SE : StreamExtraction}.

(** A line is read without leaving the token vector when every column the
    loop body reads lies within it. *)
Lemma parseLine_defined (row : list Z) (nh lh : bool) (items : list string) :
  (nh && lh = true -> in_range items (column row eHipp)) ->
  in_range items (column row eVmag) ->
  in_range items (column row eBmag) ->
  in_range items (column row eRect) ->
  in_range items (column row eDecl) ->
  (0 < column row ePara -> in_range items (column row ePara)) ->
  exists r, parseLine row nh lh items = Ok r.
Proof.
  intros Hh Hv Hb Hr Hd Hp. unfold parseLine.
  destruct (12 <? Z.of_nat (List.length items)); [|eexists; reflexivity].
  assert (Hskip : exists skip,
             (if nh && lh
              then tok <- subscript items (column row eHipp) ;;
                   Ok (parses (T := Z) tok)
              else Ok false) = Ok skip).
  { destruct (nh && lh).
    - destruct (subscript_in_range _ _ (Hh eq_refl)) as (tok & ->).
      eexists; reflexivity.
    - eexists; reflexivity. }
  destruct Hskip as (skip & ->). cbn [bind].
  destruct skip; [eexists; reflexivity|].
  destruct (subscript_in_range _ _ Hv) as (v & ->).
  destruct (subscript_in_range _ _ Hb) as (b & ->).
  destruct (subscript_in_range _ _ Hr) as (r & ->).
  destruct (subscript_in_range _ _ Hd) as (d & ->).
  cbn [bind].
  destruct (0 <? column row ePara) eqn:E.
  - apply Z.ltb_lt in E. destruct (subscript_in_range _ _ (Hp E)) as (p & ->).
    cbn [bind].
    destruct (fromString v), (fromString b), (fromString r), (fromString d);
      eexists; reflexivity.
  - cbn [bind].
    destruct (fromString v), (fromString b), (fromString r), (fromString d);
      eexists; reflexivity.
Qed.

(** A line adds at most one star, after the stars read so far. *)
Lemma appended_length (r : LineResult) : (List.length (appended r) <= 1)%nat.
Proof. destruct r; cbn; lia. Qed.

Lemma readLines_appends (row : list Z) (delim : ascii) (nh lh : bool)
  (lines : list string) (stars stars' : list Star) :
  readLines row delim nh lh lines stars = Ok stars' ->
  exists new, stars' = stars ++ new /\ (List.length new <= List.length lines)%nat.
Proof.
  revert stars. induction lines as [|line rest IH]; intros stars H; cbn in H.
  - injection H as <-. exists []. split; [now rewrite app_nil_r|cbn; lia].
  - destruct (parseLine row nh lh (tokenize delim line)) as [r|i n]; [|discriminate].
    cbn [bind] in H. destruct (IH _ H) as (new & -> & Hlen).
    exists (appended r ++ new). split; [now rewrite app_assoc|].
    rewrite length_app. pose proof (appended_length r). cbn [List.length]. lia.
Qed.

Lemma StarsHDR_row_columns (type : StarsHDR.CatalogType) (c : CatalogColumn) :
  column (StarsHDR.mappingRow type) c <= 34
  /\ (0 <= column (StarsHDR.mappingRow type) c
      \/ (c = ePara /\ column (StarsHDR.mappingRow type) c = -1)).
Proof.
  destruct type, c;
    (split; [now vm_compute|]);
    first [left; now vm_compute | right; split; reflexivity].
Qed.

Lemma StarsHDR_parseLine_full_width (type : StarsHDR.CatalogType) (nh lh : bool)
  (items : list string) :
  (List.length items <= 12 \/ 35 <= List.length items)%nat ->
  exists r, parseLine (StarsHDR.mappingRow type) nh lh items = Ok r.
Proof.
  intros [Hshort|Hlong].
  - exists TooFewTokens. apply parseLine_short. lia.
  - assert (Hc : forall c, c <> ePara ->
                   in_range items (column (StarsHDR.mappingRow type) c)).
    { intros c Hc. unfold in_range.
      destruct (StarsHDR_row_columns type c) as [Hle [Hge|[-> _]]];
        [lia|contradiction]. }
    apply parseLine_defined; try (apply Hc; discriminate).
    + intros _. apply Hc. discriminate.
    + intros Hpos. unfold in_range.
      destruct (StarsHDR_row_columns type ePara) as [Hle _]. lia.
Qed.

Lemma StarsHDR_readLines_full_width (type : StarsHDR.CatalogType) (nh lh : bool)
  (lines : list string) (stars : list Star) :
  Forall (fun line =>
            (List.length (tokenize "|" line) <= 12
             \/ 35 <= List.length (tokenize "|" line))%nat) lines ->
  exists stars',
    readLines (StarsHDR.mappingRow type) "|" nh lh lines stars = Ok stars'.
Proof.
  intros H. revert stars.
  induction H as [|line rest Hline _ IH]; intros stars; cbn [readLines].
  - eexists; reflexivity.
  - destruct (StarsHDR_parseLine_full_width type nh lh _ Hline) as (r & ->).
    cbn [bind]. apply IH.
Qed.

End CatalogFacts.

(** X3. Reading a catalog is defined on files of full-width lines.  If
    every line of the file has at most 12 fields (such a line is left out)
    or at least 35, the number the widest column mapping needs,
    [readStarsFromCatalog] reads no token outside a line for any catalog
    type, returns [true], logs nothing and leaves the object as it was but
    for its star list. *)
Theorem catalog_of_full_width_lines_is_read {SE : StreamExtraction}
  (type : StarsHDR.CatalogType) (filename : string) (w : World)
  (st : StarsHDR.Stars) (lines : list string) :
  catalogFile w filename = Some lines ->
  Forall (fun line =>
            (List.length (tokenize "|" line) <= 12
             \/ 35 <= List.length (tokenize "|" line))%nat) lines ->
  exists stars,
    StarsHDR.readStarsFromCatalog type filename w st
    = Returns (true, w, StarsHDR.setStars st stars).
Proof.
  intros Hfile Hwide. unfold StarsHDR.readStarsFromCatalog. rewrite Hfile.
  destruct (StarsHDR_readLines_full_width type
              (negb (StarsHDR.eqb type StarsHDR.eHipparcos))
              (StarsHDR.contains (StarsHDR.mCatalogs st) StarsHDR.eHipparcos)
              lines (StarsHDR.mStars st) Hwide) as (stars & ->).
  exists stars. reflexivity.
Qed.

Lemma catalog_of_full_width_lines_is_read_witness :
  exists stars,
    StarsHDR.readStarsFromCatalog (SE := PlainDecimal.extraction)
      StarsHDR.eHipparcos "hip_main.dat" Cases.hipparcosWorld
      (StarsHDR.constructed Samples.hipparcosOnly)
    = Returns (true, Cases.hipparcosWorld,
               StarsHDR.setStars (StarsHDR.constructed Samples.hipparcosOnly) stars).
Proof.
  apply (catalog_of_full_width_lines_is_read (SE := PlainDecimal.extraction)
           StarsHDR.eHipparcos "hip_main.dat" Cases.hipparcosWorld
           (StarsHDR.constructed Samples.hipparcosOnly) [Samples.hipparcosLine]).
  - reflexivity.
  - constructor; [|constructor]. right. vm_compute. lia.
Defined.

(** X4. A catalog file only adds stars.  Whatever the file holds, the stars
    the object had before the call are still there, in their order, at the
    front of the list; the file adds at most one star per line after them,
    and none when it cannot be opened.  The configured catalogs are not
    changed. *)
Theorem catalog_stars_are_appended {SE : StreamExtraction}
  (type : StarsHDR.CatalogType) (filename : string) (w w' : World)
  (st st' : StarsHDR.Stars) (success : bool) :
  StarsHDR.readStarsFromCatalog type filename w st = Returns (success, w', st') ->
  StarsHDR.mCatalogs st' = StarsHDR.mCatalogs st
  /\ exists new,
       StarsHDR.mStars st' = StarsHDR.mStars st ++ new
       /\ (List.length new
           <= match catalogFile w filename with
              | Some lines => List.length lines
              | None => 0
              end)%nat.
Proof.
  unfold StarsHDR.readStarsFromCatalog.
  destruct (catalogFile w filename) as [lines|].
  - destruct (readLines _ _ _ _ lines (StarsHDR.mStars st)) as [stars|i n] eqn:E;
      cbn [lift obind]; [|discriminate].
    intros H. injection H as _ _ <-.
    split; [reflexivity|]. cbn [StarsHDR.mStars StarsHDR.setStars].
    now apply readLines_appends in E.
  - intros H. injection H as _ _ <-.
    split; [reflexivity|]. exists []. split; [now rewrite app_nil_r|cbn; lia].
Qed.

Lemma catalog_stars_are_appended_witness :
  StarsHDR.mCatalogs
    (StarsHDR.setStars
       (StarsHDR.setStars (StarsHDR.constructed Samples.hipparcosOnly) [Samples.sirius])
       [Samples.sirius; Samples.sunlike])
  = StarsHDR.mCatalogs
      (StarsHDR.setStars (StarsHDR.constructed Samples.hipparcosOnly) [Samples.sirius])
  /\ exists new,
       [Samples.sirius; Samples.sunlike] = [Samples.sirius] ++ new
       /\ (List.length new <= 1)%nat.
Proof.
  apply (catalog_stars_are_appended (SE := PlainDecimal.extraction)
           StarsHDR.eHipparcos "hip_main.dat" Cases.hipparcosWorld
           Cases.hipparcosWorld
           (StarsHDR.setStars (StarsHDR.constructed Samples.hipparcosOnly)
              [Samples.sirius])
           (StarsHDR.setStars
              (StarsHDR.setStars (StarsHDR.constructed Samples.hipparcosOnly)
                 [Samples.sirius])
              [Samples.sirius; Samples.sunlike])
           true).
  reflexivity.
Defined.

(** X5. Stars of the Tycho2 catalog are drawn at the default distance.
    The Tycho2 row of the column mapping has no parallax column, so every
    star a Tycho2 line yields has parallax 0, whatever the line holds, and
    the vertex builder gives it the distance of 100000 parsec. *)
Theorem tycho2_stars_get_the_default_distance {SE : StreamExtraction}
  (m : StarsHDR.Catalogs) (line : string) (s : Star) :
  StarsHDR.catalogLine m StarsHDR.eTycho2 line = Ok (Parsed s) ->
  mParallax s = Binary32.zero /\ distance s = Binary32.f100000.
Proof.
  unfold StarsHDR.catalogLine, parseLine. intros H.
  assert (Hp : mParallax s = Binary32.zero).
  { destruct (12 <? _); [|discriminate].
    destruct (_ && _).
    - destruct (subscript _ (column _ eHipp)) as [tok|]; [|discriminate].
      cbn [bind] in H. destruct (parses tok); [discriminate|].
      destruct (subscript _ (column _ eVmag)); [|discriminate].
      destruct (subscript _ (column _ eBmag)); [|discriminate].
      destruct (subscript _ (column _ eRect)); [|discriminate].
      destruct (subscript _ (column _ eDecl)); [|discriminate].
      cbn in H.
      destruct (fromString a), (fromString a0), (fromString a1), (fromString a2);
        try discriminate.
      injection H as <-. reflexivity.
    - cbn [bind] in H.
      destruct (subscript _ (column _ eVmag)); [|discriminate].
      destruct (subscript _ (column _ eBmag)); [|discriminate].
      destruct (subscript _ (column _ eRect)); [|discriminate].
      destruct (subscript _ (column _ eDecl)); [|discriminate].
      cbn in H.
      destruct (fromString a), (fromString a0), (fromString a1), (fromString a2);
        try discriminate.
      injection H as <-. reflexivity. }
  split; [assumption|]. unfold distance. rewrite Hp. reflexivity.
Qed.

Lemma tycho2_stars_get_the_default_distance_witness :
  exists s,
    StarsHDR.catalogLine (SE := PlainDecimal.extraction) Cases.tycho2Only
      StarsHDR.eTycho2 Cases.tycho2Line = Ok (Parsed s)
    /\ mParallax s = Binary32.zero /\ distance s = Binary32.f100000.
Proof.
  eexists. split; [reflexivity|].
  apply (tycho2_stars_get_the_default_distance (SE := PlainDecimal.extraction)
           Cases.tycho2Only Cases.tycho2Line).
  reflexivity.
Defined.

(* ================================================================== *)
(** * Loading the stars: cache first, catalogs on a miss *)
(* ================================================================== *)

Lemma onlyLogged_refl (w : World) : onlyLogged w w.
Proof.
  repeat split; try reflexivity. exists []. now rewrite app_nil_r.
Qed.

Lemma onlyLogged_trans (w1 w2 w3 : World) :
  onlyLogged w1 w2 -> onlyLogged w2 w3 -> onlyLogged w1 w3.
Proof.
  intros (Hc1 & Hw1 & l1 & Hl1) (Hc2 & Hw2 & l2 & Hl2).
  repeat split; try congruence.
  exists (l1 ++ l2). rewrite Hl2, Hl1. now rewrite app_assoc.
Qed.

(** A call that only logs leaves every catalog and every cache as it
    was. *)
Lemma onlyLogged_files (w w' : World) :
  onlyLogged w w' -> catalogFile w' = catalogFile w /\ cacheFile w' = cacheFile w.
Proof.
  intros (Hc & _). unfold catalogFile, cacheFile. now rewrite Hc.
Qed.

Lemma onlyLogged_say (lvl : LogLevel) (msg : string) (w : World) :
  onlyLogged w (say lvl msg w).
Proof. repeat split; try reflexivity. now exists [(lvl, msg)]. Qed.

Lemma onlyLogged_onlyCacheTouched (f : string) (w w' : World) :
  onlyLogged w w' -> onlyCacheTouched f w w'.
Proof.
  intros (Hc & Hw & Hl). repeat split; try assumption.
  intros g _. now rewrite Hc.
Qed.

Lemma onlyCacheTouched_trans (f : string) (w1 w2 w3 : World) :
  onlyCacheTouched f w1 w2 -> onlyCacheTouched f w2 w3 -> onlyCacheTouched f w1 w3.
Proof.
  intros (Hw1 & Hk1 & l1 & Hl1) (Hw2 & Hk2 & l2 & Hl2).
  repeat split; try congruence.
  - intros g Hg. rewrite Hk2, Hk1 by assumption. reflexivity.
  - exists (l1 ++ l2). rewrite Hl2, Hl1. now rewrite app_assoc.
Qed.

Lemma onlyCacheTouched_store (f : string) (bytes : list Byte.byte) (w : World) :
  onlyCacheTouched f w (store f bytes w).
Proof.
  repeat split; try reflexivity.
  - intros g Hg. cbn. now rewrite Hg.
  - exists []. cbn. now rewrite app_nil_r.
Qed.

Lemma StarsHDR_setStars_setStars (st : StarsHDR.Stars) (a b : list Star) :
  StarsHDR.setStars (StarsHDR.setStars st a) b = StarsHDR.setStars st b.
Proof. reflexivity. Qed.

Lemma grows_refl (ws : World * StarsHDR.Stars) : grows ws ws.
Proof.
  split; [apply onlyLogged_refl|]. split.
  - now rewrite StarsHDR_setStars_same.
  - exists []. now rewrite app_nil_r.
Qed.

Lemma grows_trans (a b c : World * StarsHDR.Stars) :
  grows a b -> grows b c -> grows a c.
Proof.
  intros (Hw1 & Hs1 & n1 & Hn1) (Hw2 & Hs2 & n2 & Hn2).
  split; [eapply onlyLogged_trans; eassumption|]. split.
  - rewrite Hs2. rewrite Hs1 at 1. apply StarsHDR_setStars_setStars.
  - exists (n1 ++ n2). rewrite Hn2, Hn1. now rewrite app_assoc.
Qed.

Lemma grows_say (lvl : LogLevel) (msg : string) (ws : World * StarsHDR.Stars) :
  grows ws (say lvl msg (fst ws), snd ws).
Proof.
  split; [apply onlyLogged_say|]. split.
  - cbn [snd]. now rewrite StarsHDR_setStars_same.
  - exists []. cbn [snd]. now rewrite app_nil_r.
Qed.

Lemma readStars_appends (n : nat) (buffer : list Byte.byte) (stars : list Star) :
  exists new, readStars n buffer stars = stars ++ new.
Proof.
  revert buffer stars. induction n as [|n IH]; intros buffer stars; cbn [readStars].
  - exists []. now rewrite app_nil_r.
  - destruct (readStar buffer) as [s rest].
    destruct (IH rest (stars ++ [s])) as (new & ->).
    exists (s :: new). now rewrite <- app_assoc.
Qed.

Lemma deserializeCache_appends (catalogs : Z) (file : list Byte.byte)
  (stars stars' : list Star) (hit : bool) :
  deserializeCache catalogs file stars = Returns (hit, stars') ->
  (hit = false -> stars' = stars) /\ exists new, stars' = stars ++ new.
Proof.
  unfold deserializeCache.
  destruct (to_int32 _ <? 0); [discriminate|].
  destruct (to_int32 _ =? 0); [discriminate|].
  destruct (headerOf _) as [[[cacheVersion cats] numStars] rest].
  destruct (negb (cacheVersion =? _)).
  { intros H. injection H as <- <-. split; [reflexivity|].
    exists []. now rewrite app_nil_r. }
  destruct (negb (cats =? _)).
  { intros H. injection H as <- <-. split; [reflexivity|].
    exists []. now rewrite app_nil_r. }
  intros H. injection H as <- <-. split; [discriminate|].
  apply readStars_appends.
Qed.

Section LoadFacts.

Context {SE : StreamExtraction}.

Lemma StarsHDR_readStarCache_grows (f : string) (w : World)
  (st st' : StarsHDR.Stars) (hit : bool) :
  StarsHDR.readStarCache f w st = Returns (hit, st') ->
  (hit = false -> st' = st) /\ grows (w, st) (w, st').
Proof.
  unfold StarsHDR.readStarCache. destruct (cacheFile w f) as [file|].
  - destruct (deserializeCache _ file (StarsHDR.mStars st)) as [[b stars]| |] eqn:E;
      cbn [obind fst snd]; try discriminate.
    intros H. injection H as <- <-.
    destruct (deserializeCache_appends _ _ _ _ _ E) as (Hmiss & new & Hnew).
    split.
    + intros Hb. rewrite (Hmiss Hb). apply StarsHDR_setStars_same.
    + split; [apply onlyLogged_refl|]. split; [reflexivity|].
      exists new. exact Hnew.
  - intros H. injection H as <- <-. split; [reflexivity|apply grows_refl].
Qed.

Lemma StarsHDR_readCatalog_grows (type : StarsHDR.CatalogType)
  (filename : string) (ws ws' : World * StarsHDR.Stars) :
  StarsHDR.readCatalog type filename ws = Returns ws' -> grows ws ws'.
Proof.
  unfold StarsHDR.readCatalog.
  destruct (StarsHDR.readStarsFromCatalog type filename (fst ws) (snd ws))
    as [[[ok w'] st']| |] eqn:E; cbn [obind fst snd]; try discriminate.
  intros H. injection H as <-. cbn [fst snd].
  unfold StarsHDR.readStarsFromCatalog in E.
  destruct (catalogFile (fst ws) filename) as [lines|].
  - destruct (readLines _ _ _ _ lines _) as [stars|] eqn:El; cbn [lift obind] in E;
      [|discriminate].
    injection E as _ <- <-.
    split; [apply onlyLogged_refl|]. split; [reflexivity|].
    apply readLines_appends in El. destruct El as (new & -> & _).
    now exists new.
  - injection E as _ <- <-. apply grows_say.
Qed.

Lemma StarsHDR_stage_grows (type : StarsHDR.CatalogType)
  (entry : option string) (ws ws' : World * StarsHDR.Stars) :
  match entry with
  | Some file => StarsHDR.readCatalog type file ws
  | None => Returns ws
  end = Returns ws' -> grows ws ws'.
Proof.
  destruct entry as [file|].
  - apply StarsHDR_readCatalog_grows.
  - intros H. injection H as <-. apply grows_refl.
Qed.

Lemma StarsHDR_writeStarCache_touches (f : string) (w : World) (st : StarsHDR.Stars) :
  onlyCacheTouched f w (StarsHDR.writeStarCache f w st).
Proof.
  unfold StarsHDR.writeStarCache. destruct (writable w f).
  - apply onlyCacheTouched_store.
  - apply onlyLogged_onlyCacheTouched, onlyLogged_say.
Qed.

End LoadFacts.

(** Takes the first stage off a hypothesis on a sequence of stages. *)
Tactic Notation "first_stage" hyp(H) ident(ws) ident(E) :=
  match type of H with
  | obind ?c _ = _ =>
      destruct c as [ws| |] eqn:E; cbn [obind] in H; [|discriminate H ..]
  end.

(** The two ways [loadStars] returns: on a hit with the stars of the
    cache, the files as they were; on a miss after the catalog stages,
    with a warning when they left no star and a written cache otherwise. *)
Lemma StarsHDR_loadStars_cases {SE : StreamExtraction} (f : string) (w w' : World)
  (st st' : StarsHDR.Stars) :
  StarsHDR.loadStars f w st = Returns (w', st') ->
  (StarsHDR.readStarCache f w st = Returns (true, st') /\ w' = w)
  \/ (StarsHDR.readStarCache f w st = Returns (false, st)
      /\ exists w3, grows (w, st) (w3, st')
           /\ ((StarsHDR.mStars st' = []
                /\ w' = say Warn "Loaded no stars! Stars will not work properly." w3)
               \/ (StarsHDR.mStars st' <> []
                   /\ w' = StarsHDR.writeStarCache f w3 st'))).
Proof.
  unfold StarsHDR.loadStars. intros H.
  first_stage H hit Ehit. destruct hit as [hit st0].
  destruct (StarsHDR_readStarCache_grows _ _ _ _ _ Ehit) as (Hmiss & Hg0).
  cbn [fst snd] in H. destruct hit.
  { injection H as <- <-. left. split; reflexivity. }
  rewrite (Hmiss eq_refl) in *. clear Hmiss Hg0 st0.
  right. split; [reflexivity|].
  first_stage H ws1 E1. apply StarsHDR_stage_grows in E1.
  first_stage H ws2 E2. apply StarsHDR_stage_grows in E2.
  first_stage H ws3 E3.
  assert (G3 : grows ws2 ws3).
  { destruct (StarsHDR.mCatalogs st StarsHDR.eTycho2) as [file|].
    - destruct (negb _).
      + apply StarsHDR_readCatalog_grows in E3. exact E3.
      + injection E3 as <-. apply grows_say.
    - injection E3 as <-. apply grows_refl. }
  assert (G : grows (w, st) ws3).
  { apply (grows_trans _ ws1); [assumption|].
    apply (grows_trans _ ws2); assumption. }
  destruct ws3 as [w3 st3]. cbn [fst snd] in H.
  destruct (StarsHDR.mStars st3) eqn:Es; injection H as <- <-; exists w3;
    (split; [exact G|]).
  - left. split; [assumption|reflexivity].
  - right. split; [rewrite Es; discriminate|reflexivity].
Qed.

(** X6. Loading the stars touches no file but the cache file.  Whether
    the cache is hit or the catalogs are read, the call leaves every file
    under another name than [sCacheFile] as it was, catalogs and other
    caches alike (a catalog stored under the name of the cache file is
    overwritten by the cache), only adds to the log, leaves the configured
    catalogs alone and keeps the stars the object already had at the front
    of its star list. *)
Theorem loading_touches_only_the_cache {SE : StreamExtraction}
  (sCacheFile : string) (w w' : World) (st st' : StarsHDR.Stars) :
  StarsHDR.loadStars sCacheFile w st = Returns (w', st') ->
  onlyCacheTouched sCacheFile w w'
  /\ StarsHDR.mCatalogs st' = StarsHDR.mCatalogs st
  /\ (exists new, StarsHDR.mStars st' = StarsHDR.mStars st ++ new)
  /\ (contents w' sCacheFile = contents w sCacheFile
      \/ contents w' sCacheFile
         = Some (serializeCache (StarsHDR.catalogBits (StarsHDR.mCatalogs st'))
                   (StarsHDR.mStars st'))).
Proof.
  intros H. apply StarsHDR_loadStars_cases in H.
  destruct H as [(Hhit & ->)|(_ & w3 & (Hw & Hs & Hnew) & Hend)].
  - apply StarsHDR_readStarCache_grows in Hhit.
    destruct Hhit as (_ & _ & Hs & Hnew). cbn [fst snd] in *.
    split; [apply onlyLogged_onlyCacheTouched, onlyLogged_refl|].
    split; [rewrite Hs; reflexivity|]. split; [assumption|now left].
  - cbn [fst snd] in *. split; [|split; [|split; [assumption|]]].
    + apply (onlyCacheTouched_trans _ _ w3);
        [now apply onlyLogged_onlyCacheTouched|].
      destruct Hend as [(_ & ->)|(_ & ->)].
      * apply onlyLogged_onlyCacheTouched, onlyLogged_say.
      * apply StarsHDR_writeStarCache_touches.
    + rewrite Hs. reflexivity.
    + destruct Hw as (Hc & _).
      destruct Hend as [(_ & ->)|(_ & ->)].
      * left. cbn [say contents]. now rewrite Hc.
      * unfold StarsHDR.writeStarCache. destruct (writable w3 sCacheFile).
        -- right. apply cacheFile_store_same.
        -- left. cbn [say contents]. now rewrite Hc.
Qed.

Lemma loading_touches_only_the_cache_witness :
  exists w' st',
    StarsHDR.loadStars (SE := PlainDecimal.extraction) "star_cache.dat"
      Cases.hipparcosWorld (StarsHDR.constructed Samples.hipparcosOnly)
    = Returns (w', st')
    /\ onlyCacheTouched "star_cache.dat" Cases.hipparcosWorld w'
    /\ StarsHDR.mCatalogs st' = Samples.hipparcosOnly
    /\ (exists new, StarsHDR.mStars st' = [] ++ new)
    /\ (contents w' "star_cache.dat" = contents Cases.hipparcosWorld "star_cache.dat"
        \/ contents w' "star_cache.dat"
           = Some (serializeCache (StarsHDR.catalogBits (StarsHDR.mCatalogs st'))
                     (StarsHDR.mStars st'))).
Proof.
  eexists. eexists. split; [reflexivity|].
  apply (loading_touches_only_the_cache (SE := PlainDecimal.extraction)
           "star_cache.dat" Cases.hipparcosWorld _
           (StarsHDR.constructed Samples.hipparcosOnly) _).
  reflexivity.
Defined.

(** The cache file and a catalog under one name: the start reads the text
    of the catalog as a cache and misses, reads the catalog, and writes the
    cache over it; the catalog is gone. *)
Example cache_written_over_a_catalog :
  exists w' st',
    StarsHDR.loadStars (SE := PlainDecimal.extraction) "hip_main.dat"
      Cases.hipparcosWorld (StarsHDR.constructed Samples.hipparcosOnly)
    = Returns (w', st')
    /\ StarsHDR.mStars st' = [Samples.sunlike]
    /\ catalogFile Cases.hipparcosWorld "hip_main.dat" = Some [Samples.hipparcosLine]
    /\ contents w' "hip_main.dat" = Some (serializeCache 1 [Samples.sunlike])
    /\ catalogFile w' "hip_main.dat" <> Some [Samples.hipparcosLine].
Proof.
  eexists. eexists. split; [vm_compute; reflexivity|].
  split; [reflexivity|]. split; [reflexivity|]. split; [reflexivity|].
  vm_compute. discriminate.
Qed.

(** X7. A start that finds no star leaves no cache behind.  When the cache
    is missed and the catalog stages end with an empty star list (nothing
    configured, no file that opens, no line that parses), [loadStars]
    writes no file at all, so the next start reads the catalogs again, and
    the last entry of the log is the warning that no stars were loaded. *)
Theorem empty_load_writes_no_cache {SE : StreamExtraction}
  (sCacheFile : string) (w w' : World) (st st' : StarsHDR.Stars) :
  StarsHDR.readStarCache sCacheFile w st = Returns (false, st) ->
  StarsHDR.loadStars sCacheFile w st = Returns (w', st') ->
  StarsHDR.mStars st' = [] ->
  catalogFile w' = catalogFile w
  /\ cacheFile w' = cacheFile w
  /\ exists entries,
       logged w'
       = logged w ++ entries
         ++ [(Warn, "Loaded no stars! Stars will not work properly."%string)].
Proof.
  intros Hmiss H Hempty. apply StarsHDR_loadStars_cases in H.
  destruct H as [(Hhit & _)|(_ & w3 & (Hw & _) & Hend)]; [congruence|].
  destruct Hend as [(_ & ->)|(Hne & _)]; [|contradiction].
  destruct (onlyLogged_files _ _ Hw) as (Hc & Hk).
  destruct Hw as (_ & _ & entries & Hl). cbn [fst] in *.
  split; [assumption|]. split; [assumption|].
  exists entries. cbn [logged say]. rewrite Hl. now rewrite app_assoc.
Qed.

Lemma empty_load_writes_no_cache_witness :
  exists w',
    StarsHDR.loadStars (SE := PlainDecimal.extraction) "star_cache.dat"
      Samples.noFiles (StarsHDR.constructed Samples.hipparcosOnly)
    = Returns (w', StarsHDR.constructed Samples.hipparcosOnly)
    /\ catalogFile w' = catalogFile Samples.noFiles
    /\ cacheFile w' = cacheFile Samples.noFiles
    /\ exists entries,
         logged w'
         = [] ++ entries
           ++ [(Warn, "Loaded no stars! Stars will not work properly."%string)].
Proof.
  eexists. split; [reflexivity|].
  apply (empty_load_writes_no_cache (SE := PlainDecimal.extraction)
           "star_cache.dat" Samples.noFiles _
           (StarsHDR.constructed Samples.hipparcosOnly)
           (StarsHDR.constructed Samples.hipparcosOnly)).
  - reflexivity.
  - reflexivity.
  - reflexivity.
Defined.

Lemma StarsHDR_readCatalog_withoutTycho2 {SE : StreamExtraction}
  (type : StarsHDR.CatalogType) (file : string) (w : World) (st : StarsHDR.Stars) :
  StarsHDR.readCatalog type file (w, withoutTycho2 st)
  = (ws <-- StarsHDR.readCatalog type file (w, st) ;;
     Returns (fst ws, withoutTycho2 (snd ws))).
Proof.
  unfold StarsHDR.readCatalog, StarsHDR.readStarsFromCatalog. cbn [fst snd].
  destruct (catalogFile w file) as [lines|]; [|reflexivity].
  change (StarsHDR.contains (StarsHDR.mCatalogs (withoutTycho2 st)) StarsHDR.eHipparcos)
    with (StarsHDR.contains (StarsHDR.mCatalogs st) StarsHDR.eHipparcos).
  change (StarsHDR.mStars (withoutTycho2 st)) with (StarsHDR.mStars st).
  destruct (readLines _ _ _ _ lines _) as [stars|]; reflexivity.
Qed.

(** X8. Tycho2 is not read beside Tycho.  When both are configured, the
    Tycho2 file is never opened: on a start without a cache file, the
    stars loaded are those the same configuration without its Tycho2 entry
    loads, whatever the Tycho2 file holds. *)
Theorem tycho2_is_not_read_beside_tycho {SE : StreamExtraction}
  (sCacheFile : string) (w : World) (st : StarsHDR.Stars) (tycho tycho2 : string) :
  StarsHDR.mCatalogs st StarsHDR.eTycho = Some tycho ->
  StarsHDR.mCatalogs st StarsHDR.eTycho2 = Some tycho2 ->
  cacheFile w sCacheFile = None ->
  loadedStars (StarsHDR.loadStars sCacheFile w st)
  = loadedStars (StarsHDR.loadStars sCacheFile w (withoutTycho2 st)).
Proof.
  intros Ht Ht2 Hcache. unfold StarsHDR.loadStars, StarsHDR.readStarCache.
  rewrite Hcache. cbn [obind fst snd].
  change (StarsHDR.mCatalogs (withoutTycho2 st) StarsHDR.eHipparcos)
    with (StarsHDR.mCatalogs st StarsHDR.eHipparcos).
  change (StarsHDR.mCatalogs (withoutTycho2 st) StarsHDR.eTycho)
    with (StarsHDR.mCatalogs st StarsHDR.eTycho).
  change (StarsHDR.mCatalogs (withoutTycho2 st) StarsHDR.eTycho2) with (@None string).
  rewrite Ht, Ht2. unfold StarsHDR.contains. rewrite Ht. cbn [negb].
  assert (Hfirst :
    match StarsHDR.mCatalogs st StarsHDR.eHipparcos with
    | Some file => StarsHDR.readCatalog StarsHDR.eHipparcos file (w, withoutTycho2 st)
    | None => Returns (w, withoutTycho2 st)
    end
    = (ws <-- match StarsHDR.mCatalogs st StarsHDR.eHipparcos with
              | Some file => StarsHDR.readCatalog StarsHDR.eHipparcos file (w, st)
              | None => Returns (w, st)
              end ;;
       Returns (fst ws, withoutTycho2 (snd ws)))).
  { destruct (StarsHDR.mCatalogs st StarsHDR.eHipparcos);
      [apply StarsHDR_readCatalog_withoutTycho2|reflexivity]. }
  rewrite Hfirst. clear Hfirst.
  destruct (match StarsHDR.mCatalogs st StarsHDR.eHipparcos with
            | Some file => StarsHDR.readCatalog StarsHDR.eHipparcos file (w, st)
            | None => Returns (w, st)
            end) as [[w1 st1]| |]; cbn [obind fst snd loadedStars]; try reflexivity.
  rewrite StarsHDR_readCatalog_withoutTycho2.
  destruct (StarsHDR.readCatalog StarsHDR.eTycho tycho (w1, st1)) as [[w2 st2]| |];
    cbn [obind fst snd]; try reflexivity.
  change (StarsHDR.mStars (withoutTycho2 st2)) with (StarsHDR.mStars st2).
  destruct (StarsHDR.mStars st2); reflexivity.
Qed.

Lemma tycho2_is_not_read_beside_tycho_witness :
  loadedStars
    (StarsHDR.loadStars (SE := PlainDecimal.extraction) "star_cache.dat"
       (Samples.withCatalog "tyc_main.dat" [Samples.tychoLineAlone]
          (Samples.withCatalog "tyc2.dat" [Cases.tycho2Line] Samples.noFiles))
       (StarsHDR.constructed Cases.tychoAndTycho2))
  = loadedStars
      (StarsHDR.loadStars (SE := PlainDecimal.extraction) "star_cache.dat"
         (Samples.withCatalog "tyc_main.dat" [Samples.tychoLineAlone]
            (Samples.withCatalog "tyc2.dat" [Cases.tycho2Line] Samples.noFiles))
         (withoutTycho2 (StarsHDR.constructed Cases.tychoAndTycho2))).
Proof.
  apply (tycho2_is_not_read_beside_tycho (SE := PlainDecimal.extraction)
           "star_cache.dat"
           (Samples.withCatalog "tyc_main.dat" [Samples.tychoLineAlone]
              (Samples.withCatalog "tyc2.dat" [Cases.tycho2Line] Samples.noFiles))
           (StarsHDR.constructed Cases.tychoAndTycho2)
           "tyc_main.dat"%string "tyc2.dat"%string).
  - reflexivity.
  - reflexivity.
  - reflexivity.
Defined.

(** X9. The second start reads the cache.  After a start that loaded at
    least one star and could write the cache file, a start of an object
    with the same configuration finds the same stars in the cache, in
    every world that holds that cache file: the catalog files are not read
    again and need not be there any more.  The stars are well-formed
    floats and the cache is shorter than 2^31 bytes. *)
Theorem second_start_reads_the_cache {SE : StreamExtraction}
  (sCacheFile : string) (w w1 w2 : World) (st st1 : StarsHDR.Stars) :
  StarsHDR.mStars st = [] ->
  writable w sCacheFile = true ->
  StarsHDR.loadStars sCacheFile w st = Returns (w1, st1) ->
  StarsHDR.mStars st1 <> [] ->
  Forall valid_star (StarsHDR.mStars st1) ->
  12 + 20 * Z.of_nat (List.length (StarsHDR.mStars st1)) < 2 ^ 31 ->
  cacheFile w2 sCacheFile = cacheFile w1 sCacheFile ->
  StarsHDR.loadStars sCacheFile w2 st = Returns (w2, st1).
Proof.
  intros Hempty Hwr Hload Hne Hvalid Hsize Hsame.
  apply StarsHDR_loadStars_cases in Hload.
  assert (Hhit : StarsHDR.readStarCache sCacheFile w2 st = Returns (true, st1)).
  { destruct Hload as [(Hhit & ->)|(_ & w3 & (Hw & Hs & _) & Hend)].
    - unfold StarsHDR.readStarCache in *. now rewrite Hsame.
    - destruct Hend as [(He & _)|(_ & ->)]; [contradiction|].
      destruct Hw as (_ & Hwr3 & _). cbn [fst snd] in *.
      unfold StarsHDR.writeStarCache in Hsame.
      rewrite Hwr3, Hwr, cacheFile_store_same in Hsame.
      unfold StarsHDR.readStarCache. rewrite Hsame.
      assert (Hc : StarsHDR.mCatalogs st1 = StarsHDR.mCatalogs st)
        by (rewrite Hs; reflexivity).
      rewrite Hc, deserializeCache_serializeCache;
        [|apply StarsHDR_catalogBits_range|assumption|assumption].
      cbn [obind fst snd]. rewrite Hempty. cbn [app]. now rewrite <- Hs. }
  unfold StarsHDR.loadStars. rewrite Hhit. reflexivity.
Qed.

Lemma second_start_reads_the_cache_witness :
  exists w1 st1,
    StarsHDR.loadStars (SE := PlainDecimal.extraction) "star_cache.dat"
      Cases.hipparcosWorld (StarsHDR.constructed Samples.hipparcosOnly)
    = Returns (w1, st1)
    /\ StarsHDR.mStars st1 = [Samples.sunlike]
    /\ StarsHDR.loadStars (SE := PlainDecimal.extraction) "star_cache.dat"
         (store "star_cache.dat"
            (serializeCache 1 [Samples.sunlike]) Samples.noFiles)
         (StarsHDR.constructed Samples.hipparcosOnly)
       = Returns (store "star_cache.dat"
                    (serializeCache 1 [Samples.sunlike]) Samples.noFiles, st1).
Proof.
  eexists. eexists. split; [reflexivity|]. split; [reflexivity|].
  eapply (second_start_reads_the_cache (SE := PlainDecimal.extraction))
    with (w := Cases.hipparcosWorld).
  - reflexivity.
  - reflexivity.
  - reflexivity.
  - discriminate.
  - repeat constructor.
  - cbn. lia.
  - reflexivity.
Defined.

(** X10. The size of the cache file.  On a path that can be written,
    [writeStarCache] leaves a file of 12 bytes of header and 20 bytes for
    each star of the object, and logs nothing. *)
Theorem cache_file_size (sCacheFile : string) (w : World) (st : StarsHDR.Stars) :
  writable w sCacheFile = true ->
  logged (StarsHDR.writeStarCache sCacheFile w st) = logged w
  /\ exists bytes,
       cacheFile (StarsHDR.writeStarCache sCacheFile w st) sCacheFile = Some bytes
       /\ Z.of_nat (List.length bytes)
          = 12 + 20 * Z.of_nat (List.length (StarsHDR.mStars st)).
Proof.
  intros Hw. unfold StarsHDR.writeStarCache. rewrite Hw.
  split; [reflexivity|].
  rewrite cacheFile_store_same. eexists. split; [reflexivity|].
  apply serializeCache_length.
Qed.

Lemma cache_file_size_witness :
  logged (StarsHDR.writeStarCache "star_cache.dat" Samples.noFiles
            (StarsHDR.setStars (StarsHDR.constructed Samples.hipparcosOnly)
               [Samples.sirius; Samples.sunlike])) = []
  /\ exists bytes,
       cacheFile (StarsHDR.writeStarCache "star_cache.dat" Samples.noFiles
                    (StarsHDR.setStars (StarsHDR.constructed Samples.hipparcosOnly)
                       [Samples.sirius; Samples.sunlike])) "star_cache.dat"
       = Some bytes
       /\ Z.of_nat (List.length bytes) = 52.
Proof.
  apply (cache_file_size "star_cache.dat" Samples.noFiles
           (StarsHDR.setStars (StarsHDR.constructed Samples.hipparcosOnly)
              [Samples.sirius; Samples.sunlike])).
  reflexivity.
Defined.

(* ================================================================== *)
(** * The order of binary32 numbers *)
(* ================================================================== *)

(** Of two well-formed positive floats, the one with the smaller exponent
    is the smaller one. *)
Lemma F2R_canonical_lt (m1 m2 : positive) (e1 e2 : Z) :
  Zpos m1 < 2 ^ 24 ->
  2 ^ 23 <= Zpos m2 \/ e2 = -149 ->
  -149 <= e1 -> e1 < e2 ->
  (F2R (Zpos m1) e1 < F2R (Zpos m2) e2)%R.
Proof.
  intros H1 H2 Hlo Hlt. destruct H2 as [H2|H2]; [|lia].
  apply Rlt_le_trans with (F2R (2 ^ 24) e1); [apply F2R_lt; lia|].
  apply Rle_trans with (F2R (2 ^ 23) e2); [|apply F2R_le; lia].
  apply F2R_le_dyadic.
  rewrite Z.min_l by lia. rewrite Z.sub_diag, Z.pow_0_r, Z.mul_1_r.
  replace (2 ^ 24) with (2 ^ 23 * 2 ^ 1) by reflexivity.
  apply Z.mul_le_mono_nonneg_l; [lia|].
  apply Z.pow_le_mono_r; lia.
Qed.

Lemma compare_mantissa (m1 m2 : positive) :
  Pos.compare_cont Eq m1 m2 = (Zpos m1 ?= Zpos m2).
Proof. reflexivity. Qed.

(** On well-formed positive floats the comparison of [SFcompare], exponents
    first and mantissas next, is the comparison of the values. *)
Lemma compare_finite_val (m1 m2 : positive) (e1 e2 : Z) :
  Binary32.valid (S754_finite false m1 e1) = true ->
  Binary32.valid (S754_finite false m2 e2) = true ->
  match (match e1 ?= e2 with
         | Lt => Lt
         | Gt => Gt
         | Eq => Pos.compare_cont Eq m1 m2
         end) with
  | Lt => (F2R (Zpos m1) e1 < F2R (Zpos m2) e2)%R
  | Eq => m1 = m2 /\ e1 = e2
  | Gt => (F2R (Zpos m2) e2 < F2R (Zpos m1) e1)%R
  end.
Proof.
  intros H1 H2. apply valid_finite_iff in H1, H2.
  destruct H1 as (Hm1 & He1 & Hn1), H2 as (Hm2 & He2 & Hn2).
  destruct (Z.compare_spec e1 e2) as [->|Hlt|Hgt].
  - rewrite compare_mantissa.
    destruct (Z.compare_spec (Zpos m1) (Zpos m2)) as [Heq|Hlt|Hgt].
    + split; [congruence|reflexivity].
    + now apply F2R_lt.
    + now apply F2R_lt.
  - apply F2R_canonical_lt; lia || assumption.
  - apply F2R_canonical_lt; lia || assumption.
Qed.

(** [a < b] on floats that are numbers is [<] on their values. *)
Lemma ltb_val (x y : float) :
  numeric x -> numeric y ->
  Binary32.ltb x y = true <-> (val x < val y)%R.
Proof.
  intros (Hx & Fx) (Hy & Fy). unfold Binary32.ltb, SFltb, SFcompare.
  destruct x as [sx|sx| |sx mx ex]; try discriminate Fx;
    destruct y as [sy|sy| |sy my ey]; try discriminate Fy; cbn [val].
  - split; [discriminate|lra].
  - pose proof (F2R_pos (Zpos my) ey ltac:(lia)).
    destruct sy; (split; [try discriminate; intros; lra|try reflexivity; intros; lra]).
  - pose proof (F2R_pos (Zpos mx) ex ltac:(lia)).
    destruct sx; (split; [try discriminate; intros; lra|try reflexivity; intros; lra]).
  - pose proof (F2R_pos (Zpos mx) ex ltac:(lia)) as Px.
    pose proof (F2R_pos (Zpos my) ey ltac:(lia)) as Py.
    destruct sx, sy.
    + assert (Hx' : Binary32.valid (S754_finite false mx ex) = true) by exact Hx.
      assert (Hy' : Binary32.valid (S754_finite false my ey) = true) by exact Hy.
      pose proof (compare_finite_val mx my ex ey Hx' Hy') as H.
      destruct (match ex ?= ey with
                | Lt => Lt | Gt => Gt | Eq => Pos.compare_cont Eq mx my
                end) eqn:E;
        replace (match ex ?= ey with
                 | Eq => CompOpp (Pos.compare_cont Eq mx my)
                 | Lt => Gt
                 | Gt => Lt
                 end)
          with (CompOpp (match ex ?= ey with
                         | Lt => Lt | Gt => Gt | Eq => Pos.compare_cont Eq mx my
                         end))
          by (destruct (ex ?= ey); reflexivity);
        rewrite E; cbn [CompOpp].
      * destruct H as [-> ->]. split; [discriminate|lra].
      * split; [discriminate|lra].
      * split; [intros _; lra|reflexivity].
    + split; [intros _; lra|reflexivity].
    + split; [discriminate|lra].
    + assert (Hx' : Binary32.valid (S754_finite false mx ex) = true) by exact Hx.
      assert (Hy' : Binary32.valid (S754_finite false my ey) = true) by exact Hy.
      pose proof (compare_finite_val mx my ex ey Hx' Hy') as H.
      destruct (match ex ?= ey with
                | Lt => Lt | Gt => Gt | Eq => Pos.compare_cont Eq mx my
                end) eqn:E.
      * destruct H as [-> ->]. split; [discriminate|lra].
      * split; [intros _; lra|reflexivity].
      * split; [discriminate|lra].
Qed.

Lemma val_le_max (x : float) :
  numeric x -> (val x <= val Binary32.numeric_limits_max)%R.
Proof.
  intros (Hx & Fx). unfold Binary32.numeric_limits_max. cbn [val].
  assert (Hmax : (0 < F2R 16777215 104)%R) by (apply F2R_pos; lia).
  destruct x as [sx|sx| |sx mx ex]; try discriminate Fx; cbn [val]; [lra|].
  pose proof (F2R_pos (Zpos mx) ex ltac:(lia)) as Px.
  destruct sx; [lra|].
  apply valid_finite_iff in Hx. destruct Hx as (Hm & He & _).
  apply Rle_trans with (F2R 16777215 ex); [apply F2R_le; lia|].
  apply F2R_le_dyadic. rewrite Z.min_l by lia.
  rewrite Z.sub_diag, Z.pow_0_r, Z.mul_1_r.
  assert (0 < 2 ^ (104 - ex)) by (apply Z.pow_pos_nonneg; lia).
  lia.
Qed.

Lemma std_min_cases (a b : float) :
  numeric a -> numeric b ->
  (Binary32.std_min a b = a \/ Binary32.std_min a b = b)
  /\ (val (Binary32.std_min a b) <= val a)%R
  /\ (val (Binary32.std_min a b) <= val b)%R.
Proof.
  intros Ha Hb. unfold Binary32.std_min.
  pose proof (ltb_val b a Hb Ha) as H.
  destruct (Binary32.ltb b a).
  - split; [now right|]. assert (val b < val a)%R by now apply H. lra.
  - split; [now left|].
    assert (~ (val b < val a)%R) by (intros C; apply H in C; discriminate). lra.
Qed.

Lemma std_max_cases (a b : float) :
  numeric a -> numeric b ->
  (Binary32.std_max a b = a \/ Binary32.std_max a b = b)
  /\ (val a <= val (Binary32.std_max a b))%R
  /\ (val b <= val (Binary32.std_max a b))%R.
Proof.
  intros Ha Hb. unfold Binary32.std_max.
  pose proof (ltb_val a b Ha Hb) as H.
  destruct (Binary32.ltb a b).
  - split; [now right|]. assert (val a < val b)%R by now apply H. lra.
  - split; [now left|].
    assert (~ (val a < val b)%R) by (intros C; apply H in C; discriminate). lra.
Qed.

(** What the loop of [buildStarVAO] leaves in the two range members. *)
Lemma StarsGaia_buildLoop_range (stars : list Star) (c : Z)
  (acc acc' : StarsGaia.Stars * list StarsGaia.Vertex) :
  StarsGaia.buildLoop stars c acc = Returns acc' ->
  StarsGaia.mLoadedMinMagnitude (fst acc')
  = fold_left Binary32.std_min (magnitudes stars)
      (StarsGaia.mLoadedMinMagnitude (fst acc))
  /\ StarsGaia.mLoadedMaxMagnitude (fst acc')
     = fold_left Binary32.std_max (magnitudes stars)
         (StarsGaia.mLoadedMaxMagnitude (fst acc)).
Proof.
  revert c acc. induction stars as [|s rest IH]; intros c acc H;
    cbn [StarsGaia.buildLoop] in H.
  - injection H as <-. split; reflexivity.
  - unfold StarsGaia.buildStep in H at 1.
    destruct (spectralColor _ s) as [color| |]; cbn [obind] in H; try discriminate.
    destruct (writeBlock _ c _) as [data| |]; cbn [obind] in H; try discriminate.
    destruct (advance c) as [c'| |]; cbn [obind] in H; try discriminate.
    apply IH in H. cbn [fst StarsGaia.mLoadedMinMagnitude
                          StarsGaia.mLoadedMaxMagnitude] in H.
    exact H.
Qed.

Lemma fold_std_min (l : list float) (a : float) :
  numeric a -> Forall numeric l ->
  let r := fold_left Binary32.std_min l a in
  numeric r
  /\ (val r <= val a)%R
  /\ Forall (fun x => (val r <= val x)%R) l
  /\ (r = a \/ In r l).
Proof.
  intros Ha Hl. revert a Ha. induction Hl as [|x l Hx _ IH]; intros a Ha; cbn.
  - repeat split; try apply Ha; [lra|constructor|now left].
  - destruct (std_min_cases a x Ha Hx) as (Hc & Hla & Hlx).
    assert (Hn : numeric (Binary32.std_min a x)) by (destruct Hc as [->| ->]; assumption).
    destruct (IH _ Hn) as (Hr & Hle & Hall & Hin).
    split; [exact Hr|]. split; [lra|]. split.
    + constructor; [lra|exact Hall].
    + destruct Hin as [Hin|Hin]; [|now right; right].
      rewrite Hin. destruct Hc as [->| ->]; [now left|now right; left].
Qed.

Lemma fold_std_max (l : list float) (a : float) :
  numeric a -> Forall numeric l ->
  let r := fold_left Binary32.std_max l a in
  numeric r
  /\ (val a <= val r)%R
  /\ Forall (fun x => (val x <= val r)%R) l
  /\ (r = a \/ In r l).
Proof.
  intros Ha Hl. revert a Ha. induction Hl as [|x l Hx _ IH]; intros a Ha; cbn.
  - repeat split; try apply Ha; [lra|constructor|now left].
  - destruct (std_max_cases a x Ha Hx) as (Hc & Hla & Hlx).
    assert (Hn : numeric (Binary32.std_max a x)) by (destruct Hc as [->| ->]; assumption).
    destruct (IH _ Hn) as (Hr & Hle & Hall & Hin).
    split; [exact Hr|]. split; [lra|]. split.
    + constructor; [lra|exact Hall].
    + destruct Hin as [Hin|Hin]; [|now right; right].
      rewrite Hin. destruct Hc as [->| ->]; [now left|now right; left].
Qed.

(** X11. The least loaded magnitude.  For a freshly constructed object
    with a non-empty list of stars whose visual magnitudes are numbers,
    [buildStarVAO] leaves in [mLoadedMinMagnitude] a value that no star's
    magnitude is below and that is the magnitude of one of the stars. *)
Theorem loaded_min_magnitude_is_the_least (st st' : StarsGaia.Stars)
  (data : list StarsGaia.Vertex) :
  StarsGaia.mLoadedMinMagnitude st = Binary32.numeric_limits_max ->
  StarsGaia.mStars st <> [] ->
  Forall numeric (magnitudes (StarsGaia.mStars st)) ->
  StarsGaia.buildStarVAO st = Returns (st', data) ->
  Forall (fun v => (val (StarsGaia.mLoadedMinMagnitude st') <= val v)%R)
         (magnitudes (StarsGaia.mStars st))
  /\ exists v, In v (magnitudes (StarsGaia.mStars st))
               /\ val v = val (StarsGaia.mLoadedMinMagnitude st').
Proof.
  intros Hinit Hne Hnum H. unfold StarsGaia.buildStarVAO in H.
  apply StarsGaia_buildLoop_range in H. destruct H as (Hmin & _).
  cbn [fst] in Hmin. rewrite Hinit in Hmin.
  assert (Hmaxn : numeric Binary32.numeric_limits_max) by (split; reflexivity).
  destruct (fold_std_min _ _ Hmaxn Hnum) as (_ & _ & Hall & Hin).
  rewrite <- Hmin in Hall, Hin. split; [exact Hall|].
  destruct Hin as [Hin|Hin].
  - destruct (StarsGaia.mStars st) as [|s rest]; [contradiction|].
    exists (mVMagnitude s). split; [now left|].
    apply Forall_inv in Hall, Hnum. apply val_le_max in Hnum.
    rewrite Hin in *. lra.
  - exists (StarsGaia.mLoadedMinMagnitude st'). split; [exact Hin|reflexivity].
Qed.

Lemma loaded_min_magnitude_is_the_least_witness :
  exists st' data,
    StarsGaia.buildStarVAO
      (StarsGaia.setStars
         {| StarsGaia.mCatalogs := Samples.hipparcosAlone;
            StarsGaia.mStars := [];
            StarsGaia.mSpectralColors := spectralColors;
            StarsGaia.mLoadedMinMagnitude := Binary32.numeric_limits_max;
            StarsGaia.mLoadedMaxMagnitude := Binary32.numeric_limits_min |}
         [Samples.sunlike; Samples.sirius])
    = Returns (st', data)
    /\ Forall (fun v => (val (StarsGaia.mLoadedMinMagnitude st') <= val v)%R)
              [mVMagnitude Samples.sunlike; mVMagnitude Samples.sirius]
    /\ exists v, In v [mVMagnitude Samples.sunlike; mVMagnitude Samples.sirius]
                 /\ val v = val (StarsGaia.mLoadedMinMagnitude st').
Proof.
  eexists. eexists. split; [vm_compute; reflexivity|].
  eapply loaded_min_magnitude_is_the_least
    with (st := StarsGaia.setStars
                  {| StarsGaia.mCatalogs := Samples.hipparcosAlone;
                     StarsGaia.mStars := [];
                     StarsGaia.mSpectralColors := spectralColors;
                     StarsGaia.mLoadedMinMagnitude := Binary32.numeric_limits_max;
                     StarsGaia.mLoadedMaxMagnitude := Binary32.numeric_limits_min |}
                  [Samples.sunlike; Samples.sirius]).
  - reflexivity.
  - discriminate.
  - repeat constructor.
  - vm_compute. reflexivity.
Defined.

(** X12. The greatest loaded magnitude has a floor.  Under the same
    conditions [mLoadedMaxMagnitude] is no less than any star's magnitude
    and no less than its start value, the smallest positive normal float
    2^-126; it is that start value or the magnitude of one of the stars.
    So it is the greatest magnitude exactly when that is at least
    2^-126. *)
Theorem loaded_max_magnitude_has_a_floor (st st' : StarsGaia.Stars)
  (data : list StarsGaia.Vertex) :
  StarsGaia.mLoadedMaxMagnitude st = Binary32.numeric_limits_min ->
  Forall numeric (magnitudes (StarsGaia.mStars st)) ->
  StarsGaia.buildStarVAO st = Returns (st', data) ->
  Forall (fun v => (val v <= val (StarsGaia.mLoadedMaxMagnitude st'))%R)
         (magnitudes (StarsGaia.mStars st))
  /\ (F2R 1 (-126) <= val (StarsGaia.mLoadedMaxMagnitude st'))%R
  /\ (StarsGaia.mLoadedMaxMagnitude st' = Binary32.numeric_limits_min
      \/ In (StarsGaia.mLoadedMaxMagnitude st') (magnitudes (StarsGaia.mStars st))).
Proof.
  intros Hinit Hnum H. unfold StarsGaia.buildStarVAO in H.
  apply StarsGaia_buildLoop_range in H. destruct H as (_ & Hmax).
  cbn [fst] in Hmax. rewrite Hinit in Hmax.
  assert (Hminn : numeric Binary32.numeric_limits_min) by (split; reflexivity).
  destruct (fold_std_max _ _ Hminn Hnum) as (_ & Hge & Hall & Hin).
  rewrite <- Hmax in Hall, Hin, Hge. split; [exact Hall|]. split; [|exact Hin].
  eapply Rle_trans; [|exact Hge].
  unfold Binary32.numeric_limits_min. cbn [val].
  apply F2R_le_dyadic. cbn. lia.
Qed.

Lemma loaded_max_magnitude_has_a_floor_witness :
  exists st' data,
    StarsGaia.buildStarVAO
      (StarsGaia.setStars
         {| StarsGaia.mCatalogs := Samples.hipparcosAlone;
            StarsGaia.mStars := [];
            StarsGaia.mSpectralColors := spectralColors;
            StarsGaia.mLoadedMinMagnitude := Binary32.numeric_limits_max;
            StarsGaia.mLoadedMaxMagnitude := Binary32.numeric_limits_min |}
         [Samples.sirius])
    = Returns (st', data)
    /\ Forall (fun v => (val v <= val (StarsGaia.mLoadedMaxMagnitude st'))%R)
              [mVMagnitude Samples.sirius]
    /\ (F2R 1 (-126) <= val (StarsGaia.mLoadedMaxMagnitude st'))%R
    /\ (StarsGaia.mLoadedMaxMagnitude st' = Binary32.numeric_limits_min
        \/ In (StarsGaia.mLoadedMaxMagnitude st') [mVMagnitude Samples.sirius]).
Proof.
  eexists. eexists. split; [vm_compute; reflexivity|].
  eapply loaded_max_magnitude_has_a_floor
    with (st := StarsGaia.setStars
                  {| StarsGaia.mCatalogs := Samples.hipparcosAlone;
                     StarsGaia.mStars := [];
                     StarsGaia.mSpectralColors := spectralColors;
                     StarsGaia.mLoadedMinMagnitude := Binary32.numeric_limits_max;
                     StarsGaia.mLoadedMaxMagnitude := Binary32.numeric_limits_min |}
                  [Samples.sirius]).
  - reflexivity.
  - repeat constructor.
  - vm_compute. reflexivity.
Defined.

(* ================================================================== *)
(** * The distance of a star *)
(* ================================================================== *)

Lemma shr_fexp_positive (m e : Z) (l : location) :
  0 < m -> e <= fexp32 (Zdigits2 m + e) -> -149 < Zdigits2 m + e ->
  forall mrs e', shr_fexp 24 128 m e l = (mrs, e') ->
    0 < shr_m mrs /\ -149 <= e'.
Proof.
  intros Hm HP Hd mrs e'. unfold shr_fexp, shr.
  rewrite fexp32_eq in HP. rewrite !fexp32_eq.
  destruct (Z.max (Zdigits2 m + e - 24) (-149) - e) as [|p|p] eqn:En.
  - intros [= <- <-]. rewrite shr_m_of_loc. split; lia.
  - rewrite iter_pos_nat. intros [= <- <-].
    pose proof (iter_shr_1 (Pos.to_nat p) (shr_record_of_loc m l)) as Hit.
    rewrite shr_m_of_loc in Hit. destruct (Hit ltac:(lia)) as [Mm _]. clear Hit.
    rewrite positive_nat_Z in Mm. rewrite Mm. split; [|lia].
    pose proof (Zdigits2_div_pow2 m (Z.pos p) ltac:(lia) ltac:(lia)) as Hdq.
    destruct (Z.eq_dec (m / 2 ^ Z.pos p) 0) as [H0|H0].
    + rewrite H0 in Hdq. cbn [Zdigits2] in Hdq. lia.
    + assert (0 <= m / 2 ^ Z.pos p)
        by (apply Z.div_pos; [lia|apply Z.pow_pos_nonneg; lia]).
      lia.
  - lia.
Qed.

(** A mantissa whose leading bit lies above the least exponent does not
    round to zero. *)
Lemma binary_round_aux_positive (sx : bool) (mx ex : Z) (lx : location) :
  0 < mx -> ex <= fexp32 (Zdigits2 mx + ex) -> -149 < Zdigits2 mx + ex ->
  (exists m e, binary_round_aux 24 128 sx mx ex lx = S754_finite sx m e)
  \/ binary_round_aux 24 128 sx mx ex lx = S754_infinity sx.
Proof.
  intros Hm HP Hd. unfold binary_round_aux.
  destruct (shr_fexp 24 128 mx ex lx) as [mrs1 e1] eqn:E1.
  destruct (shr_fexp_positive mx ex lx Hm HP Hd mrs1 e1 E1) as (H1m & H1e).
  pose proof (round_nearest_even_spec mrs1) as Hrm. cbv zeta in Hrm.
  set (rm := round_nearest_even (shr_m mrs1) (loc_of_shr_record mrs1)) in *.
  assert (Hrm0 : 0 < rm) by (destruct Hrm as [->|[-> _]]; lia).
  destruct (shr_fexp_spec mx ex lx ltac:(lia) HP mrs1 e1 E1) as (_ & _ & _ & H1c & _).
  assert (HP2 : e1 <= fexp32 (Zdigits2 rm + e1)).
  { pose proof (Zdigits2_le (shr_m mrs1) rm
                  ltac:(destruct Hrm as [->|[-> _]]; lia)).
    rewrite fexp32_eq in *. lia. }
  assert (Hd2 : -149 < Zdigits2 rm + e1).
  { pose proof (Zdigits2_bounds rm Hrm0) as [_ Hhi].
    destruct (Z_le_gt_dec (Zdigits2 rm) 0) as [Hz|]; [|lia].
    pose proof (Zdigits2_nonneg rm).
    replace (Zdigits2 rm) with 0 in Hhi by lia. cbn in Hhi. lia. }
  destruct (shr_fexp 24 128 rm e1 loc_Exact) as [mrs2 e2] eqn:E2.
  destruct (shr_fexp_positive rm e1 loc_Exact Hrm0 HP2 Hd2 mrs2 e2 E2) as (H2m & _).
  destruct (shr_m mrs2) as [|p|p]; [lia| |lia].
  destruct (e2 <=? 128 - 24); [left; now exists p, e2|now right].
Qed.

(** [1000.F / p] for a positive number [p] is positive: the quotient has
    24 bits before it is rounded, and its exponent is above the least
    one. *)
Lemma div_1000_positive (m : positive) (e : Z) :
  Binary32.valid (S754_finite false m e) = true ->
  (exists m' e',
     Binary32.div Binary32.f1000 (S754_finite false m e) = S754_finite false m' e')
  \/ Binary32.div Binary32.f1000 (S754_finite false m e) = S754_infinity false.
Proof.
  intros Hv. apply valid_finite_iff in Hv. destruct Hv as (Hm & He & _).
  unfold Binary32.div, Binary32.f1000, SFdiv.
  change Binary32.prec with 24. change Binary32.emax with 128.
  destruct (SFdiv_core_binary 24 128 16384000 (-14) (Zpos m) e) as [[q e'] l] eqn:E.
  destruct (SFdiv_core_binary_spec 16384000 (-14) (Zpos m) e
              ltac:(lia) ltac:(lia) q e' l E) as (Hq0 & HP & _ & _).
  assert (Hd : 1 <= Zdigits2 (Zpos m) <= 24).
  { cbn [Zdigits2]. split; [lia|]. apply digits2_pos_le; lia. }
  assert (Hqe : 0 < q /\ e' = -14 - (Zdigits2 (Zpos m) + e)).
  { unfold SFdiv_core_binary in E.
    change (Zdigits2 16384000) with 24 in E.
    rewrite fexp32_eq in E.
    replace (Z.min (Z.max (24 + -14 - (Zdigits2 (Zpos m) + e) - 24) (-149)) (-14 - e))
      with (-14 - (Zdigits2 (Zpos m) + e)) in E by lia.
    replace (-14 - e - (-14 - (Zdigits2 (Zpos m) + e)))
      with (Zdigits2 (Zpos m)) in E by lia.
    cbn [Zdigits2] in E.
    rewrite Z.shiftl_mul_pow2 in E by lia.
    destruct (Z.div_eucl (16384000 * 2 ^ Zpos (digits2_pos m)) (Zpos m))
      as [q' r'] eqn:Ed.
    injection E as <- <- _. split; [|reflexivity].
    assert (Hq' : q' = 16384000 * 2 ^ Zpos (digits2_pos m) / Zpos m)
      by (unfold Z.div; now rewrite Ed).
    rewrite Hq'. apply Z.div_str_pos.
    pose proof (digits2_pos_bounds m) as [_ Hhi]. lia. }
  destruct Hqe as (Hq & He').
  assert (Hdq : -149 < Zdigits2 q + e').
  { pose proof (Zdigits2_bounds q Hq) as [_ Hhi].
    pose proof (Zdigits2_nonneg q).
    assert (Zdigits2 q <> 0) by (intros C; rewrite C in Hhi; cbn in Hhi; lia).
    lia. }
  exact (binary_round_aux_positive (xorb false false) q e' l Hq HP Hdq).
Qed.

(** X13. The distance of a star is positive.  For every star whose
    parallax is a number, the distance the vertex builder computes is a
    positive float or plus infinity: it is never zero, negative or NaN.
    A parallax of zero or below gives the default of 100000 parsec. *)
Theorem distance_is_positive (s : Star) :
  numeric (mParallax s) ->
  ((exists m e, distance s = S754_finite false m e)
   \/ distance s = S754_infinity false)
  /\ (Binary32.ltb Binary32.zero (mParallax s) = false ->
      distance s = Binary32.f100000).
Proof.
  intros (Hv & Hn). unfold distance. split.
  - destruct (mParallax s) as [sp|sp| |sp mp ep]; try discriminate Hn.
    + left. now exists 12800000%positive, (-7).
    + destruct sp.
      * left. now exists 12800000%positive, (-7).
      * change (Binary32.ltb Binary32.zero (S754_finite false mp ep)) with true.
        cbv iota. now apply div_1000_positive.
  - intros ->. reflexivity.
Qed.

Lemma distance_is_positive_witness :
  ((exists m e, distance Samples.sirius = S754_finite false m e)
   \/ distance Samples.sirius = S754_infinity false)
  /\ (Binary32.ltb Binary32.zero (mParallax Samples.sirius) = false ->
      distance Samples.sirius = Binary32.f100000).
Proof.
  apply (distance_is_positive Samples.sirius). split; reflexivity.
Defined.

(* ================================================================== *)
(** * The vertex table *)
(* ================================================================== *)

Lemma spectralColor_first_entries (s : Star) :
  valid_magnitudes s ->
  exists c, spectralColor spectralColors s = Returns c
            /\ In c (firstn 21 spectralColors).
Proof.
  intros (Hb & Hv). destruct (spectral_index_bound s Hb Hv) as (i & Hi & Hr).
  unfold spectralColor. rewrite Hi.
  assert (Hcases : In i [0; 1; 2; 3; 4; 5; 6; 7; 8; 9; 10; 11; 12; 13; 14; 15;
                         16; 17; 18; 19; 20]).
  { cbn [In]. lia. }
  cbn [In] in Hcases.
  repeat (destruct Hcases as [<-|Hcases];
          [eexists; split; [reflexivity|cbn; tauto]|]).
  destruct Hcases.
Qed.

Lemma advance_in_range (c : Z) :
  c + 7 <= INT_MAX -> advance c = Returns (c + 7).
Proof.
  intros H. unfold advance, iElementCount.
  destruct (Z.leb_spec (c + 7) INT_MAX); [reflexivity|lia].
Qed.

Lemma advance_overflow (c : Z) :
  INT_MAX < c + 7 -> advance c = Undefined (SignedOverflow (c + 7)).
Proof.
  intros H. unfold advance, iElementCount.
  destruct (Z.leb_spec (c + 7) INT_MAX); [lia|reflexivity].
Qed.

(** Writing the block after the blocks already written. *)
Lemma writeBlock_next {A : Type} (done rest : list A) (b v : A) :
  writeBlock (done ++ b :: rest) (7 * Z.of_nat (List.length done)) v
  = Returns (done ++ v :: rest).
Proof.
  unfold writeBlock, iElementCount. rewrite length_app. cbn [List.length].
  destruct (Z.leb_spec 0 (7 * Z.of_nat (List.length done))) as [_|]; [|lia].
  destruct (Z.ltb_spec (7 * Z.of_nat (List.length done) + 6)
              (7 * Z.of_nat (List.length done + S (List.length rest)))) as [_|];
    [|lia].
  cbn [andb].
  replace (7 * Z.of_nat (List.length done) / 7) with (Z.of_nat (List.length done))
    by (rewrite Z.mul_comm, Z.div_mul; lia).
  rewrite Nat2Z.id.
  rewrite firstn_app, firstn_all, Nat.sub_diag. cbn [firstn]. rewrite app_nil_r.
  rewrite skipn_app, skipn_all2 by lia.
  replace (S (List.length done) - List.length done)%nat with 1%nat by lia.
  reflexivity.
Qed.

Lemma StarsHDR_buildLoop_vertices {ML : MathLibrary} (stars : list Star)
  (done : list StarsHDR.Vertex) :
  Forall valid_magnitudes stars ->
  7 * (Z.of_nat (List.length done) + Z.of_nat (List.length stars)) <= INT_MAX ->
  exists new,
    StarsHDR.buildLoop spectralColors stars (7 * Z.of_nat (List.length done))
      (done ++ repeat StarsHDR.blank (List.length stars))
    = Returns (done ++ new)
    /\ map StarsHDR.vDeclination new = map mDeclination stars
    /\ map StarsHDR.vAscension new = map mAscension stars
    /\ map StarsHDR.vDistance new = map distance stars
    /\ Forall (fun v => In (StarsHDR.vColor v) (firstn 21 spectralColors)) new.
Proof.
  intros H. revert done. induction H as [|s stars Hs _ IH]; intros done Hn.
  - exists []. cbn [List.length repeat StarsHDR.buildLoop]. repeat split; constructor.
  - cbn [List.length repeat StarsHDR.buildLoop]. unfold StarsHDR.buildStep.
    destruct (spectralColor_first_entries s Hs) as (c & -> & Hc). cbn [obind].
    rewrite writeBlock_next. cbn [obind].
    cbn [List.length] in Hn.
    rewrite advance_in_range by lia. cbn [obind].
    destruct (IH (done ++ [StarsHDR.vertexOf c s])) as (new & Hrun & Hd & Ha & Hr & Hcol).
    { rewrite length_app. cbn [List.length]. lia. }
    exists (StarsHDR.vertexOf c s :: new).
    rewrite length_app in Hrun. cbn [List.length] in Hrun.
    replace (7 * Z.of_nat (List.length done + 1)) with (7 * Z.of_nat (List.length done) + 7)
      in Hrun by lia.
    rewrite <- !app_assoc in Hrun. cbn [app] in Hrun.
    split; [exact Hrun|].
    cbn [map StarsHDR.vDeclination StarsHDR.vAscension StarsHDR.vDistance
           StarsHDR.vertexOf].
    rewrite Hd, Ha, Hr. repeat split. constructor; assumption.
Qed.

(** With more stars than [int c] can count blocks for, the loop runs into
    the overflow of [c += iElementCount]. *)
Lemma StarsHDR_buildLoop_overflow {ML : MathLibrary} (stars : list Star)
  (done : list StarsHDR.Vertex) :
  Forall valid_magnitudes stars ->
  7 * Z.of_nat (List.length done) <= INT_MAX ->
  INT_MAX < 7 * (Z.of_nat (List.length done) + Z.of_nat (List.length stars)) ->
  exists v,
    StarsHDR.buildLoop spectralColors stars (7 * Z.of_nat (List.length done))
      (done ++ repeat StarsHDR.blank (List.length stars))
    = Undefined (SignedOverflow v)
    /\ INT_MAX < v.
Proof.
  intros H. revert done. induction H as [|s stars Hs _ IH]; intros done Hd Hn.
  - cbn [List.length] in Hn. lia.
  - cbn [List.length repeat StarsHDR.buildLoop]. unfold StarsHDR.buildStep.
    destruct (spectralColor_first_entries s Hs) as (c & -> & Hc). cbn [obind].
    rewrite writeBlock_next. cbn [obind].
    destruct (Z.le_gt_cases (7 * Z.of_nat (List.length done) + 7) INT_MAX) as [Hle|Hgt].
    + rewrite advance_in_range by assumption. cbn [obind].
      destruct (IH (done ++ [StarsHDR.vertexOf c s])) as (v & Hrun & Hv).
      { rewrite length_app. cbn [List.length]. lia. }
      { rewrite length_app. cbn [List.length] in *. lia. }
      exists v. split; [|exact Hv].
      rewrite length_app in Hrun. cbn [List.length] in Hrun.
      replace (7 * Z.of_nat (List.length done + 1))
        with (7 * Z.of_nat (List.length done) + 7) in Hrun by lia.
      rewrite <- !app_assoc in Hrun. exact Hrun.
    + rewrite advance_overflow by lia. cbn [obind]. eexists. split; [reflexivity|lia].
Qed.

(** X14. The vertex table follows the star list.  For an initialised
    colour table and stars whose two magnitudes are well-formed floats:
    while seven times the number of stars fits an [int], [buildStarVAO]
    never leaves the colour table nor the vertex vector and yields exactly
    one vertex per star, in the order of the stars, with the star's
    declination and ascension, its distance, and a colour that is one of
    the first 21 entries of the table of 47; with more stars (306783379
    or more) the position [int c] overflows. *)
Theorem star_vertices_follow_the_stars {ML : MathLibrary} (st : StarsHDR.Stars) :
  StarsHDR.mSpectralColors st = spectralColors ->
  Forall valid_magnitudes (StarsHDR.mStars st) ->
  (7 * Z.of_nat (List.length (StarsHDR.mStars st)) <= INT_MAX ->
   exists data,
     StarsHDR.buildStarVAO st = Returns data
     /\ map StarsHDR.vDeclination data = map mDeclination (StarsHDR.mStars st)
     /\ map StarsHDR.vAscension data = map mAscension (StarsHDR.mStars st)
     /\ map StarsHDR.vDistance data = map distance (StarsHDR.mStars st)
     /\ Forall (fun v => In (StarsHDR.vColor v) (firstn 21 spectralColors)) data)
  /\ (306783379 <= Z.of_nat (List.length (StarsHDR.mStars st)) ->
      exists v, StarsHDR.buildStarVAO st = Undefined (SignedOverflow v)
                /\ INT_MAX < v).
Proof.
  intros Ht Hv. unfold StarsHDR.buildStarVAO. rewrite Ht. split; intros Hn.
  - destruct (StarsHDR_buildLoop_vertices (StarsHDR.mStars st) [] Hv)
      as (new & Hrun & Hrest); [cbn [List.length]; lia|].
    exists new. split; [exact Hrun|exact Hrest].
  - apply (StarsHDR_buildLoop_overflow (StarsHDR.mStars st) [] Hv);
      cbn [List.length]; unfold INT_MAX; lia.
Qed.

Lemma star_vertices_follow_the_stars_witness :
  exists data,
    StarsHDR.buildStarVAO (ML := Scenes.anyLog10) Scenes.twoStars = Returns data
    /\ map StarsHDR.vDeclination data = map mDeclination [Samples.sirius; Samples.sunlike]
    /\ map StarsHDR.vAscension data = map mAscension [Samples.sirius; Samples.sunlike]
    /\ map StarsHDR.vDistance data = map distance [Samples.sirius; Samples.sunlike]
    /\ Forall (fun v => In (StarsHDR.vColor v) (firstn 21 spectralColors)) data.
Proof.
  apply (star_vertices_follow_the_stars (ML := Scenes.anyLog10) Scenes.twoStars).
  - reflexivity.
  - repeat constructor.
  - cbn. unfold INT_MAX. lia.
Defined.

(* ================================================================== *)
(** * Drawing a frame *)
(* ================================================================== *)

Lemma literal_0_3 : Plugin.f0_3 = S754_finite false 10066330 (-25).
Proof. reflexivity. Qed.

(** [0.3f * x] of a number [x] is a number: the product does not leave
    the range of [float]. *)
Lemma mul_0_3_number (x : float) :
  numeric x -> is_number (Binary32.mul Plugin.f0_3 x) = true.
Proof.
  intros (Hv & Hn). rewrite literal_0_3. unfold Binary32.mul.
  change Binary32.prec with 24. change Binary32.emax with 128.
  destruct x as [sx|sx| |sx mx ex]; try discriminate Hn; [reflexivity|].
  cbn [SFmul].
  apply valid_finite_iff in Hv. destruct Hv as (Hm & He & _).
  rewrite Pos2Z.inj_mul.
  assert (Hd : 24 <= Zdigits2 (10066330 * Zpos mx)).
  { apply Zdigits2_ge_pow; [lia|]. change (2 ^ (24 - 1)) with 8388608. lia. }
  assert (HP : -25 + ex <= fexp32 (Zdigits2 (10066330 * Zpos mx) + (-25 + ex))).
  { rewrite fexp32_eq. lia. }
  assert (Hrep : representable 16777215 104).
  { unfold representable. change (Zdigits2 16777215) with 24. lia. }
  assert (Hle : (F2R (10066330 * Zpos mx) (-25 + ex) <= F2R 16777215 104)%R).
  { rewrite <- F2R_mult.
    assert (H1 : (0 <= F2R 10066330 (-25) <= 1)%R).
    { split; [apply Rlt_le, F2R_pos; lia|].
      replace 1%R with (F2R 1 0) by (unfold F2R, bpow; cbn; lra).
      apply F2R_le_dyadic. cbn. lia. }
    assert (H2 : (0 <= F2R (Zpos mx) ex <= F2R 16777215 104)%R).
    { split; [apply Rlt_le, F2R_pos; lia|].
      apply Rle_trans with (F2R 16777215 ex); [apply F2R_le; lia|].
      apply F2R_le_dyadic. rewrite Z.min_l by lia.
      rewrite Z.sub_diag, Z.pow_0_r, Z.mul_1_r.
      assert (0 < 2 ^ (104 - ex)) by (apply Z.pow_pos_nonneg; lia). lia. }
    set (a := F2R 10066330 (-25)) in *. set (b := F2R (Zpos mx) ex) in *.
    set (c := F2R 16777215 104) in *. nra. }
  destruct (binary_round_aux_below (xorb false sx) (10066330 * Zpos mx) (-25 + ex)
              loc_Exact 16777215 104 ltac:(lia) HP Hrep ltac:(lia) Hle
              ltac:(congruence)) as [->|(m & e & -> & _)]; reflexivity.
Qed.

Lemma mul_number_zero (x : float) (s : bool) :
  is_number x = true -> exists s', Binary32.mul x (S754_zero s) = S754_zero s'.
Proof.
  destruct x as [sx|sx| |sx mx ex]; try discriminate; intros _; eexists; reflexivity.
Qed.

(** After an [update] with the grid switched off, the first background
    image is not shown. *)
Lemma update_hides_the_grid (brightness : float) (hdr : bool)
  (p : Plugin.Properties) (st : Rendering.Stars) :
  numeric brightness ->
  Plugin.mEnableCelestialGrid p = false ->
  Rendering.shown
    (Rendering.mBackgroundTexture1 (Plugin.update brightness hdr p st))
    (Rendering.mBackgroundColor1 (Plugin.update brightness hdr p st)) = false.
Proof.
  intros Hb Hg. unfold Plugin.update.
  cbn [Rendering.setBackgroundColor2 Rendering.setBackgroundColor1
       Rendering.mBackgroundTexture1 Rendering.mBackgroundColor1].
  unfold Rendering.shown. destruct (Rendering.mBackgroundTexture1 _); [|reflexivity].
  cbn [Rendering.alpha]. rewrite Hg. cbn [Plugin.flag].
  set (x := Binary32.mul Plugin.f0_3 _).
  assert (Hn : is_number x = true).
  { subst x. destruct hdr; [reflexivity|now apply mul_0_3_number]. }
  destruct (mul_number_zero x false Hn) as (s' & Hz).
  change Binary32.zero with (S754_zero false). rewrite Hz. now destruct s'.
Qed.

Lemma last_of_app {A : Type} (l1 l2 : list A) (d : A) :
  l2 <> [] -> last (l1 ++ l2) d = last l2 d.
Proof.
  intros H. induction l1 as [|a l1 IH]; [reflexivity|].
  cbn [app]. destruct (l1 ++ l2) eqn:E.
  - apply app_eq_nil in E. destruct E as [_ E]. contradiction.
  - rewrite <- IH. reflexivity.
Qed.

Lemma drawStarsHead_members (viewport : list Z) (st : Rendering.Stars)
  (m : Rendering.Member) :
  m <> Rendering.StarVAO -> m <> Rendering.StarShader ->
  existsb (Rendering.uses m) (Rendering.drawStarsHead viewport st) = false.
Proof.
  intros H1 H2. unfold Rendering.drawStarsHead.
  destruct (StarsHDR.mDrawMode (Rendering.base st)), m;
    try reflexivity; contradiction.
Qed.

Lemma drawStarsTail_members (st : Rendering.Stars) (m : Rendering.Member) :
  m <> Rendering.StarVAO -> m <> Rendering.StarShader ->
  m <> Rendering.StarTexture ->
  existsb (Rendering.uses m) (Rendering.drawStarsTail st) = false.
Proof.
  intros H1 H2 H3. destruct m; try reflexivity; contradiction.
Qed.

(** X15. A hidden grid is not drawn.  After [Plugin::update] with the
    celestial grid switched off, for every scene brightness that is a
    number and with or without HDR, the alpha of the first background
    colour is a zero, and the next frame calls no method of the first
    background texture: the grid image is neither bound nor drawn. *)
Theorem hidden_grid_is_not_drawn (brightness : float) (hdr : bool)
  (p : Plugin.Properties) (st : Rendering.Stars) (viewport : list Z) :
  numeric brightness ->
  Plugin.mEnableCelestialGrid p = false ->
  Rendering.nonzero
    (Rendering.alpha
       (Rendering.mBackgroundColor1 (Plugin.update brightness hdr p st))) = false
  /\ existsb (Rendering.uses Rendering.BackgroundTexture1)
       (Rendering.calls
          (snd (Rendering.Do viewport (Plugin.update brightness hdr p st)))) = false.
Proof.
  intros Hb Hg.
  pose proof (update_hides_the_grid brightness hdr p st Hb Hg) as Hs.
  set (st1 := Plugin.update brightness hdr p st) in *.
  split.
  - assert (Hz : exists s', Rendering.alpha (Rendering.mBackgroundColor1 st1)
                            = S754_zero s').
    { subst st1. unfold Plugin.update.
      cbn [Rendering.setBackgroundColor2 Rendering.setBackgroundColor1
           Rendering.mBackgroundColor1 Rendering.alpha].
      rewrite Hg. cbn [Plugin.flag]. apply mul_number_zero.
      destruct hdr; [reflexivity|now apply mul_0_3_number]. }
    destruct Hz as (s' & ->). now destruct s'.
  - unfold Rendering.Do.
    set (st2 := Rendering.withBase (StarsHDR.Do (Rendering.base st1)) st1).
    assert (Hs2 : Rendering.shown (Rendering.mBackgroundTexture1 st2)
                    (Rendering.mBackgroundColor1 st2) = false) by exact Hs.
    assert (Hbg : existsb (Rendering.uses Rendering.BackgroundTexture1)
                    (Rendering.drawBackground st2) = false).
    { unfold Rendering.drawBackground. rewrite Hs2. cbn [orb].
      destruct (Rendering.shown (Rendering.mBackgroundTexture2 st2) _); reflexivity. }
    assert (Hhead : existsb (Rendering.uses Rendering.BackgroundTexture1)
                      (Rendering.drawStarsHead viewport st2) = false)
      by (apply drawStarsHead_members; discriminate).
    assert (Htail : existsb (Rendering.uses Rendering.BackgroundTexture1)
                      (Rendering.drawStarsTail st2) = false)
      by (apply drawStarsTail_members; discriminate).
    destruct (Rendering.mStarTexture st2); cbn [snd Rendering.calls];
      rewrite !existsb_app, Hbg, Hhead, ?Htail; reflexivity.
Qed.

Lemma hidden_grid_is_not_drawn_witness :
  Rendering.nonzero
    (Rendering.alpha
       (Rendering.mBackgroundColor1
          (Plugin.update Binary32.f0_5 false Scenes.hidden Scenes.sky))) = false
  /\ existsb (Rendering.uses Rendering.BackgroundTexture1)
       (Rendering.calls
          (snd (Rendering.Do [0; 0; 1920; 1080]
                  (Plugin.update Binary32.f0_5 false Scenes.hidden Scenes.sky))))
     = false.
Proof.
  apply (hidden_grid_is_not_drawn Binary32.f0_5 false Scenes.hidden Scenes.sky
           [0; 0; 1920; 1080]).
  - split; reflexivity.
  - reflexivity.
Defined.

(** X16. A frame submits every star once.  With a star texture set, [Do]
    completes the frame: it starts by saving the OpenGL attributes, ends
    by restoring them, and draws points exactly once, over all loaded
    stars (fewer than 2^31), whatever the magnitude limits are; the limits
    only travel to the shader as uniforms.  Without a star texture the
    frame ends in a call through the null pointer before any star is
    drawn and before the attributes are restored. *)
Theorem frame_submits_every_star_once (viewport : list Z) (st : Rendering.Stars) :
  (forall texture,
     Rendering.mStarTexture st = Some texture ->
     Z.of_nat (List.length (StarsHDR.mStars (Rendering.base st))) < 2 ^ 31 ->
     exists calls,
       snd (Rendering.Do viewport st) = Rendering.Completed calls
       /\ hd_error calls
          = Some (Rendering.GL "glPushAttrib"
                    [Rendering.Enum "GL_DEPTH_BUFFER_BIT";
                     Rendering.Enum "GL_COLOR_BUFFER_BIT";
                     Rendering.Enum "GL_ENABLE_BIT"])
       /\ last calls (Rendering.GL "" []) = Rendering.GL "glPopAttrib" []
       /\ filter (Rendering.draws "GL_POINTS") calls
          = [Rendering.GL "glDrawArrays"
               [Rendering.Enum "GL_POINTS"; Rendering.Int 0;
                Rendering.Int
                  (Z.of_nat (List.length (StarsHDR.mStars (Rendering.base st))))]]
       /\ In (Rendering.On Rendering.StarShader "SetUniform"
                [Rendering.Uniform "uMinMagnitude";
                 Rendering.Float (Rendering.mMinMagnitude st)]) calls
       /\ In (Rendering.On Rendering.StarShader "SetUniform"
                [Rendering.Uniform "uMaxMagnitude";
                 Rendering.Float (Rendering.mMaxMagnitude st)]) calls)
  /\ (Rendering.mStarTexture st = None ->
      exists calls,
        snd (Rendering.Do viewport st)
        = Rendering.NullDereference calls Rendering.StarTexture
        /\ filter (Rendering.draws "GL_POINTS") calls = []
        /\ ~ In (Rendering.GL "glPopAttrib" []) calls).
Proof.
  assert (Hbg : forall s, filter (Rendering.draws "GL_POINTS")
                            (Rendering.drawBackground s) = []).
  { intros s. unfold Rendering.drawBackground.
    destruct (Rendering.shown (Rendering.mBackgroundTexture1 s) _),
      (Rendering.shown (Rendering.mBackgroundTexture2 s) _); reflexivity. }
  assert (Hhead : forall s, filter (Rendering.draws "GL_POINTS")
                              (Rendering.drawStarsHead viewport s) = []).
  { intros s. unfold Rendering.drawStarsHead.
    destruct (StarsHDR.mDrawMode (Rendering.base s)); reflexivity. }
  split.
  - intros texture Ht Hn. unfold Rendering.Do.
    set (st2 := Rendering.withBase (StarsHDR.Do (Rendering.base st)) st).
    change (Rendering.mStarTexture st2) with (Rendering.mStarTexture st). rewrite Ht.
    cbn [snd]. eexists. split; [reflexivity|]. split; [reflexivity|]. split.
    { rewrite last_of_app by discriminate. reflexivity. }
    split.
    { rewrite !filter_app, Hbg, Hhead. cbn [app].
      assert (Hstars : StarsHDR.mStars (Rendering.base st2)
                       = StarsHDR.mStars (Rendering.base st)).
      { subst st2. cbn [Rendering.base Rendering.withBase]. unfold StarsHDR.Do.
        destruct (StarsHDR.mShaderDirty (Rendering.base st)); reflexivity. }
      unfold Rendering.drawStarsTail. rewrite Hstars.
      rewrite to_int32_small by lia. reflexivity. }
    split; apply in_or_app; right; cbn; tauto.
  - intros Ht. unfold Rendering.Do.
    set (st2 := Rendering.withBase (StarsHDR.Do (Rendering.base st)) st).
    change (Rendering.mStarTexture st2) with (Rendering.mStarTexture st). rewrite Ht.
    cbn [snd]. eexists. split; [reflexivity|]. split.
    + rewrite !filter_app, Hbg, Hhead. reflexivity.
    + intros Hin. apply in_app_or in Hin. destruct Hin as [Hin|Hin].
      * cbn in Hin. intuition discriminate.
      * apply in_app_or in Hin. destruct Hin as [Hin|Hin].
        -- unfold Rendering.drawBackground in Hin.
           destruct (Rendering.shown (Rendering.mBackgroundTexture1 st2) _),
             (Rendering.shown (Rendering.mBackgroundTexture2 st2) _);
             cbn in Hin; intuition discriminate.
        -- unfold Rendering.drawStarsHead in Hin.
           destruct (StarsHDR.mDrawMode (Rendering.base st2));
             cbn in Hin; intuition discriminate.
Qed.

(* ================================================================== *)
(** * From the files to the vertex table *)
(* ================================================================== *)

(** Every 32-bit pattern decodes to a well-formed float. *)
Lemma of_bits_valid (b : Z) : Binary32.valid (Binary32.of_bits b) = true.
Proof.
  unfold Binary32.of_bits.
  pose proof (Z.mod_pos_bound (b / 2 ^ 23) 256 ltac:(lia)) as Hex.
  pose proof (Z.mod_pos_bound b (2 ^ 23) ltac:(lia)) as Hfr.
  set (ex := (b / 2 ^ 23) mod 256) in *. set (fr := b mod 2 ^ 23) in *.
  change (2 ^ 23) with 8388608 in *.
  destruct (Z.eqb_spec ex 0) as [E0|E0].
  - destruct fr as [|m|m] eqn:Efr; try reflexivity.
    apply valid_finite_iff. change (2 ^ 24) with 16777216. lia.
  - destruct (Z.eqb_spec ex 255) as [E1|E1].
    + destruct (fr =? 0); reflexivity.
    + destruct (fr + 8388608) as [|m|m] eqn:Efr; try reflexivity.
      apply valid_finite_iff. change (2 ^ 24) with 16777216.
      change (2 ^ 23) with 8388608. lia.
Qed.

Lemma ReadFloat32_valid (buffer : list Byte.byte) (target : float) :
  Binary32.valid target = true ->
  Binary32.valid (fst (ReadFloat32 buffer target)) = true.
Proof.
  intros Ht. unfold ReadFloat32.
  destruct buffer as [|b0 [|b1 [|b2 [|b3 rest]]]]; try exact Ht.
  apply of_bits_valid.
Qed.

Lemma readStar_valid (buffer : list Byte.byte) :
  valid_magnitudes (fst (readStar buffer)).
Proof.
  unfold readStar.
  pose proof (ReadFloat32_valid buffer Binary32.zero eq_refl) as Hv.
  destruct (ReadFloat32 buffer Binary32.zero) as [v b1].
  pose proof (ReadFloat32_valid b1 Binary32.zero eq_refl) as Hb.
  destruct (ReadFloat32 b1 Binary32.zero) as [b b2].
  destruct (ReadFloat32 b2 Binary32.zero) as [a b3].
  destruct (ReadFloat32 b3 Binary32.zero) as [d b4].
  destruct (ReadFloat32 b4 Binary32.zero) as [p b5].
  split; assumption.
Qed.

Lemma readStars_valid (n : nat) (buffer : list Byte.byte) (stars : list Star) :
  Forall valid_magnitudes stars ->
  Forall valid_magnitudes (readStars n buffer stars).
Proof.
  revert buffer stars. induction n as [|n IH]; intros buffer stars H; cbn [readStars].
  - exact H.
  - pose proof (readStar_valid buffer) as Hs.
    destruct (readStar buffer) as [s rest]. apply IH.
    apply Forall_app. split; [exact H|]. constructor; [exact Hs|constructor].
Qed.

Lemma deserializeCache_valid (catalogs : Z) (file : list Byte.byte)
  (stars stars' : list Star) (hit : bool) :
  Forall valid_magnitudes stars ->
  deserializeCache catalogs file stars = Returns (hit, stars') ->
  Forall valid_magnitudes stars'.
Proof.
  intros Hv. unfold deserializeCache.
  destruct (to_int32 _ <? 0); [discriminate|].
  destruct (to_int32 _ =? 0); [discriminate|].
  destruct (headerOf _) as [[[cacheVersion cats] numStars] rest].
  destruct (negb (cacheVersion =? _)); [intros H; injection H as _ <-; exact Hv|].
  destruct (negb (cats =? _)); [intros H; injection H as _ <-; exact Hv|].
  intros H. injection H as _ <-. now apply readStars_valid.
Qed.

Section ValidStars.

Context {SE : StreamExtraction}.

(** The extraction of a [float] yields well-formed floats. *)
Hypothesis extraction_valid :
  forall (tok : string) (x : float),
    fromString (T := float) tok = Some x -> Binary32.valid x = true.

Lemma parseLine_valid (row : list Z) (nh lh : bool) (items : list string) (s : Star) :
  parseLine row nh lh items = Ok (Parsed s) -> valid_magnitudes s.
Proof.
  unfold parseLine. destruct (12 <? _); [|discriminate].
  destruct (if nh && lh then _ else _) as [skip|]; cbn [bind]; [|discriminate].
  destruct skip; [discriminate|].
  destruct (subscript items (column row eVmag)) as [v|]; [|discriminate].
  destruct (subscript items (column row eBmag)) as [b|]; [|discriminate].
  destruct (subscript items (column row eRect)) as [r|]; [|discriminate].
  destruct (subscript items (column row eDecl)) as [d|]; [|discriminate].
  cbn [bind].
  destruct (if 0 <? column row ePara then _ else _) as [p|]; cbn [bind];
    [|discriminate].
  destruct (fromString v) as [vm|] eqn:Ev; [|discriminate].
  destruct (fromString b) as [bm|] eqn:Eb; [|discriminate].
  destruct (fromString r) as [ra|]; [|discriminate].
  destruct (fromString d) as [de|]; [|discriminate].
  intros H. injection H as <-. split; cbn.
  - exact (extraction_valid _ _ Eb).
  - exact (extraction_valid _ _ Ev).
Qed.

Lemma readLines_valid (row : list Z) (delim : ascii) (nh lh : bool)
  (lines : list string) (stars stars' : list Star) :
  Forall valid_magnitudes stars ->
  readLines row delim nh lh lines stars = Ok stars' ->
  Forall valid_magnitudes stars'.
Proof.
  revert stars. induction lines as [|line rest IH]; intros stars Hv H; cbn in H.
  - injection H as <-. exact Hv.
  - destruct (parseLine row nh lh (tokenize delim line)) as [r|i n] eqn:E;
      [|discriminate].
    cbn [bind] in H. refine (IH _ _ H).
    apply Forall_app. split; [exact Hv|].
    destruct r; cbn [appended]; try constructor; [|constructor].
    exact (parseLine_valid _ _ _ _ _ E).
Qed.

Lemma StarsHDR_readCatalog_valid (type : StarsHDR.CatalogType) (filename : string)
  (ws ws' : World * StarsHDR.Stars) :
  Forall valid_magnitudes (StarsHDR.mStars (snd ws)) ->
  StarsHDR.readCatalog type filename ws = Returns ws' ->
  Forall valid_magnitudes (StarsHDR.mStars (snd ws')).
Proof.
  intros Hv. unfold StarsHDR.readCatalog, StarsHDR.readStarsFromCatalog.
  destruct (catalogFile (fst ws) filename) as [lines|].
  - destruct (readLines _ _ _ _ lines _) as [stars|] eqn:E; cbn [lift obind];
      [|discriminate].
    intros H. injection H as <-. cbn [snd StarsHDR.mStars StarsHDR.setStars].
    exact (readLines_valid _ _ _ _ _ _ _ Hv E).
  - cbn [obind fst snd]. intros H. injection H as <-. exact Hv.
Qed.

Lemma StarsHDR_stage_valid (type : StarsHDR.CatalogType) (entry : option string)
  (ws ws' : World * StarsHDR.Stars) :
  Forall valid_magnitudes (StarsHDR.mStars (snd ws)) ->
  match entry with
  | Some file => StarsHDR.readCatalog type file ws
  | None => Returns ws
  end = Returns ws' ->
  Forall valid_magnitudes (StarsHDR.mStars (snd ws')).
Proof.
  intros Hv. destruct entry as [file|].
  - now apply StarsHDR_readCatalog_valid.
  - intros H. injection H as <-. exact Hv.
Qed.

Lemma StarsHDR_loadStars_valid (f : string) (w w' : World) (st st' : StarsHDR.Stars) :
  Forall valid_magnitudes (StarsHDR.mStars st) ->
  StarsHDR.loadStars f w st = Returns (w', st') ->
  Forall valid_magnitudes (StarsHDR.mStars st')
  /\ StarsHDR.mSpectralColors st' = StarsHDR.mSpectralColors st.
Proof.
  intros Hv H. split.
  2:{ apply StarsHDR_loadStars_cases in H.
      destruct H as [(Hhit & _)|(_ & w3 & (_ & Hs & _) & _)].
      - apply StarsHDR_readStarCache_grows in Hhit.
        destruct Hhit as (_ & _ & Hs & _). cbn [snd] in Hs. rewrite Hs. reflexivity.
      - cbn [snd] in Hs. rewrite Hs. reflexivity. }
  unfold StarsHDR.loadStars in H.
  first_stage H hit Ehit. destruct hit as [hit st0].
  assert (Hv0 : Forall valid_magnitudes (StarsHDR.mStars st0)).
  { unfold StarsHDR.readStarCache in Ehit.
    destruct (cacheFile w f) as [file|].
    - destruct (deserializeCache _ file _) as [[b stars]| |] eqn:E;
        cbn [obind fst snd] in Ehit; try discriminate.
      injection Ehit as _ <-. cbn [StarsHDR.mStars StarsHDR.setStars].
      exact (deserializeCache_valid _ _ _ _ _ Hv E).
    - injection Ehit as _ <-. exact Hv. }
  cbn [fst snd] in H. destruct hit.
  { injection H as _ <-. exact Hv0. }
  first_stage H ws1 E1. apply StarsHDR_stage_valid in E1; [|exact Hv0].
  first_stage H ws2 E2. apply StarsHDR_stage_valid in E2; [|exact E1].
  first_stage H ws3 E3.
  assert (V3 : Forall valid_magnitudes (StarsHDR.mStars (snd ws3))).
  { destruct (StarsHDR.mCatalogs st0 StarsHDR.eTycho2) as [file|].
    - destruct (negb _).
      + apply StarsHDR_readCatalog_valid in E3; assumption.
      + injection E3 as <-. exact E2.
    - injection E3 as <-. exact E2. }
  destruct (StarsHDR.mStars (snd ws3)) eqn:Es; injection H as _ <-;
    rewrite Es; exact V3.
Qed.

End ValidStars.

(** X17. Nothing the files hold leads the vertex builder out of the
    colour table.  When the extraction of a [float] yields well-formed
    floats and the loading of the stars returns, from any catalog files
    and any cache file, with a number of stars whose sevenfold fits an
    [int] (at most 306783378 stars), [init] returns too: the vertex
    builder finds a colour for every loaded star and yields one vertex per
    star, the background buffer holds its eight floats, and the files are
    left as the loading left them. *)
Theorem init_builds_every_loaded_star
  {SE : StreamExtraction} {ML : MathLibrary} {TL : Rendering.TextureLoader}
  (sStarTextureFile sCacheFile : string) (w w' : World)
  (st : Rendering.Stars) (loaded : StarsHDR.Stars) :
  (forall (tok : string) (x : float),
     fromString (T := float) tok = Some x -> Binary32.valid x = true) ->
  StarsHDR.mStars (Rendering.base st) = [] ->
  StarsHDR.mSpectralColors (Rendering.base st) = [] ->
  StarsHDR.loadStars sCacheFile w (Rendering.coloured (Rendering.base st))
  = Returns (w', loaded) ->
  7 * Z.of_nat (List.length (StarsHDR.mStars loaded)) <= INT_MAX ->
  exists st' buffers,
    Rendering.init sStarTextureFile sCacheFile w st = Returns (w', st', buffers)
    /\ Rendering.base st' = loaded
    /\ List.length (Rendering.starVBO buffers) = List.length (StarsHDR.mStars loaded)
    /\ List.length (Rendering.backgroundVBO buffers) = 8%nat.
Proof.
  intros Hx Hempty Hcol Hload Hfits. unfold Rendering.init. rewrite Hload.
  cbn [obind fst snd].
  destruct (StarsHDR_loadStars_valid Hx sCacheFile w w'
              (Rendering.coloured (Rendering.base st)) loaded) as (Hv & Hc);
    [cbn [Rendering.coloured StarsHDR.mStars]; rewrite Hempty; constructor
    |exact Hload|].
  cbn [Rendering.coloured StarsHDR.mSpectralColors] in Hc.
  rewrite Hcol in Hc. cbn [app] in Hc.
  assert (Hb : Rendering.base
                 (Rendering.setStarTexture sStarTextureFile
                    (Rendering.withBase loaded st)) = loaded).
  { unfold Rendering.setStarTexture. destruct sStarTextureFile; reflexivity. }
  rewrite Hb. unfold StarsHDR.buildStarVAO. rewrite Hc.
  destruct (StarsHDR_buildLoop_vertices (StarsHDR.mStars loaded) [] Hv)
    as (new & Hrun & Hd & _); [cbn [List.length]; lia|].
  cbn [List.length app] in Hrun. change (7 * Z.of_nat 0) with 0 in Hrun.
  rewrite Hrun. cbn [obind app].
  eexists. eexists. split; [reflexivity|]. split; [exact Hb|]. split; [|reflexivity].
  cbn [Rendering.starVBO].
  rewrite <- (length_map StarsHDR.vDeclination new), Hd. apply length_map.
Qed.

(** The rounding step yields well-formed floats. *)
Lemma binary_round_aux_valid (sx : bool) (mx ex : Z) (lx : location) :
  0 <= mx -> ex <= fexp32 (Zdigits2 mx + ex) ->
  Binary32.valid (binary_round_aux 24 128 sx mx ex lx) = true.
Proof.
  intros Hm HP.
  destruct (binary_round_aux_spec sx mx ex lx Hm HP)
    as (m2 & e2 & H0 & Hd & Hc & -> & _).
  destruct m2 as [|m|m]; [reflexivity| |reflexivity].
  destruct (Z.leb_spec e2 104) as [He|He]; [|reflexivity].
  apply valid_finite_iff. rewrite fexp32_eq in Hc.
  pose proof (Zdigits2_bounds (Zpos m) ltac:(lia)) as [Hlo Hhi].
  split; [apply Zdigits2_lt_pow; [lia|assumption]|].
  split; [lia|].
  destruct (Z.eq_dec e2 (-149)) as [|Hne]; [now right|left].
  replace 23 with (Zdigits2 (Zpos m) - 1) by lia. exact Hlo.
Qed.

Lemma of_decimal_valid (neg : bool) (m : positive) (k : nat) :
  Binary32.valid (Binary32.of_decimal neg m k) = true.
Proof.
  unfold Binary32.of_decimal, SFdiv.
  change Binary32.prec with 24. change Binary32.emax with 128.
  destruct (SFdiv_core_binary 24 128 (Zpos m) 0 _ 0) as [[q e'] l] eqn:E.
  destruct (SFdiv_core_binary_spec _ _ _ _ (Pos2Z.is_pos m)
              (Pos2Z.is_pos (Z.to_pos (10 ^ Z.of_nat k))) q e' l E)
    as (Hq0 & HP & _ & _).
  now apply binary_round_aux_valid.
Qed.

Lemma PlainDecimal_float_valid (tok : string) (x : float) :
  fromString (FromString := PlainDecimal.float_of) tok = Some x ->
  Binary32.valid x = true.
Proof.
  unfold fromString, PlainDecimal.float_of.
  destruct (PlainDecimal.signed _) as [neg s1].
  destruct (PlainDecimal.digits s1 0 0) as [[ip n1] s2].
  destruct (match s2 with
            | EmptyString => _
            | String c rest => _
            end) as [[m n2] s3].
  destruct (n1 + n2)%nat; [discriminate|].
  destruct (PlainDecimal.skipBlanks s3); [|discriminate].
  intros H. injection H as <-.
  destruct m; [reflexivity|apply of_decimal_valid|reflexivity].
Qed.

Lemma init_builds_every_loaded_star_witness :
  exists w' st' buffers,
    Rendering.init (SE := PlainDecimal.extraction) (ML := Scenes.anyLog10)
      (TL := Scenes.everyFile) "star.png" "star_cache.dat"
      Cases.hipparcosWorld Scenes.unbuilt
    = Returns (w', st', buffers)
    /\ StarsHDR.mStars (Rendering.base st') = [Samples.sunlike]
    /\ List.length (Rendering.starVBO buffers) = 1%nat
    /\ List.length (Rendering.backgroundVBO buffers) = 8%nat.
Proof.
  eexists.
  destruct (init_builds_every_loaded_star
              (SE := PlainDecimal.extraction) (ML := Scenes.anyLog10)
              (TL := Scenes.everyFile) "star.png" "star_cache.dat"
              Cases.hipparcosWorld
              (store "star_cache.dat" (serializeCache 1 [Samples.sunlike])
                 Cases.hipparcosWorld)
              Scenes.unbuilt
              (StarsHDR.setStars
                 (Rendering.coloured (StarsHDR.constructed Samples.hipparcosOnly))
                 [Samples.sunlike])
              PlainDecimal_float_valid eq_refl eq_refl eq_refl
              ltac:(cbn; unfold INT_MAX; lia))
    as (st' & buffers & Hrun & Hbase & Hstars & Hquad).
  exists st', buffers. split; [exact Hrun|]. split; [now rewrite Hbase|].
  split; [exact Hstars|exact Hquad].
Defined.

(* ================================================================== *)
(** * The line rule on a catalog file *)
(* ================================================================== *)

Lemma subscript_nth {A : Type} (v : list A) (i : Z) (a d : A) :
  subscript v i = Ok a -> nth (Z.to_nat i) v d = a.
Proof.
  unfold subscript. destruct (i <? 0); [discriminate|].
  destruct (nth_error v (Z.to_nat i)) as [b|] eqn:E; [|discriminate].
  intros H. injection H as <-. now apply nth_error_nth.
Qed.

(** [360.F + 90.F] is 450. *)
Lemma f360_plus_f90 : Binary32.add Binary32.f360 Binary32.f90 = Binary32.of_Z 450.
Proof. vm_compute. reflexivity. Qed.

Lemma normalizeAscension_radians (a : float) :
  normalizeAscension a = radians (Binary32.sub (Binary32.of_Z 450) a).
Proof. unfold normalizeAscension, radians. now rewrite f360_plus_f90. Qed.

Section LineRuleFacts.

Context {SE : StreamExtraction}.

(** What the loop body appends for a line is what the rule says. *)
Lemma parseLine_lineRule (row : list Z) (delim : ascii) (nh lh : bool)
  (line : string) (r : LineResult) :
  parseLine row nh lh (tokenize delim line) = Ok r ->
  appended r = lineRule row delim (nh && lh) line.
Proof.
  unfold parseLine, lineRule. cbv zeta.
  generalize (tokenize delim line). intros items.
  destruct (Z.ltb_spec 12 (Z.of_nat (List.length items))) as [Hlong|Hshort].
  2:{ intros H. injection H as <-.
      destruct (Nat.ltb_spec (List.length items) 13); [reflexivity|lia]. }
  destruct (Nat.ltb_spec (List.length items) 13) as [|_]; [lia|].
  assert (Htail :
    forall skip : bool,
      (if skip then Ok InHipparcos
       else
         v <- subscript items (column row eVmag) ;;
         b <- subscript items (column row eBmag) ;;
         r <- subscript items (column row eRect) ;;
         d <- subscript items (column row eDecl) ;;
         p <- (if 0 <? column row ePara
               then tok <- subscript items (column row ePara) ;;
                    Ok (match fromString (T := float) tok with
                        | Some x => x
                        | None => Binary32.zero
                        end)
               else Ok Binary32.zero) ;;
         match fromString (T := float) v, fromString (T := float) b,
               fromString (T := float) r, fromString (T := float) d with
         | Some vm, Some bm, Some ra, Some de =>
             Ok (Parsed {| mVMagnitude := vm;
                           mBMagnitude := bm;
                           mAscension := normalizeAscension ra;
                           mDeclination := normalizeDeclination de;
                           mParallax := p |})
         | _, _, _, _ => Ok Unparsable
         end) = Ok r ->
      appended r =
      (if skip then []
       else
         match fromString (T := float) (nth (Z.to_nat (column row eVmag)) items EmptyString),
               fromString (T := float) (nth (Z.to_nat (column row eBmag)) items EmptyString),
               fromString (T := float) (nth (Z.to_nat (column row eRect)) items EmptyString),
               fromString (T := float) (nth (Z.to_nat (column row eDecl)) items EmptyString)
         with
         | Some v, Some b, Some a, Some d =>
             [ {| mVMagnitude := v;
                  mBMagnitude := b;
                  mAscension := radians (Binary32.sub (Binary32.of_Z 450) a);
                  mDeclination := radians d;
                  mParallax :=
                    if column row ePara <=? 0 then Binary32.zero
                    else match fromString (T := float)
                                 (nth (Z.to_nat (column row ePara)) items EmptyString) with
                         | Some p => p
                         | None => Binary32.zero
                         end |} ]
         | _, _, _, _ => []
         end)).
  { intros [|]; [intros H; injection H as <-; reflexivity|].
    destruct (subscript items (column row eVmag)) as [v|] eqn:Ev; cbn [bind];
      [|discriminate].
    destruct (subscript items (column row eBmag)) as [b|] eqn:Eb; cbn [bind];
      [|discriminate].
    destruct (subscript items (column row eRect)) as [a|] eqn:Ea; cbn [bind];
      [|discriminate].
    destruct (subscript items (column row eDecl)) as [d|] eqn:Ed; cbn [bind];
      [|discriminate].
    rewrite (subscript_nth _ _ _ EmptyString Ev), (subscript_nth _ _ _ EmptyString Eb),
      (subscript_nth _ _ _ EmptyString Ea), (subscript_nth _ _ _ EmptyString Ed).
    destruct (Z.ltb_spec 0 (column row ePara)) as [Hp|Hp];
      destruct (Z.leb_spec (column row ePara) 0) as [Hq|Hq]; try lia.
    - destruct (subscript items (column row ePara)) as [p|] eqn:Ep; cbn [bind];
        [|discriminate].
      rewrite (subscript_nth _ _ _ EmptyString Ep).
      destruct (fromString (T := float) v), (fromString (T := float) b),
        (fromString (T := float) a), (fromString (T := float) d);
        intros H; injection H as <-; cbn [appended];
        rewrite ?normalizeAscension_radians; reflexivity.
    - cbn [bind].
      destruct (fromString (T := float) v), (fromString (T := float) b),
        (fromString (T := float) a), (fromString (T := float) d);
        intros H; injection H as <-; cbn [appended];
        rewrite ?normalizeAscension_radians; reflexivity. }
  destruct (nh && lh).
  - destruct (subscript items (column row eHipp)) as [tok|] eqn:Et; cbn [bind];
      [|discriminate].
    rewrite (subscript_nth _ _ _ EmptyString Et). cbn [andb]. apply Htail.
  - cbn [bind andb]. apply (Htail false).
Qed.

Lemma readLines_lineRule (row : list Z) (delim : ascii) (nh lh : bool)
  (lines : list string) (stars stars' : list Star) :
  readLines row delim nh lh lines stars = Ok stars' ->
  stars' = stars ++ flat_map (lineRule row delim (nh && lh)) lines.
Proof.
  revert stars. induction lines as [|line rest IH]; intros stars H; cbn [readLines] in H.
  - injection H as <-. cbn. now rewrite app_nil_r.
  - destruct (parseLine row nh lh (tokenize delim line)) as [r|i n] eqn:E;
      [|discriminate].
    cbn [bind] in H. apply IH in H. subst stars'.
    rewrite (parseLine_lineRule _ _ _ _ _ _ E). cbn [flat_map].
    now rewrite app_assoc.
Qed.

Lemma lineRule_length (row : list Z) (delim : ascii) (deduplicate : bool)
  (line : string) :
  (List.length (lineRule row delim deduplicate line) <= 1)%nat.
Proof.
  unfold lineRule. cbv zeta.
  destruct (_ <? 13)%nat; [cbn; lia|].
  destruct (deduplicate && _); [cbn; lia|].
  repeat match goal with
         | |- context [match fromString ?t with _ => _ end] => destruct (fromString t)
         end; cbn; lia.
Qed.

(** A line whose cross-reference column holds an integer contributes
    nothing when the de-duplication applies. *)
Lemma lineRule_cross_referenced (row : list Z) (delim : ascii) (line : string) :
  crossReferenced row delim line -> lineRule row delim true line = [].
Proof.
  intros (tok & n & Htok & Hn). unfold lineRule. cbv zeta.
  destruct (_ <? 13)%nat; [reflexivity|].
  rewrite (subscript_nth _ _ _ EmptyString Htok). unfold parses. rewrite Hn.
  reflexivity.
Qed.

End LineRuleFacts.

Section CatalogFileFacts.

Context {SE : StreamExtraction}.

Lemma readLines_parsed (row : list Z) (delim : ascii) (nh lh : bool)
  (lines : list string) (new stars : list Star) :
  Forall2 (fun line s => parseLine row nh lh (tokenize delim line) = Ok (Parsed s))
    lines new ->
  readLines row delim nh lh lines stars = Ok (stars ++ new).
Proof.
  intros H. revert stars. induction H as [|line s lines new Hs _ IH]; intros stars.
  - cbn. now rewrite app_nil_r.
  - cbn [readLines]. rewrite Hs. cbn [bind appended]. rewrite IH.
    now rewrite <- app_assoc.
Qed.

Lemma readLines_short (row : list Z) (delim : ascii) (nh lh : bool)
  (lines : list string) (stars : list Star) :
  Forall (fun line => (List.length (tokenize delim line) <= 12)%nat) lines ->
  readLines row delim nh lh lines stars = Ok stars.
Proof.
  intros H. induction H as [|line lines Hs _ IH]; [reflexivity|].
  cbn [readLines]. rewrite parseLine_short by lia. cbn [bind appended].
  now rewrite app_nil_r.
Qed.

Lemma readLines_defined (row : list Z) (delim : ascii) (nh lh : bool)
  (lines : list string) (stars : list Star) :
  Forall (fun line => exists r, parseLine row nh lh (tokenize delim line) = Ok r)
    lines ->
  exists stars', readLines row delim nh lh lines stars = Ok stars'.
Proof.
  intros H. revert stars. induction H as [|line lines (r & Hr) _ IH]; intros stars.
  - eexists; reflexivity.
  - cbn [readLines]. rewrite Hr. cbn [bind]. apply IH.
Qed.

(** With the de-duplication on and no cross-reference column in the row,
    the first line of more than 12 tokens is read at index -1. *)
Lemma readLines_no_cross_reference_column (row : list Z) (delim : ascii)
  (before after : list string) (line : string) (stars : list Star) :
  column row eHipp = -1 ->
  Forall (fun line => (List.length (tokenize delim line) <= 12)%nat) before ->
  (12 < List.length (tokenize delim line))%nat ->
  readLines row delim true true (before ++ line :: after) stars
  = OutOfRange (-1) (List.length (tokenize delim line)).
Proof.
  intros Hcol Hb Hlong. induction Hb as [|l before Hs _ IH].
  - cbn [app readLines]. unfold parseLine.
    destruct (Z.ltb_spec 12 (Z.of_nat (List.length (tokenize delim line)))); [|lia].
    cbn [andb]. rewrite Hcol. reflexivity.
  - cbn [app readLines]. rewrite parseLine_short by lia. cbn [bind appended].
    rewrite app_nil_r. exact IH.
Qed.

Lemma StarsHDR_readStarsFromCatalog_lineRule (type : StarsHDR.CatalogType)
  (filename : string) (w w' : World) (st st' : StarsHDR.Stars) (success : bool)
  (lines : list string) :
  catalogFile w filename = Some lines ->
  StarsHDR.readStarsFromCatalog type filename w st = Returns (success, w', st') ->
  success = true /\ w' = w
  /\ st' = StarsHDR.setStars st
             (StarsHDR.mStars st
              ++ flat_map (lineRule (StarsHDR.mappingRow type) "|"
                             (negb (StarsHDR.eqb type StarsHDR.eHipparcos)
                              && StarsHDR.contains (StarsHDR.mCatalogs st)
                                   StarsHDR.eHipparcos))
                   lines).
Proof.
  intros Hf. unfold StarsHDR.readStarsFromCatalog. rewrite Hf.
  destruct (readLines _ _ _ _ lines (StarsHDR.mStars st)) as [stars|i n] eqn:E;
    cbn [lift obind]; [|discriminate].
  intros H. injection H as <- <- <-. apply readLines_lineRule in E. now subst stars.
Qed.

Lemma StarsHDR_readCatalog_lineRule (type : StarsHDR.CatalogType)
  (filename : string) (w : World) (st : StarsHDR.Stars)
  (ws' : World * StarsHDR.Stars) (lines : list string) :
  catalogFile w filename = Some lines ->
  StarsHDR.readCatalog type filename (w, st) = Returns ws' ->
  ws' = (w, StarsHDR.setStars st
              (StarsHDR.mStars st
               ++ flat_map (lineRule (StarsHDR.mappingRow type) "|"
                              (negb (StarsHDR.eqb type StarsHDR.eHipparcos)
                               && StarsHDR.contains (StarsHDR.mCatalogs st)
                                    StarsHDR.eHipparcos))
                    lines)).
Proof.
  intros Hf. unfold StarsHDR.readCatalog. cbn [fst snd].
  destruct (StarsHDR.readStarsFromCatalog type filename w st)
    as [[[success w1] st1]| |] eqn:E; cbn [obind fst snd]; try discriminate.
  intros H. injection H as <-.
  destruct (StarsHDR_readStarsFromCatalog_lineRule _ _ _ _ _ _ _ _ Hf E)
    as (_ & -> & ->).
  reflexivity.
Qed.

Lemma StarsGaia_readCatalog_lineRule (eType : StarsGaia.CatalogType)
  (sFilename : string) (w : World) (st : StarsGaia.Stars)
  (ws' : World * StarsGaia.Stars) (lines : list string) :
  catalogFile w sFilename = Some lines ->
  StarsGaia.readCatalog eType sFilename (w, st) = Returns ws' ->
  ws' = (w, StarsGaia.setStars st
              (StarsGaia.mStars st
               ++ flat_map (lineRule (StarsGaia.mappingRow eType)
                              (StarsGaia.delimiter eType)
                              (negb (StarsGaia.eqb eType StarsGaia.eHipparcos)
                               && StarsGaia.contains (StarsGaia.mCatalogs st)
                                    StarsGaia.eHipparcos))
                    lines)).
Proof.
  intros Hf. unfold StarsGaia.readCatalog, StarsGaia.readStarsFromCatalog.
  cbn [fst snd]. rewrite Hf.
  destruct (readLines _ _ _ _ lines (StarsGaia.mStars st)) as [stars|i n] eqn:E;
    cbn [lift obind fst snd]; [|discriminate].
  intros H. injection H as <-. apply readLines_lineRule in E. now subst stars.
Qed.

Lemma StarsGaia_setStars_same (st : StarsGaia.Stars) :
  StarsGaia.setStars st (StarsGaia.mStars st) = st.
Proof. now destruct st. Qed.

(** A Gaia line is read within its tokens when it is short or has the 56
    tokens the Gaia row needs, as long as no Hipparcos number is looked
    up. *)
Lemma StarsGaia_parseLine_gaia (items : list string) :
  (List.length items <= 12 \/ 56 <= List.length items)%nat ->
  exists r, parseLine (StarsGaia.mappingRow StarsGaia.eGaia) true false items = Ok r.
Proof.
  intros [Hshort|Hlong].
  - exists TooFewTokens. apply parseLine_short. lia.
  - apply parseLine_defined; try discriminate; try (intros _); unfold in_range;
      match goal with
      | |- context [column ?r ?c] =>
          let v := eval vm_compute in (column r c) in change (column r c) with v
      end; lia.
Qed.

End CatalogFileFacts.

(** C3, amended.  What [readStarsFromCatalog] appends for a catalog file is
    the line rule applied to its lines in order: nothing for a line of
    fewer than 13 tokens, nothing for a line that the de-duplication
    against Hipparcos skips, otherwise exactly one record when the
    magnitude, blue magnitude, ascension and declination tokens all parse
    (the ascension mapped to 450 degrees minus itself in radians, the
    declination to radians, the parallax 0 when the catalog has no
    parallax column or the token does not parse), and nothing when one of
    the four does not parse.  This holds whenever the call returns, that is
    whenever no line is read outside its tokens, and the call does return
    on a file whose lines have at most 12 or at least 35 tokens; it then
    answers [true], leaves the files and the log alone, and changes the
    star list only. *)
Theorem parser_line_rule {SE : StreamExtraction} (type : StarsHDR.CatalogType)
  (filename : string) (w : World) (st : StarsHDR.Stars) (lines : list string) :
  catalogFile w filename = Some lines ->
  (forall (success : bool) (w' : World) (st' : StarsHDR.Stars),
     StarsHDR.readStarsFromCatalog type filename w st = Returns (success, w', st') ->
     success = true /\ w' = w
     /\ StarsHDR.mCatalogs st' = StarsHDR.mCatalogs st
     /\ StarsHDR.mStars st'
        = StarsHDR.mStars st
          ++ flat_map
               (lineRule (StarsHDR.mappingRow type) "|"
                  match type, StarsHDR.mCatalogs st StarsHDR.eHipparcos with
                  | StarsHDR.eHipparcos, _ | _, None => false
                  | _, Some _ => true
                  end)
               lines)
  /\ (Forall (fun line =>
                (List.length (tokenize "|" line) <= 12
                 \/ 35 <= List.length (tokenize "|" line))%nat) lines ->
      exists st' : StarsHDR.Stars,
        StarsHDR.readStarsFromCatalog type filename w st = Returns (true, w, st'))
  /\ (forall (deduplicate : bool) (line : string),
        (List.length (lineRule (StarsHDR.mappingRow type) "|" deduplicate line)
         <= 1)%nat).
Proof.
  intros Hf. split; [|split].
  - intros success w' st' H.
    destruct (StarsHDR_readStarsFromCatalog_lineRule _ _ _ _ _ _ _ _ Hf H)
      as (-> & -> & ->).
    repeat split. cbn [StarsHDR.mStars StarsHDR.setStars]. f_equal. f_equal.
    unfold StarsHDR.contains.
    destruct type, (StarsHDR.mCatalogs st StarsHDR.eHipparcos); reflexivity.
  - intros Hwide. unfold StarsHDR.readStarsFromCatalog. rewrite Hf.
    destruct (StarsHDR_readLines_full_width type
                (negb (StarsHDR.eqb type StarsHDR.eHipparcos))
                (StarsHDR.contains (StarsHDR.mCatalogs st) StarsHDR.eHipparcos)
                lines (StarsHDR.mStars st) Hwide) as (stars & ->).
    eexists. reflexivity.
  - intros deduplicate line. apply lineRule_length.
Qed.

Lemma parser_line_rule_witness :
  exists st' : StarsHDR.Stars,
    StarsHDR.readStarsFromCatalog (SE := PlainDecimal.extraction) StarsHDR.eTycho
      "tyc_main.dat" Cases.tychoWorld (StarsHDR.constructed Samples.hipparcosAndTycho)
    = Returns (true, Cases.tychoWorld, st')
    /\ StarsHDR.mStars st' = [Cases.tychoAlone].
Proof.
  destruct (parser_line_rule (SE := PlainDecimal.extraction) StarsHDR.eTycho
              "tyc_main.dat" Cases.tychoWorld
              (StarsHDR.constructed Samples.hipparcosAndTycho)
              Cases.tychoFile eq_refl) as (Hrule & Htotal & _).
  destruct Htotal as (st' & Hrun).
  { constructor; [right; vm_compute; lia|].
    constructor; [right; vm_compute; lia|].
    constructor; [left; vm_compute; lia|constructor]. }
  exists st'. split; [exact Hrun|].
  destruct (Hrule _ _ _ Hrun) as (_ & _ & _ & ->). vm_compute. reflexivity.
Defined.

(* ================================================================== *)
(** * De-duplication against Hipparcos *)
(* ================================================================== *)

(** C4 as stated fails: a star listed in both catalogs yields no record at
    all when its Hipparcos line does not parse.  The Hipparcos line of star
    1234 has a blank visual magnitude and is dropped; its Tycho line, which
    would parse, is skipped for carrying the Hipparcos number. *)
Lemma hipparcos_deduplication_counterexample :
  nth 31 (tokenize "|" Cases.hipparcosLineWithoutMagnitude) EmptyString = "1234"%string
  /\ nth 31 (tokenize "|" Samples.tychoLineInHipparcos) EmptyString = "1234"%string
  /\ StarsHDR.catalogLine (SE := PlainDecimal.extraction) Samples.hipparcosAndTycho
       StarsHDR.eHipparcos Cases.hipparcosLineWithoutMagnitude = Ok Unparsable
  /\ StarsHDR.catalogLine (SE := PlainDecimal.extraction) Samples.hipparcosAndTycho
       StarsHDR.eTycho Samples.tychoLineInHipparcos = Ok InHipparcos
  /\ StarsHDR.catalogLine (SE := PlainDecimal.extraction) Cases.tychoAndTycho2
       StarsHDR.eTycho Samples.tychoLineInHipparcos = Ok (Parsed Samples.sunlike)
  /\ exists (w' : World) (st' : StarsHDR.Stars),
       StarsHDR.loadStars (SE := PlainDecimal.extraction) "star_cache.dat"
         Cases.blankWorld (StarsHDR.constructed Samples.hipparcosAndTycho)
       = Returns (w', st')
       /\ StarsHDR.mStars st' = [].
Proof.
  repeat split. eexists. eexists. split; reflexivity.
Qed.

(** C4, amended.  With Hipparcos configured, a line of another catalog
    whose cross-reference column parses as an integer appends no record
    (in the loop body of either revision, and for the Tycho and Tycho2
    rows of this one), whether or not the Hipparcos file yields a record
    for that star.
    Loading Hipparcos and Tycho together on a missed cache therefore
    yields, in this order, the records of the lines of the Hipparcos file
    and the records of the lines of the Tycho file that carry no Hipparcos
    number.  The two lines of a star listed in both catalogs contribute
    exactly one record when its Hipparcos line yields a record; and when
    every Hipparcos line yields a record and every Tycho line carries a
    Hipparcos number, the loading returns with exactly one record per
    Hipparcos line. *)
Theorem hipparcos_deduplication {SE : StreamExtraction} (sCacheFile : string)
  (w : World) (st : StarsHDR.Stars) (hfile tfile : string)
  (hlines tlines : list string) :
  cacheFile w sCacheFile = None ->
  StarsHDR.mCatalogs st StarsHDR.eHipparcos = Some hfile ->
  StarsHDR.mCatalogs st StarsHDR.eTycho = Some tfile ->
  catalogFile w hfile = Some hlines ->
  catalogFile w tfile = Some tlines ->
  (forall (row : list Z) (items : list string) (tok : string) (n : Z),
     subscript items (column row eHipp) = Ok tok ->
     fromString (T := Z) tok = Some n ->
     exists r, parseLine row true true items = Ok r /\ appended r = [])
  /\
  (forall (type : StarsHDR.CatalogType) (line : string),
     type <> StarsHDR.eHipparcos ->
     crossReferenced (StarsHDR.mappingRow type) "|" line ->
     (exists r, StarsHDR.catalogLine (StarsHDR.mCatalogs st) type line = Ok r
                /\ appended r = [])
     /\ lineRule (StarsHDR.mappingRow type) "|" true line = [])
  /\ (forall (w' : World) (st' : StarsHDR.Stars),
        StarsHDR.loadStars sCacheFile w st = Returns (w', st') ->
        StarsHDR.mStars st'
        = StarsHDR.mStars st
          ++ flat_map (lineRule (StarsHDR.mappingRow StarsHDR.eHipparcos) "|" false) hlines
          ++ flat_map (lineRule (StarsHDR.mappingRow StarsHDR.eTycho) "|" true) tlines)
  /\ (forall (hl tl : string) (s : Star),
        StarsHDR.catalogLine (StarsHDR.mCatalogs st) StarsHDR.eHipparcos hl
        = Ok (Parsed s) ->
        crossReferenced (StarsHDR.mappingRow StarsHDR.eTycho) "|" tl ->
        lineRule (StarsHDR.mappingRow StarsHDR.eHipparcos) "|" false hl
        ++ lineRule (StarsHDR.mappingRow StarsHDR.eTycho) "|" true tl = [s])
  /\ (forall stars : list Star,
        Forall2 (fun hl s =>
                   StarsHDR.catalogLine (StarsHDR.mCatalogs st) StarsHDR.eHipparcos hl
                   = Ok (Parsed s)) hlines stars ->
        Forall (crossReferenced (StarsHDR.mappingRow StarsHDR.eTycho) "|") tlines ->
        exists (w' : World) (st' : StarsHDR.Stars),
          StarsHDR.loadStars sCacheFile w st = Returns (w', st')
          /\ StarsHDR.mStars st' = StarsHDR.mStars st ++ stars
          /\ List.length stars = List.length hlines).
Proof.
  intros Hcache Hh Ht Hhf Htf.
  assert (Hskip : forall line,
             crossReferenced (StarsHDR.mappingRow StarsHDR.eTycho) "|" line ->
             lineRule (StarsHDR.mappingRow StarsHDR.eTycho) "|" true line = []).
  { intros line. apply lineRule_cross_referenced. }
  assert (Hload : forall (w' : World) (st' : StarsHDR.Stars),
             StarsHDR.loadStars sCacheFile w st = Returns (w', st') ->
             StarsHDR.mStars st'
             = StarsHDR.mStars st
               ++ flat_map (lineRule (StarsHDR.mappingRow StarsHDR.eHipparcos) "|" false)
                    hlines
               ++ flat_map (lineRule (StarsHDR.mappingRow StarsHDR.eTycho) "|" true)
                    tlines).
  { intros w' st' H. unfold StarsHDR.loadStars, StarsHDR.readStarCache in H.
    rewrite Hcache in H. cbn [obind fst snd] in H. rewrite Hh, Ht in H.
    first_stage H ws1 E1.
    apply (StarsHDR_readCatalog_lineRule _ _ _ _ _ _ Hhf) in E1. subst ws1.
    first_stage H ws2 E2.
    apply (StarsHDR_readCatalog_lineRule _ _ _ _ _ _ Htf) in E2. subst ws2.
    cbn [StarsHDR.mStars StarsHDR.setStars StarsHDR.mCatalogs] in H.
    unfold StarsHDR.contains in H. rewrite Hh, Ht in H. cbn [negb andb] in H.
    change (negb (StarsHDR.eqb StarsHDR.eHipparcos StarsHDR.eHipparcos)) with false in H.
    change (negb (StarsHDR.eqb StarsHDR.eTycho StarsHDR.eHipparcos)) with true in H.
    cbn [andb] in H.
    destruct (StarsHDR.mCatalogs st StarsHDR.eTycho2);
      cbn [obind fst snd StarsHDR.mStars StarsHDR.setStars] in H;
      match type of H with
      | match ?l with _ => _ end = _ => destruct l eqn:El
      end;
      injection H as _ <-; cbn [StarsHDR.mStars StarsHDR.setStars];
      rewrite <- El; now rewrite <- app_assoc. }
  split; [intros row items tok n; apply parseLine_cross_referenced|].
  split; [|split; [exact Hload|split]].
  - intros type line Htype Hx. split; [|now apply lineRule_cross_referenced].
    destruct Hx as (tok & n & Htok & Hn). unfold StarsHDR.catalogLine.
    unfold StarsHDR.contains. rewrite Hh.
    assert (Hnh : negb (StarsHDR.eqb type StarsHDR.eHipparcos) = true)
      by (destruct type; [contradiction|reflexivity|reflexivity]).
    rewrite Hnh. now apply (parseLine_cross_referenced _ _ tok n).
  - intros hl tl s Hs Hx. rewrite (Hskip tl Hx), app_nil_r.
    unfold StarsHDR.catalogLine in Hs. apply parseLine_lineRule in Hs.
    change (negb (StarsHDR.eqb StarsHDR.eHipparcos StarsHDR.eHipparcos))
      with false in Hs.
    cbn [andb] in Hs. rewrite <- Hs. reflexivity.
  - intros stars Hparsed Hx.
    assert (Hr1 : readLines (StarsHDR.mappingRow StarsHDR.eHipparcos) "|"
                    (negb (StarsHDR.eqb StarsHDR.eHipparcos StarsHDR.eHipparcos))
                    (StarsHDR.contains (StarsHDR.mCatalogs st) StarsHDR.eHipparcos)
                    hlines (StarsHDR.mStars st)
                  = Ok (StarsHDR.mStars st ++ stars)).
    { apply readLines_parsed. exact Hparsed. }
    unfold StarsHDR.loadStars, StarsHDR.readStarCache. rewrite Hcache.
    cbn [obind fst snd]. rewrite Hh, Ht.
    unfold StarsHDR.readCatalog at 1, StarsHDR.readStarsFromCatalog.
    cbn [fst snd]. rewrite Hhf, Hr1. cbn [lift obind fst snd].
    unfold StarsHDR.readCatalog at 1, StarsHDR.readStarsFromCatalog.
    cbn [fst snd StarsHDR.setStars StarsHDR.mStars StarsHDR.mCatalogs]. rewrite Htf.
    unfold StarsHDR.contains at 1. rewrite Hh.
    change (negb (StarsHDR.eqb StarsHDR.eTycho StarsHDR.eHipparcos)) with true.
    rewrite (readLines_cross_referenced _ _ _ _ Hx).
    cbn [lift obind fst snd StarsHDR.setStars StarsHDR.mStars StarsHDR.mCatalogs].
    unfold StarsHDR.contains. rewrite Ht. cbn [negb].
    pose proof (Forall2_length Hparsed) as Hlen.
    destruct (StarsHDR.mCatalogs st StarsHDR.eTycho2);
      cbn [obind fst snd StarsHDR.mStars];
      destruct (StarsHDR.mStars st ++ stars) eqn:El;
      eexists; eexists; (split; [reflexivity|]);
      cbn [StarsHDR.mStars]; (split; [reflexivity|now symmetry]).
Qed.

Lemma hipparcos_deduplication_witness :
  (exists (w' : World) (st' : StarsHDR.Stars),
     StarsHDR.loadStars (SE := PlainDecimal.extraction) "star_cache.dat"
       Cases.bothWorld (StarsHDR.constructed Samples.hipparcosAndTycho)
     = Returns (w', st')
     /\ StarsHDR.mStars st' = [Samples.sunlike; Cases.tychoAlone])
  /\ (exists (w' : World) (st' : StarsHDR.Stars),
        StarsHDR.loadStars (SE := PlainDecimal.extraction) "star_cache.dat"
          Cases.duplicateWorld (StarsHDR.constructed Samples.hipparcosAndTycho)
        = Returns (w', st')
        /\ StarsHDR.mStars st' = [] ++ [Samples.sunlike]
        /\ List.length [Samples.sunlike] = List.length [Samples.hipparcosLine]).
Proof.
  split.
  2:{ destruct (hipparcos_deduplication (SE := PlainDecimal.extraction)
                  "star_cache.dat" Cases.duplicateWorld
                  (StarsHDR.constructed Samples.hipparcosAndTycho)
                  "hip_main.dat" "tyc_main.dat" [Samples.hipparcosLine]
                  [Samples.tychoLineInHipparcos]
                  eq_refl eq_refl eq_refl eq_refl eq_refl) as (_ & _ & _ & _ & Hall).
      apply (Hall [Samples.sunlike]).
      - constructor; [reflexivity|constructor].
      - constructor; [|constructor].
        exists "1234"%string, 1234. split; reflexivity. }
  destruct (hipparcos_deduplication (SE := PlainDecimal.extraction) "star_cache.dat"
              Cases.bothWorld (StarsHDR.constructed Samples.hipparcosAndTycho)
              "hip_main.dat" "tyc_main.dat" [Samples.hipparcosLine] Cases.tychoFile
              eq_refl eq_refl eq_refl eq_refl eq_refl) as (_ & _ & Hload & _).
  destruct (StarsHDR.loadStars (SE := PlainDecimal.extraction) "star_cache.dat"
              Cases.bothWorld (StarsHDR.constructed Samples.hipparcosAndTycho))
    as [[w' st']| |] eqn:E; [|vm_compute in E; discriminate E ..].
  exists w', st'. split; [reflexivity|].
  rewrite (Hload w' st' eq_refl). vm_compute. reflexivity.
Defined.

(* ================================================================== *)
(** * The Gaia catalog beside other catalogs *)
(* ================================================================== *)

(** C6, amended.  When the Gaia catalog is configured and the cache is
    missed, the orchestrator reads the Gaia file and no other catalog.
    Without Hipparcos among the configured catalogs, the loaded stars are
    the records of the lines of the Gaia file, whatever the files of the
    other catalogs hold; an error is logged when another catalog is
    configured; and the loading returns when every Gaia line has at most 12
    or at least 56 tokens.  With Hipparcos among them, the first Gaia line
    of more than 12 tokens is read at index -1, and only a Gaia file of
    short lines is loaded, without any record. *)
Theorem gaia_takes_precedence {SE : StreamExtraction} (sCacheFile : string)
  (w : World) (st : StarsGaia.Stars) (gfile : string) (lines : list string) :
  StarsGaia.readStarCache sCacheFile w st = Returns (false, st) ->
  StarsGaia.mCatalogs st StarsGaia.eGaia = Some gfile ->
  catalogFile w gfile = Some lines ->
  (StarsGaia.mCatalogs st StarsGaia.eHipparcos = None ->
   (forall (w' : World) (st' : StarsGaia.Stars),
      StarsGaia.loadStars sCacheFile w st = Returns (w', st') ->
      StarsGaia.mStars st'
      = StarsGaia.mStars st
        ++ flat_map (lineRule (StarsGaia.mappingRow StarsGaia.eGaia) "," false) lines
      /\ StarsGaia.mCatalogs st' = StarsGaia.mCatalogs st
      /\ ((1 < StarsGaia.size (StarsGaia.mCatalogs st))%nat ->
          In (Error,
              "Failed to load star catalogs: Gaia cannot be combined with other catalogues!"%string)
            (logged w')))
   /\ (Forall (fun line =>
                 (List.length (tokenize "," line) <= 12
                  \/ 56 <= List.length (tokenize "," line))%nat) lines ->
       exists (w' : World) (st' : StarsGaia.Stars),
         StarsGaia.loadStars sCacheFile w st = Returns (w', st')))
  /\
  (StarsGaia.mCatalogs st StarsGaia.eHipparcos <> None ->
   (forall (before after : list string) (line : string),
      lines = before ++ line :: after ->
      Forall (fun l => (List.length (tokenize "," l) <= 12)%nat) before ->
      (12 < List.length (tokenize "," line))%nat ->
      StarsGaia.loadStars sCacheFile w st
      = Undefined (IndexOutOfRange (-1) (List.length (tokenize "," line))))
   /\ (Forall (fun l => (List.length (tokenize "," l) <= 12)%nat) lines ->
       exists w' : World, StarsGaia.loadStars sCacheFile w st = Returns (w', st))).
Proof.
  intros Hmiss Hg Hf. split.
  - intros Hh. split.
    + intros w' st' H. unfold StarsGaia.loadStars in H. rewrite Hmiss in H.
      cbn [obind fst snd] in H. rewrite Hg in H.
      first_stage H ws1 E1. first_stage E1 ws0 E0.
      apply (StarsGaia_readCatalog_lineRule _ _ _ _ _ _ Hf) in E0. subst ws0.
      unfold StarsGaia.contains in E1. rewrite Hh in E1.
      change (StarsGaia.delimiter StarsGaia.eGaia) with ","%char in E1.
      rewrite andb_false_r in E1. cbn [fst snd] in E1.
      destruct (1 <? StarsGaia.size (StarsGaia.mCatalogs st))%nat eqn:Es;
        injection E1 as <-;
        cbn [obind fst snd StarsGaia.mStars StarsGaia.setStars] in H;
        match type of H with
        | match ?l with _ => _ end = _ => destruct l eqn:El
        end;
        injection H as <- <-; cbn [StarsGaia.mStars StarsGaia.setStars
                                     StarsGaia.mCatalogs];
        (split; [reflexivity|]); (split; [reflexivity|]); intros Hsize.
      * cbn [say logged]. apply in_or_app. left. apply in_or_app. right. now left.
      * unfold StarsGaia.writeStarCache. destruct (writable _ sCacheFile).
        -- cbn [store say logged]. apply in_or_app. right. now left.
        -- cbn [say logged]. apply in_or_app. left. apply in_or_app. right. now left.
      * apply Nat.ltb_ge in Es. lia.
      * apply Nat.ltb_ge in Es. lia.
    + intros Hwide.
      destruct (readLines_defined (StarsGaia.mappingRow StarsGaia.eGaia) "," true false
                  lines (StarsGaia.mStars st)) as (stars & Hr).
      { eapply Forall_impl; [|exact Hwide]. intros line Hl.
        now apply StarsGaia_parseLine_gaia. }
      unfold StarsGaia.loadStars. rewrite Hmiss. cbn [obind fst snd]. rewrite Hg.
      unfold StarsGaia.readCatalog, StarsGaia.readStarsFromCatalog.
      cbn [fst snd]. rewrite Hf. unfold StarsGaia.contains. rewrite Hh.
      change (StarsGaia.delimiter StarsGaia.eGaia) with ","%char.
      change (negb (StarsGaia.eqb StarsGaia.eGaia StarsGaia.eHipparcos)) with true.
      rewrite Hr. cbn [lift obind fst snd].
      destruct (1 <? _)%nat; cbn [obind fst snd StarsGaia.mStars StarsGaia.setStars];
        destruct stars; eexists; eexists; reflexivity.
  - intros Hh. destruct (StarsGaia.mCatalogs st StarsGaia.eHipparcos) as [hfile|] eqn:Eh;
      [clear Hh|contradiction].
    split.
    + intros before after line -> Hshort Hlong.
      unfold StarsGaia.loadStars. rewrite Hmiss. cbn [obind fst snd]. rewrite Hg.
      unfold StarsGaia.readCatalog, StarsGaia.readStarsFromCatalog.
      cbn [fst snd]. rewrite Hf. unfold StarsGaia.contains. rewrite Eh.
      change (StarsGaia.delimiter StarsGaia.eGaia) with ","%char.
      change (negb (StarsGaia.eqb StarsGaia.eGaia StarsGaia.eHipparcos)) with true.
      rewrite readLines_no_cross_reference_column by (assumption || reflexivity).
      reflexivity.
    + intros Hshort.
      unfold StarsGaia.loadStars. rewrite Hmiss. cbn [obind fst snd]. rewrite Hg.
      unfold StarsGaia.readCatalog, StarsGaia.readStarsFromCatalog.
      cbn [fst snd]. rewrite Hf.
      change (StarsGaia.delimiter StarsGaia.eGaia) with ","%char.
      rewrite readLines_short by assumption. cbn [lift obind fst snd].
      rewrite StarsGaia_setStars_same.
      destruct (1 <? _)%nat; cbn [obind fst snd];
        destruct (StarsGaia.mStars st); eexists; reflexivity.
Qed.

Lemma gaia_takes_precedence_witness :
  (exists (w' : World) (st' : StarsGaia.Stars),
     StarsGaia.loadStars (SE := PlainDecimal.extraction) "star_cache.dat"
       Cases.gaiaAndTychoWorld (StarsGaia.constructed Samples.gaiaAndTycho)
     = Returns (w', st')
     /\ StarsGaia.mStars st' = [Samples.sunlike]
     /\ In (Error,
            "Failed to load star catalogs: Gaia cannot be combined with other catalogues!"%string)
          (logged w'))
  /\ StarsGaia.loadStars (SE := PlainDecimal.extraction) "star_cache.dat"
       Cases.gaiaAndHipparcosWorld (StarsGaia.constructed Samples.gaiaAndHipparcos)
     = Undefined (IndexOutOfRange (-1) 56).
Proof.
  split.
  - destruct (gaia_takes_precedence (SE := PlainDecimal.extraction) "star_cache.dat"
                Cases.gaiaAndTychoWorld (StarsGaia.constructed Samples.gaiaAndTycho)
                "gaia.csv" [Samples.gaiaLine] eq_refl eq_refl eq_refl) as (HA & _).
    destruct (HA eq_refl) as (Hload & Htotal).
    destruct Htotal as (w' & st' & Hrun).
    { constructor; [right; vm_compute; lia|constructor]. }
    exists w', st'. split; [exact Hrun|].
    destruct (Hload _ _ Hrun) as (Hs & _ & Hlog).
    split; [rewrite Hs; vm_compute; reflexivity|apply Hlog; vm_compute; lia].
  - destruct (gaia_takes_precedence (SE := PlainDecimal.extraction) "star_cache.dat"
                Cases.gaiaAndHipparcosWorld
                (StarsGaia.constructed Samples.gaiaAndHipparcos)
                "gaia.csv" [Samples.gaiaLine] eq_refl eq_refl eq_refl) as (_ & HB).
    destruct (HB ltac:(discriminate)) as (Hub & _).
    apply (Hub [] [] Samples.gaiaLine eq_refl (Forall_nil _)).
    vm_compute. lia.
Defined.
